(** * A shallow embedding of the poker core of gamblingback

    The development follows [PokerGameEngine] (the pure hand state machine
    and the hand evaluator) and [PokerRoomManager] (turn rotation, the
    state check after an action and the view that is broadcast to
    subscribers), and [calculateBetResult] of [MultiplayerRouletteService].

    JavaScript numbers are modelled by [Z]: every quantity of the engine
    (chips, bets, pot, scores) is an integer that stays far below 2^53, so
    the arithmetic of the source is exact on them.  A thrown [Error] is the
    [Throw] outcome; functions that mutate the room in place return the
    room as it is when they return or throw. *)

From Stdlib Require Import String ZArith List Bool Arith Lia Permutation Sorted.
Import ListNotations.
Open Scope string_scope.
Open Scope list_scope.
Open Scope Z_scope.

(** * Part I: the embedding and the vocabulary of its properties *)

(** ** Cards *)

Inductive Suit : Type := hearts | diamonds | clubs | spades.

(** The thirteen rank strings of [createDeck]: "2" .. "10", "J", "Q", "K", "A". *)
Inductive Rank : Type :=
  | R2 | R3 | R4 | R5 | R6 | R7 | R8 | R9 | R10 | RJ | RQ | RK | RA.

Record Card : Type := mkCard { rank : Rank; suit : Suit }.

Definition Suit_eqb (a b : Suit) : bool :=
  match a, b with
  | hearts, hearts | diamonds, diamonds | clubs, clubs | spades, spades => true
  | _, _ => false
  end.

(** [getRankValue]: the lookup table of the source; the [|| 0] fallback is
    for strings that are no rank, which the type [Rank] excludes. *)
Definition getRankValue (r : Rank) : Z :=
  match r with
  | R2 => 2 | R3 => 3 | R4 => 4 | R5 => 5 | R6 => 6 | R7 => 7 | R8 => 8
  | R9 => 9 | R10 => 10 | RJ => 11 | RQ => 12 | RK => 13 | RA => 14
  end.

Definition Rank_eqb (a b : Rank) : bool := getRankValue a =? getRankValue b.

(** The [value] field that [evaluateHand] attaches to each card. *)
Definition value (c : Card) : Z := getRankValue (rank c).

(** ** Outcomes of code that may throw *)

Inductive outcome (A : Type) : Type :=
  | Ok (a : A)
  | Throw (msg : string).
Arguments Ok {A} a.
Arguments Throw {A} msg.

Definition obind {A B} (m : outcome A) (f : A -> outcome B) : outcome B :=
  match m with
  | Ok a => f a
  | Throw msg => Throw msg
  end.

Notation "x <- m ;; k" := (obind m (fun x => k))
  (at level 61, m at next level, right associativity).

(** ** Array helpers *)

(** [Array.prototype.sort] with a comparator is stable; [before a b] tells
    that [a] may stay in front of [b] (the comparator is not positive). *)
Fixpoint insertSorted {A} (before : A -> A -> bool) (x : A) (l : list A) : list A :=
  match l with
  | [] => [x]
  | y :: l' => if before x y then x :: y :: l' else y :: insertSorted before x l'
  end.

Definition sortBy {A} (before : A -> A -> bool) (l : list A) : list A :=
  fold_right (insertSorted before) [] l.

(** [arr.slice(0, n)] *)
Definition slice0 {A} (n : nat) (l : list A) : list A := firstn n l.

(** [arr.reduce((sum, x, index) => f sum x index, init)] *)
Fixpoint reduceIdx {A B} (f : B -> A -> nat -> B) (l : list A) (index : nat) (acc : B) : B :=
  match l with
  | [] => acc
  | x :: l' => reduceIdx f l' (S index) (f acc x index)
  end.

(** [Math.pow(10, top - index)]; the exponent is never negative where the
    source calls it, because the reduced arrays are slices of at most
    [top + 1] elements. *)
Definition pow10 (top : Z) (index : nat) : Z := 10 ^ (top - Z.of_nat index).

(** [[...new Set(values)]]: first occurrences, in order. *)
Fixpoint dedupe (l : list Z) : list Z :=
  match l with
  | [] => []
  | x :: l' => x :: filter (fun y => negb (y =? x)) (dedupe l')
  end.

(** ** Grouping ([groupByRank], [groupBySuit])

    A JS object is modelled by its keys in insertion order.  A group is
    created by the first [push], so it is never empty: it is kept as its
    first card and the cards pushed after it. *)

Definition Group : Type := (Card * list Card)%type.

Definition gfirst (g : Group) : Card := fst g.
Definition gcards (g : Group) : list Card := fst g :: snd g.
Definition glength (g : Group) : nat := S (List.length (snd g)).

Fixpoint pushGroup {K} (eqb : K -> K -> bool) (k : K) (c : Card)
    (groups : list (K * Group)) : list (K * Group) :=
  match groups with
  | [] => [(k, (c, []))]
  | (k', g) :: rest =>
      if eqb k k' then (k', (fst g, snd g ++ [c])) :: rest
      else (k', g) :: pushGroup eqb k c rest
  end.

(** The loop [for (const card of cards)] of [groupByRank] and
    [groupBySuit], which differ in the key only. *)
Definition groupBy {K} (eqb : K -> K -> bool) (key : Card -> K) (cards : list Card)
    : list (K * Group) :=
  fold_left (fun groups card => pushGroup eqb (key card) card groups) cards [].

Definition groupByRank (cards : list Card) : list (Rank * Group) :=
  groupBy Rank_eqb rank cards.

Definition groupBySuit (cards : list Card) : list (Suit * Group) :=
  groupBy Suit_eqb suit cards.

(** Keys "2" .. "10" are array indices for JavaScript; "J", "Q", "K", "A"
    are ordinary string keys. *)
Definition isIndexKey (r : Rank) : bool :=
  match r with
  | RJ | RQ | RK | RA => false
  | _ => true
  end.

(** [Object.entries(groups)] for rank keys: the integer keys first, in
    ascending numeric order, then the string keys in insertion order. *)
Definition entriesByRank (groups : list (Rank * Group)) : list (Rank * Group) :=
  sortBy (fun a b => getRankValue (fst a) <=? getRankValue (fst b))
         (filter (fun e => isIndexKey (fst e)) groups)
  ++ filter (fun e => negb (isIndexKey (fst e))) groups.

(** [Object.entries(suitGroups)]: suit names are string keys, so the
    entries come in insertion order. *)
Definition entriesBySuit (groups : list (Suit * Group)) : list (Suit * Group) := groups.

(** ** Hand evaluation *)

(** The object returned by the [check*] methods.  [cards] may hold
    [undefined] ([None]) where it is built from [cards.find]. *)
Module HandResult.
Record t : Type := mk {
  name : string;
  score : Z;
  cards : list (option Card)
}.
End HandResult.
Abbreviation HandResult := HandResult.t.
Abbreviation mkResult := HandResult.mk.

Definition isConsecutive_step (prev cur : Z) : bool := cur =? prev - 1.

Fixpoint isConsecutive (values : list Z) : bool :=
  match values with
  | prev :: ((cur :: _) as rest) =>
      if negb (isConsecutive_step prev cur) then false else isConsecutive rest
  | _ => true
  end.

Definition findByValue (cards : list Card) (v : Z) : option Card :=
  find (fun card => value card =? v) cards.

(** The loop [for (i = 0; i <= uniqueValues.length - 5; i++)] over the
    windows [uniqueValues.slice(i, i + 5)]. *)
Fixpoint regularStraight (uniqueValues : list Z) : option (list Z) :=
  match uniqueValues with
  | [] => None
  | _ :: rest =>
      if (5 <=? List.length uniqueValues)%nat then
        let sequence := slice0 5 uniqueValues in
        if isConsecutive sequence then Some sequence else regularStraight rest
      else None
  end.

Definition includes (l : list Z) (v : Z) : bool := existsb (Z.eqb v) l.

Definition checkStraight (cards : list Card) : option HandResult :=
  let uniqueValues := sortBy (fun a b => b <=? a) (dedupe (map value cards)) in
  match regularStraight uniqueValues with
  | Some sequence =>
      let straightCards := map (findByValue cards) sequence in
      Some (mkResult "Straight" (4000 + hd 0 sequence) straightCards)
  | None =>
      if includes uniqueValues 14 && includes uniqueValues 5 &&
         includes uniqueValues 4 && includes uniqueValues 3 &&
         includes uniqueValues 2
      then
        let wheelCards := map (findByValue cards) [5; 4; 3; 2; 14] in
        Some (mkResult "Straight" (4000 + 5) wheelCards)
      else None
  end.

(** The five cards [bestFlushCards] of [checkFlush], which
    [checkStraightFlush] reads back as [flush.cards]. *)
Definition flushCards (cards : list Card) : option (list Card) :=
  match find (fun e => (5 <=? glength (snd e))%nat) (entriesBySuit (groupBySuit cards)) with
  | None => None
  | Some (_, flushGroup) => Some (slice0 5 (gcards flushGroup))
  end.

Definition checkFlush (cards : list Card) : option HandResult :=
  match flushCards cards with
  | None => None
  | Some bestFlushCards =>
      Some (mkResult "Flush"
              (5000 + reduceIdx (fun sum card index => sum + value card * pow10 4 index)
                                bestFlushCards 0%nat 0)
              (map Some bestFlushCards))
  end.

(** [result.cards[0].value]: a [TypeError] when the element is missing or
    [undefined]. *)
Definition firstCardValue (cs : list (option Card)) : outcome Z :=
  match cs with
  | Some card :: _ => Ok (value card)
  | _ => Throw "TypeError: cannot read properties of undefined"
  end.

Definition checkStraightFlush (cards : list Card) : outcome (option HandResult) :=
  match flushCards cards with
  | None => Ok None
  | Some flushed =>
      match checkStraight flushed with
      | None => Ok None
      | Some straight =>
          v <- firstCardValue (HandResult.cards straight) ;;
          Ok (Some (mkResult "Straight Flush" (8000 + v) (HandResult.cards straight)))
      end
  end.

Definition checkRoyalFlush (cards : list Card) : outcome (option HandResult) :=
  straightFlush <- checkStraightFlush cards ;;
  match straightFlush with
  | None => Ok None
  | Some sf =>
      v <- firstCardValue (HandResult.cards sf) ;;
      if v =? 14
      then Ok (Some (mkResult "Royal Flush" (9000 + v) (HandResult.cards sf)))
      else Ok None
  end.

Definition checkFourOfAKind (cards : list Card) : option HandResult :=
  let groups := groupByRank cards in
  match find (fun e => (glength (snd e) =? 4)%nat) (entriesByRank groups) with
  | None => None
  | Some (_, fourCards) =>
      let kicker := find (fun card => negb (value card =? value (gfirst fourCards))) cards in
      Some (mkResult "Four of a Kind" (7000 + value (gfirst fourCards))
              (match kicker with
               | Some k => map Some (gcards fourCards ++ [k])
               | None => map Some (gcards fourCards)
               end))
  end.

(** In [checkFullHouse] the test [cards !== threeOfAKind?.[1]] compares
    array identities; each key owns its own array, so two entries hold the
    same array exactly when they have the same key. *)
Definition checkFullHouse (cards : list Card) : option HandResult :=
  let groups := groupByRank cards in
  let threeOfAKind := find (fun e => (glength (snd e) =? 3)%nat) (entriesByRank groups) in
  let pair :=
    find (fun e => (2 <=? glength (snd e))%nat &&
                   match threeOfAKind with
                   | Some three => negb (Rank_eqb (fst e) (fst three))
                   | None => true
                   end)
         (entriesByRank groups) in
  match threeOfAKind, pair with
  | Some (_, threeCards), Some (_, pairCards) =>
      Some (mkResult "Full House"
              (6000 + value (gfirst threeCards) * 100 + value (gfirst pairCards))
              (map Some (gcards threeCards ++ slice0 2 (gcards pairCards))))
  | _, _ => None
  end.

Definition checkThreeOfAKind (cards : list Card) : option HandResult :=
  let groups := groupByRank cards in
  match find (fun e => (glength (snd e) =? 3)%nat) (entriesByRank groups) with
  | None => None
  | Some (_, threeCards) =>
      let kickers :=
        slice0 2 (filter (fun card => negb (value card =? value (gfirst threeCards))) cards) in
      Some (mkResult "Three of a Kind"
              (3000 + value (gfirst threeCards) * 100 +
               reduceIdx (fun sum card _ => sum + value card) kickers 0%nat 0)
              (map Some (gcards threeCards ++ kickers)))
  end.

Definition checkTwoPair (cards : list Card) : option HandResult :=
  let groups := groupByRank cards in
  let pairs := filter (fun e => (2 <=? glength (snd e))%nat) (entriesByRank groups) in
  if (List.length pairs <? 2)%nat then None else
  match sortBy (fun a b => value (gfirst (snd b)) <=? value (gfirst (snd a))) pairs with
  | (_, highPairCards) :: (_, lowPairCards) :: _ =>
      let kicker :=
        find (fun card => negb (value card =? value (gfirst highPairCards)) &&
                          negb (value card =? value (gfirst lowPairCards))) cards in
      let handCards := slice0 2 (gcards highPairCards) ++ slice0 2 (gcards lowPairCards) in
      Some (mkResult "Two Pair"
              (2000 + value (gfirst highPairCards) * 100 +
               value (gfirst lowPairCards) * 10 +
               match kicker with Some k => value k | None => 0 end)
              (map Some (match kicker with Some k => handCards ++ [k] | None => handCards end)))
  | _ => None
  end.

Definition checkPair (cards : list Card) : option HandResult :=
  let groups := groupByRank cards in
  match find (fun e => (2 <=? glength (snd e))%nat) (entriesByRank groups) with
  | None => None
  | Some (_, pairCards) =>
      let kickers :=
        slice0 3 (filter (fun card => negb (value card =? value (gfirst pairCards))) cards) in
      Some (mkResult "Pair"
              (1000 + value (gfirst pairCards) * 100 +
               reduceIdx (fun sum card index => sum + value card * pow10 2 index) kickers 0%nat 0)
              (map Some (slice0 2 (gcards pairCards) ++ kickers)))
  end.

Definition checkHighCard (cards : list Card) : option HandResult :=
  let bestCards := slice0 5 cards in
  Some (mkResult "High Card"
          (reduceIdx (fun sum card index => sum + value card * pow10 4 index) bestCards 0%nat 0)
          (map Some bestCards)).

(** [a || b] on results: an object is truthy, [null] is falsy; [b] is
    evaluated only when [a] is [null], and a throw in [a] propagates. *)
Definition orElse (a b : outcome (option HandResult)) : outcome (option HandResult) :=
  match a with
  | Ok None => b
  | _ => a
  end.

Infix "<||>" := orElse (at level 62, left associativity).

Definition evaluateHand (playerHand communityCards : list Card)
    : outcome (option HandResult) :=
  let allCards := playerHand ++ communityCards in
  if (List.length allCards <? 5)%nat then
    Ok (Some (mkResult "Incomplete Hand" 0 []))
  else
    let sortedCards := sortBy (fun a b => value b <=? value a) allCards in
    checkRoyalFlush sortedCards <||>
    checkStraightFlush sortedCards <||>
    Ok (checkFourOfAKind sortedCards) <||>
    Ok (checkFullHouse sortedCards) <||>
    Ok (checkFlush sortedCards) <||>
    Ok (checkStraight sortedCards) <||>
    Ok (checkThreeOfAKind sortedCards) <||>
    Ok (checkTwoPair sortedCards) <||>
    Ok (checkPair sortedCards) <||>
    Ok (checkHighCard sortedCards).

(** [handValue.score] as [processShowdown] reads it. *)
Definition scoreOf (r : outcome (option HandResult)) : option Z :=
  match r with
  | Ok (Some h) => Some (HandResult.score h)
  | _ => None
  end.

Definition nameOf (r : outcome (option HandResult)) : option string :=
  match r with
  | Ok (Some h) => Some (HandResult.name h)
  | _ => None
  end.

(** ** Vocabulary of the evaluator's properties *)

(** The ten category names, weakest last. *)
Definition categoryNames : list string :=
  ["Royal Flush"; "Straight Flush"; "Four of a Kind"; "Full House"; "Flush";
   "Straight"; "Three of a Kind"; "Two Pair"; "Pair"; "High Card"].

(** The shape of the [||] chain: with at least five cards the result is
    the first check that is not [null], and no check throws. *)
Inductive evaluated (cs : list Card) (r : HandResult) : Prop :=
  | ev_royal : checkRoyalFlush cs = Ok (Some r) -> evaluated cs r
  | ev_straightFlush : checkStraightFlush cs = Ok (Some r) -> evaluated cs r
  | ev_four : checkFourOfAKind cs = Some r -> evaluated cs r
  | ev_fullHouse : checkFullHouse cs = Some r -> evaluated cs r
  | ev_flush : checkFlush cs = Some r -> evaluated cs r
  | ev_straight : checkStraight cs = Some r -> evaluated cs r
  | ev_three : checkThreeOfAKind cs = Some r -> evaluated cs r
  | ev_twoPair : checkTwoPair cs = Some r -> evaluated cs r
  | ev_pair : checkPair cs = Some r -> evaluated cs r
  | ev_highCard : checkHighCard cs = Some r -> evaluated cs r.

(** What the loop of [groupBy] maintains: each group holds the cards of
    its key seen so far, no key occurs twice, and every card seen has its
    group. *)
Definition grouped {K} (eqb : K -> K -> bool) (key : Card -> K)
    (pre : list Card) (groups : list (K * Group)) : Prop :=
  (forall k g, In (k, g) groups -> gcards g = filter (fun x => eqb (key x) k) pre) /\
  NoDup (map fst groups) /\
  (forall x, In x pre -> In (key x) (map fst groups)).

Definition countRank (r : Rank) (cards : list Card) : nat :=
  List.length (filter (fun x => Rank_eqb (rank x) r) cards).

Definition countSuit (s : Suit) (cards : list Card) : nat :=
  List.length (filter (fun x => Suit_eqb (suit x) s) cards).

(** ** The wheel *)

Definition containsRank (cards : list Card) (r : Rank) : Prop :=
  exists x, In x cards /\ rank x = r.

(** No suit holds five cards. *)
Definition noFlush (cards : list Card) : Prop :=
  forall s, (countSuit s cards < 5)%nat.

(** No five consecutive values topped by a six or a higher card. *)
Definition noHigherStraight (cards : list Card) : Prop :=
  forall top, 6 <= top ->
    ~ (In top (map value cards) /\ In (top - 1) (map value cards) /\
       In (top - 2) (map value cards) /\ In (top - 3) (map value cards) /\
       In (top - 4) (map value cards)).

(** The value of the first card of a result, [result.cards[0].value]. *)
Definition topValue (r : HandResult) : option Z :=
  match HandResult.cards r with
  | Some card :: _ => Some (value card)
  | _ => None
  end.

Definition byValueDesc (a b : Card) : bool := value b <=? value a.

Definition c (r : Rank) (s : Suit) : Card := mkCard r s.

(** ** Rooms and players

    The room object of [createInitialGameState] and the player object of
    [addPlayerToRoom].  Player ids are strings; [null] is [None].  The
    timestamps ([createdAt], [updatedAt], [lastSeen]) are left out: they
    are written from the clock and read by no rule of the game. *)

Inductive Phase : Type := waiting | preflop | flop | turn | river | showdown.

Definition Phase_eqb (a b : Phase) : bool :=
  match a, b with
  | waiting, waiting | preflop, preflop | flop, flop
  | turn, turn | river, river | showdown, showdown => true
  | _, _ => false
  end.

Module Player.
Record t : Type := mk {
  id : string;
  username : string;
  chips : Z;
  bet : Z;
  status : string;
  hand : list Card;
  folded : bool;
  allIn : bool;
  connected : bool
}.
Definition set_chips (v : Z) (x : t) : t :=
  mk (id x) (username x) v (bet x) (status x) (hand x) (folded x) (allIn x) (connected x).
Definition set_bet (v : Z) (x : t) : t :=
  mk (id x) (username x) (chips x) v (status x) (hand x) (folded x) (allIn x) (connected x).
Definition set_status (v : string) (x : t) : t :=
  mk (id x) (username x) (chips x) (bet x) v (hand x) (folded x) (allIn x) (connected x).
Definition set_hand (v : list Card) (x : t) : t :=
  mk (id x) (username x) (chips x) (bet x) (status x) v (folded x) (allIn x) (connected x).
Definition set_folded (v : bool) (x : t) : t :=
  mk (id x) (username x) (chips x) (bet x) (status x) (hand x) v (allIn x) (connected x).
Definition set_allIn (v : bool) (x : t) : t :=
  mk (id x) (username x) (chips x) (bet x) (status x) (hand x) (folded x) v (connected x).
Definition set_connected (v : bool) (x : t) : t :=
  mk (id x) (username x) (chips x) (bet x) (status x) (hand x) (folded x) (allIn x) v.
End Player.

Module Room.
Record t : Type := mk {
  id : string;
  name : string;
  creator : string;
  players : list Player.t;
  maxPlayers : nat;
  minBet : Z;
  maxBet : Z;
  status : string;
  phase : Phase;
  pot : Z;
  currentBet : Z;
  currentTurn : option string;
  lastRaiser : option string;
  deck : list Card;
  communityCards : list Card;
  dealerIndex : nat;
  smallBlind : option string;
  bigBlind : option string;
  playersActedThisRound : list string
}.
Definition set_players (v : list Player.t) (x : t) : t :=
  mk (id x) (name x) (creator x) v (maxPlayers x) (minBet x) (maxBet x) (status x) (phase x) (pot x) (currentBet x) (currentTurn x) (lastRaiser x) (deck x) (communityCards x) (dealerIndex x) (smallBlind x) (bigBlind x) (playersActedThisRound x).
Definition set_status (v : string) (x : t) : t :=
  mk (id x) (name x) (creator x) (players x) (maxPlayers x) (minBet x) (maxBet x) v (phase x) (pot x) (currentBet x) (currentTurn x) (lastRaiser x) (deck x) (communityCards x) (dealerIndex x) (smallBlind x) (bigBlind x) (playersActedThisRound x).
Definition set_phase (v : Phase) (x : t) : t :=
  mk (id x) (name x) (creator x) (players x) (maxPlayers x) (minBet x) (maxBet x) (status x) v (pot x) (currentBet x) (currentTurn x) (lastRaiser x) (deck x) (communityCards x) (dealerIndex x) (smallBlind x) (bigBlind x) (playersActedThisRound x).
Definition set_pot (v : Z) (x : t) : t :=
  mk (id x) (name x) (creator x) (players x) (maxPlayers x) (minBet x) (maxBet x) (status x) (phase x) v (currentBet x) (currentTurn x) (lastRaiser x) (deck x) (communityCards x) (dealerIndex x) (smallBlind x) (bigBlind x) (playersActedThisRound x).
Definition set_currentBet (v : Z) (x : t) : t :=
  mk (id x) (name x) (creator x) (players x) (maxPlayers x) (minBet x) (maxBet x) (status x) (phase x) (pot x) v (currentTurn x) (lastRaiser x) (deck x) (communityCards x) (dealerIndex x) (smallBlind x) (bigBlind x) (playersActedThisRound x).
Definition set_currentTurn (v : option string) (x : t) : t :=
  mk (id x) (name x) (creator x) (players x) (maxPlayers x) (minBet x) (maxBet x) (status x) (phase x) (pot x) (currentBet x) v (lastRaiser x) (deck x) (communityCards x) (dealerIndex x) (smallBlind x) (bigBlind x) (playersActedThisRound x).
Definition set_lastRaiser (v : option string) (x : t) : t :=
  mk (id x) (name x) (creator x) (players x) (maxPlayers x) (minBet x) (maxBet x) (status x) (phase x) (pot x) (currentBet x) (currentTurn x) v (deck x) (communityCards x) (dealerIndex x) (smallBlind x) (bigBlind x) (playersActedThisRound x).
Definition set_deck (v : list Card) (x : t) : t :=
  mk (id x) (name x) (creator x) (players x) (maxPlayers x) (minBet x) (maxBet x) (status x) (phase x) (pot x) (currentBet x) (currentTurn x) (lastRaiser x) v (communityCards x) (dealerIndex x) (smallBlind x) (bigBlind x) (playersActedThisRound x).
Definition set_communityCards (v : list Card) (x : t) : t :=
  mk (id x) (name x) (creator x) (players x) (maxPlayers x) (minBet x) (maxBet x) (status x) (phase x) (pot x) (currentBet x) (currentTurn x) (lastRaiser x) (deck x) v (dealerIndex x) (smallBlind x) (bigBlind x) (playersActedThisRound x).
Definition set_dealerIndex (v : nat) (x : t) : t :=
  mk (id x) (name x) (creator x) (players x) (maxPlayers x) (minBet x) (maxBet x) (status x) (phase x) (pot x) (currentBet x) (currentTurn x) (lastRaiser x) (deck x) (communityCards x) v (smallBlind x) (bigBlind x) (playersActedThisRound x).
Definition set_smallBlind (v : option string) (x : t) : t :=
  mk (id x) (name x) (creator x) (players x) (maxPlayers x) (minBet x) (maxBet x) (status x) (phase x) (pot x) (currentBet x) (currentTurn x) (lastRaiser x) (deck x) (communityCards x) (dealerIndex x) v (bigBlind x) (playersActedThisRound x).
Definition set_bigBlind (v : option string) (x : t) : t :=
  mk (id x) (name x) (creator x) (players x) (maxPlayers x) (minBet x) (maxBet x) (status x) (phase x) (pot x) (currentBet x) (currentTurn x) (lastRaiser x) (deck x) (communityCards x) (dealerIndex x) (smallBlind x) v (playersActedThisRound x).
Definition set_playersActedThisRound (v : list string) (x : t) : t :=
  mk (id x) (name x) (creator x) (players x) (maxPlayers x) (minBet x) (maxBet x) (status x) (phase x) (pot x) (currentBet x) (currentTurn x) (lastRaiser x) (deck x) (communityCards x) (dealerIndex x) (smallBlind x) (bigBlind x) v.
End Room.

(** [a === b] on ids, where [a] may be [null]. *)
Definition idIs (a : option string) (b : string) : bool :=
  match a with
  | Some x => String.eqb x b
  | None => false
  end.

(** [players.findIndex(p => p.id === id)]; [players.find] is the player at
    that index. *)
Fixpoint findIndexFrom {A} (f : A -> bool) (l : list A) (i : nat) : option nat :=
  match l with
  | [] => None
  | x :: l' => if f x then Some i else findIndexFrom f l' (S i)
  end.

Definition findIndex {A} (f : A -> bool) (l : list A) : option nat := findIndexFrom f l 0.

Definition hasId (pid : string) (p : Player.t) : bool := String.eqb (Player.id p) pid.

(** [arr[i] = x] for an index inside the array.  A player object found in
    [room.players] is mutated in place; the model writes the mutated
    player back at the index where it was found. *)
Fixpoint replaceAt {A} (i : nat) (x : A) (l : list A) : list A :=
  match l, i with
  | [], _ => []
  | _ :: l', O => x :: l'
  | y :: l', S i' => y :: replaceAt i' x l'
  end.

(** Code that mutates the room and may throw: the room as it is on return
    or at the throw, and the outcome. *)
Definition Eng (A : Type) : Type := (Room.t * outcome A)%type.

Definition ebind {A B} (m : Eng A) (f : Room.t -> A -> Eng B) : Eng B :=
  match m with
  | (room, Ok a) => f room a
  | (room, Throw msg) => (room, Throw msg)
  end.

(** [players.find(p => pred p)]: the index of the object found and its
    current contents. *)
Definition findPlayer (f : Player.t -> bool) (players : list Player.t)
    : option (nat * Player.t) :=
  match findIndex f players with
  | None => None
  | Some i =>
      match nth_error players i with
      | Some p => Some (i, p)
      | None => None
      end
  end.

(** ** PokerGameEngine: room and player management *)

(** The room id of the source is built from the clock and a random number;
    here it is an argument. *)
Definition createInitialGameState (roomId name creatorId : string)
    (maxPlayers : nat) (minBet maxBet : Z) : Room.t :=
  Room.mk roomId name creatorId [] maxPlayers minBet maxBet
          "waiting" waiting 0 0 None None [] [] 0%nat None None [].

(** The seat's [lastSeen] and the write [room.updatedAt = ...] that ends
    the function are clock values and are left out with the timestamps. *)
Definition addPlayerToRoom (room : Room.t) (id username : string) : Eng unit :=
  if existsb (hasId id) (Room.players room) then (room, Throw "Player already in room")
  else if (Room.maxPlayers room <=? List.length (Room.players room))%nat
  then (room, Throw "Room is full")
  else
    let player := Player.mk id username 1000 0 "active" [] false false true in
    (Room.set_players (Room.players room ++ [player]) room, Ok tt).

(** [arr.splice(i, 1)] *)
Fixpoint removeAt {A} (i : nat) (l : list A) : list A :=
  match l, i with
  | [], _ => []
  | _ :: l', O => l'
  | y :: l', S i' => y :: removeAt i' l'
  end.

(** As in [addPlayerToRoom], the write of [room.updatedAt] is left out. *)
Definition removePlayerFromRoom (room : Room.t) (playerId : string) : Eng unit :=
  match findIndex (hasId playerId) (Room.players room) with
  | None => (room, Throw "Player not in room")
  | Some playerIndex =>
      (Room.set_players (removeAt playerIndex (Room.players room)) room, Ok tt)
  end.

(** ** PokerGameEngine: action processing

    [processCall], [processBet], [processRaise] and [processAllIn] mutate
    the room and the acting player object; they return both. *)

(** [if (player.chips === 0) player.allIn = true] *)
Definition markAllIn (player : Player.t) : Player.t :=
  if Player.chips player =? 0 then Player.set_allIn true player else player.

Definition processCall (room : Room.t) (player : Player.t) : Room.t * Player.t :=
  let callAmount := Room.currentBet room - Player.bet player in
  if callAmount <=? 0 then (room, player)
  else
    let actualCall := Z.min callAmount (Player.chips player) in
    let player1 := Player.set_chips (Player.chips player - actualCall) player in
    let player2 := Player.set_bet (Player.bet player1 + actualCall) player1 in
    let room1 := Room.set_pot (Room.pot room + actualCall) room in
    (room1, markAllIn player2).

Definition processBet (room : Room.t) (player : Player.t) (amount : Z)
    : Room.t * Player.t * outcome unit :=
  if Room.currentBet room >? 0
  then (room, player, Throw "Cannot bet when there is already a bet")
  else if amount <? Room.minBet room
  then (room, player, Throw "Bet must be at least the minimum bet")
  else if amount >? Player.chips player
  then (room, player, Throw "Not enough chips")
  else
    let player1 := Player.set_chips (Player.chips player - amount) player in
    let player2 := Player.set_bet amount player1 in
    let room1 := Room.set_pot (Room.pot room + amount) room in
    let room2 := Room.set_currentBet amount room1 in
    let room3 := Room.set_lastRaiser (Some (Player.id player2)) room2 in
    let room4 := Room.set_playersActedThisRound [Player.id player2] room3 in
    (room4, markAllIn player2, Ok tt).

Definition processRaise (room : Room.t) (player : Player.t) (raiseAmount : Z)
    : Room.t * Player.t * outcome unit :=
  let totalBet := Room.currentBet room + raiseAmount in
  if totalBet >? Player.chips player + Player.bet player
  then (room, player, Throw "Not enough chips")
  else if raiseAmount <? Room.minBet room
  then (room, player, Throw "Raise must be at least the minimum bet")
  else
    let additionalAmount := totalBet - Player.bet player in
    let player1 := Player.set_chips (Player.chips player - additionalAmount) player in
    let player2 := Player.set_bet totalBet player1 in
    let room1 := Room.set_pot (Room.pot room + additionalAmount) room in
    let room2 := Room.set_currentBet totalBet room1 in
    let room3 := Room.set_lastRaiser (Some (Player.id player2)) room2 in
    let room4 := Room.set_playersActedThisRound [Player.id player2] room3 in
    (room4, markAllIn player2, Ok tt).

Definition processAllIn (room : Room.t) (player : Player.t)
    : Room.t * Player.t * outcome unit :=
  if Player.chips player <=? 0
  then (room, player, Throw "No chips to go all-in with")
  else
    let allInAmount := Player.chips player in
    let room1 := Room.set_pot (Room.pot room + allInAmount) room in
    let player1 := Player.set_bet (Player.bet player + allInAmount) player in
    let player2 := Player.set_chips 0 player1 in
    let player3 := Player.set_allIn true player2 in
    if Player.bet player3 >? Room.currentBet room1 then
      let room2 := Room.set_currentBet (Player.bet player3) room1 in
      let room3 := Room.set_lastRaiser (Some (Player.id player3)) room2 in
      let room4 := Room.set_playersActedThisRound [Player.id player3] room3 in
      (room4, player3, Ok tt)
    else (room1, player3, Ok tt).

(** The [switch (action)] of [processPlayerAction]. *)
Definition dispatchAction (room : Room.t) (player : Player.t) (action : string) (amount : Z)
    : Room.t * Player.t * outcome unit :=
  if String.eqb action "fold" then (room, Player.set_folded true player, Ok tt)
  else if String.eqb action "check" then
    if Room.currentBet room >? Player.bet player
    then (room, player, Throw "Cannot check when there is a bet to call")
    else (room, player, Ok tt)
  else if String.eqb action "call" then
    let (room1, player1) := processCall room player in (room1, player1, Ok tt)
  else if String.eqb action "bet" then processBet room player amount
  else if String.eqb action "raise" then processRaise room player amount
  else if String.eqb action "allin" then processAllIn room player
  else (room, player, Throw "Invalid action").

Definition includesId (ids : list string) (pid : string) : bool :=
  existsb (String.eqb pid) ids.

Definition processPlayerAction (room : Room.t) (playerId action : string) (amount : Z)
    : Eng unit :=
  match findPlayer (hasId playerId) (Room.players room) with
  | None => (room, Throw "Player not found")
  | Some (i, player) =>
      if negb (idIs (Room.currentTurn room) playerId) then (room, Throw "Not your turn")
      else if Player.folded player then (room, Throw "Player has folded")
      else
        match dispatchAction room player action amount with
        | (room1, player1, result) =>
            let room2 := Room.set_players (replaceAt i player1 (Room.players room1)) room1 in
            match result with
            | Throw msg => (room2, Throw msg)
            | Ok _ =>
                if includesId (Room.playersActedThisRound room2) playerId
                then (room2, Ok tt)
                else (Room.set_playersActedThisRound
                        (Room.playersActedThisRound room2 ++ [playerId]) room2, Ok tt)
            end
        end
  end.

(** ** PokerGameEngine: the deck *)

Definition createDeck : list Card :=
  flat_map (fun suit =>
              map (fun rank => mkCard rank suit)
                  [R2; R3; R4; R5; R6; R7; R8; R9; R10; RJ; RQ; RK; RA])
           [hearts; diamonds; clubs; spades].

(** [[l[i], l[j]] = [l[j], l[i]]] *)
Definition swap {A} (i j : nat) (l : list A) : list A :=
  match nth_error l i, nth_error l j with
  | Some a, Some b => replaceAt j a (replaceAt i b l)
  | _, _ => l
  end.

(** The Fisher-Yates loop [for (i = length - 1; i > 0; i--)].  [rand i]
    stands for [Math.floor(Math.random() * (i + 1))], a number from 0 to
    [i]; it is reduced modulo [i + 1] so that any [rand] is in range. *)
Fixpoint shuffleLoop (rand : nat -> nat) (i : nat) (shuffled : list Card) : list Card :=
  match i with
  | O => shuffled
  | S i' => shuffleLoop rand i' (swap i (rand i mod S i) shuffled)
  end.

Definition shuffleDeck (rand : nat -> nat) (deck : list Card) : list Card :=
  shuffleLoop rand (List.length deck - 1) deck.

(** [arr.pop()]: the last element and the array without it. *)
Definition pop {A} (l : list A) : option (A * list A) :=
  match rev l with
  | [] => None
  | x :: r => Some (x, rev r)
  end.

(** One pass of [for (const player of room.players)] in [dealHoleCards]. *)
Fixpoint dealRound (deck : list Card) (players : list Player.t)
    : list Card * list Player.t :=
  match players with
  | [] => (deck, [])
  | player :: rest =>
      match pop deck with
      | Some (card, deck1) =>
          let (deck2, rest1) := dealRound deck1 rest in
          (deck2, Player.set_hand (Player.hand player ++ [card]) player :: rest1)
      | None =>
          let (deck2, rest1) := dealRound deck rest in
          (deck2, player :: rest1)
      end
  end.

Definition dealHoleCards (room : Room.t) : Room.t :=
  let (deck1, players1) := dealRound (Room.deck room) (Room.players room) in
  let (deck2, players2) := dealRound deck1 players1 in
  Room.set_deck deck2 (Room.set_players players2 room).

(** ** PokerGameEngine: dealer, blinds and first to act *)

(** [undefined.chips] and the like. *)
Definition typeError {A} : outcome A := Throw "TypeError: cannot read properties of undefined".

Definition postBlinds (room : Room.t) : Eng unit :=
  let sbAmount := Room.minBet room / 2 in
  let bbAmount := Room.minBet room in
  match findPlayer (fun p => idIs (Room.smallBlind room) (Player.id p)) (Room.players room) with
  | None => (room, typeError)
  | Some (i, sbPlayer) =>
      let sbPost := Z.min sbAmount (Player.chips sbPlayer) in
      let sbPlayer1 := Player.set_chips (Player.chips sbPlayer - sbPost) sbPlayer in
      let sbPlayer2 := Player.set_bet sbPost sbPlayer1 in
      let room1 := Room.set_pot (Room.pot room + sbPost) room in
      let room2 := Room.set_players (replaceAt i (markAllIn sbPlayer2) (Room.players room1)) room1 in
      match findPlayer (fun p => idIs (Room.bigBlind room2) (Player.id p)) (Room.players room2) with
      | None => (room2, typeError)
      | Some (j, bbPlayer) =>
          let bbPost := Z.min bbAmount (Player.chips bbPlayer) in
          let bbPlayer1 := Player.set_chips (Player.chips bbPlayer - bbPost) bbPlayer in
          let bbPlayer2 := Player.set_bet bbPost bbPlayer1 in
          let room3 := Room.set_pot (Room.pot room2 + bbPost) room2 in
          let room4 :=
            Room.set_players (replaceAt j (markAllIn bbPlayer2) (Room.players room3)) room3 in
          let room5 := Room.set_currentBet (Player.bet bbPlayer2) room4 in
          (Room.set_lastRaiser (Room.bigBlind room5) room5, Ok tt)
      end
  end.

(** [activePlayers[k].id] *)
Definition idAt (players : list Player.t) (k : nat) : outcome string :=
  match nth_error players k with
  | Some p => Ok (Player.id p)
  | None => typeError
  end.

Definition assignDealerAndBlinds (room : Room.t) : Eng unit :=
  let activePlayers := filter (fun p => Player.chips p >? 0) (Room.players room) in
  let n := List.length activePlayers in
  if (n <? 2)%nat then (room, Ok tt)
  else
    (* Move dealer button *)
    let room1 := Room.set_dealerIndex (Room.dealerIndex room mod n) room in
    let d := Room.dealerIndex room1 in
    let sbIndex := if (n =? 2)%nat then d else ((d + 1) mod n)%nat in
    let bbIndex := if (n =? 2)%nat then ((d + 1) mod n)%nat else ((d + 2) mod n)%nat in
    match idAt activePlayers sbIndex with
    | Throw msg => (room1, Throw msg)
    | Ok sb =>
        let room2 := Room.set_smallBlind (Some sb) room1 in
        match idAt activePlayers bbIndex with
        | Throw msg => (room2, Throw msg)
        | Ok bb => postBlinds (Room.set_bigBlind (Some bb) room2)
        end
    end.

Definition sitsOut (p : Player.t) : bool := Player.folded p || Player.allIn p.

(** The [while] loops of [setFirstPlayerToAct] and [setFirstPlayerPostFlop]:
    step clockwise while the seat is folded or all-in, and stop on coming
    back to [first].  The loop body runs at most once per seat, so [fuel]
    is the number of seats. *)
Fixpoint seekActive (players : list Player.t) (first : nat) (fuel : nat)
    (currentIndex : nat) : outcome nat :=
  match nth_error players currentIndex with
  | None => typeError
  | Some p =>
      if sitsOut p then
        let next := ((currentIndex + 1) mod List.length players)%nat in
        if (next =? first)%nat then Ok next
        else
          match fuel with
          | O => Throw "loop bound exceeded"
          | S fuel' => seekActive players first fuel' next
          end
      else Ok currentIndex
  end.

Definition setTurnFrom (room : Room.t) (first : nat) : Eng unit :=
  let players := Room.players room in
  match seekActive players first (List.length players) first with
  | Throw msg => (room, Throw msg)
  | Ok currentIndex =>
      match idAt players currentIndex with
      | Throw msg => (room, Throw msg)
      | Ok pid => (Room.set_currentTurn (Some pid) room, Ok tt)
      end
  end.

Definition setFirstPlayerToAct (room : Room.t) : Eng unit :=
  let activePlayers := filter (fun p => negb (Player.folded p) && negb (Player.allIn p))
                              (Room.players room) in
  if (List.length activePlayers =? 0)%nat then (room, Ok tt)
  else
    (* findIndex gives -1 when no seat holds the big blind, and -1 + 1 = 0 *)
    let next := match findIndex (fun p => idIs (Room.bigBlind room) (Player.id p))
                                (Room.players room) with
                | Some bbIndex => (bbIndex + 1)%nat
                | None => 0%nat
                end in
    let firstPlayerIndex := (next mod List.length (Room.players room))%nat in
    setTurnFrom room firstPlayerIndex.

Definition setFirstPlayerPostFlop (room : Room.t) : Eng unit :=
  let activePlayers := filter (fun p => negb (Player.folded p) && negb (Player.allIn p))
                              (Room.players room) in
  if (List.length activePlayers =? 0)%nat then (room, Ok tt)
  else
    setTurnFrom room ((Room.dealerIndex room + 1) mod List.length (Room.players room))%nat.

Definition resetPlayer (player : Player.t) : Player.t :=
  Player.set_status "active"
    (Player.set_allIn false
       (Player.set_folded false
          (Player.set_bet 0 (Player.set_hand [] player)))).

Definition startNewHand (rand : nat -> nat) (room : Room.t) : Eng unit :=
  if (List.length (Room.players room) <? 2)%nat
  then (room, Throw "Need at least 2 players to start")
  else
    let room1 := Room.set_status "playing" room in
    let room2 := Room.set_phase preflop room1 in
    let room3 := Room.set_pot 0 room2 in
    let room4 := Room.set_communityCards [] room3 in
    let room5 := Room.set_currentBet 0 room4 in
    let room6 := Room.set_lastRaiser None room5 in
    let room7 := Room.set_playersActedThisRound [] room6 in
    let room8 := Room.set_players (map resetPlayer (Room.players room7)) room7 in
    let room9 := Room.set_deck (shuffleDeck rand createDeck) room8 in
    ebind (assignDealerAndBlinds room9) (fun room10 _ =>
    setFirstPlayerToAct (dealHoleCards room10)).

(** ** PokerGameEngine: rounds and phases *)

Definition isRoundComplete (room : Room.t) : bool :=
  let activePlayers := filter (fun p => negb (Player.folded p)) (Room.players room) in
  if (List.length activePlayers <=? 1)%nat then true
  else
    let playingPlayers := filter (fun p => negb (Player.allIn p)) activePlayers in
    if (List.length playingPlayers <=? 1)%nat then true
    else
      let playersNeedingAction :=
        filter (fun p =>
                  let hasActed := includesId (Room.playersActedThisRound room) (Player.id p) in
                  let needsToMatchBet :=
                    (Room.currentBet room >? 0) && (Player.bet p <? Room.currentBet room) in
                  negb hasActed || needsToMatchBet)
               playingPlayers in
      (List.length playersNeedingAction =? 0)%nat.

(** [communityCards.push(deck.pop(), ...)] after a burnt card; [count] is
    the number of cards pushed. *)
Fixpoint popN (count : nat) (deck : list Card) : list Card * list Card :=
  match count with
  | O => ([], deck)
  | S count' =>
      match pop deck with
      | Some (card, deck1) =>
          let (cards, deck2) := popN count' deck1 in (card :: cards, deck2)
      | None => ([], deck)
      end
  end.

Definition burnAndDeal (count : nat) (room : Room.t) : Room.t :=
  match pop (Room.deck room) with
  | None => room
  | Some (_, deck1) =>
      let (cards, deck2) := popN count deck1 in
      Room.set_communityCards (Room.communityCards room ++ cards) (Room.set_deck deck2 room)
  end.

Definition dealFlop (room : Room.t) : Room.t :=
  if (4 <=? List.length (Room.deck room))%nat then burnAndDeal 3 room else room.

Definition dealTurn (room : Room.t) : Room.t :=
  if (2 <=? List.length (Room.deck room))%nat then burnAndDeal 1 room else room.

Definition dealRiver (room : Room.t) : Room.t :=
  if (2 <=? List.length (Room.deck room))%nat then burnAndDeal 1 room else room.

(** ** PokerGameEngine: showdown *)

Record ShowdownEntry : Type := mkEntry {
  playerId : string;
  entryHand : list Card;
  handValue : HandResult;
  entryScore : Z
}.

Inductive ShowdownResult : Type :=
  | single_winner (winner : string) (winAmount : Z)
  | showdown_result (results : list ShowdownEntry) (winners : list (string * Z)).

(** [activePlayers.map(player => ...)]: evaluate every hand still in. *)
Fixpoint evaluateAll (communityCards : list Card) (activePlayers : list Player.t)
    : outcome (list ShowdownEntry) :=
  match activePlayers with
  | [] => Ok []
  | player :: rest =>
      match evaluateHand (Player.hand player) communityCards with
      | Throw msg => Throw msg
      | Ok None => typeError
      | Ok (Some hv) =>
          entries <- evaluateAll communityCards rest ;;
          Ok (mkEntry (Player.id player) (Player.hand player) hv (HandResult.score hv)
              :: entries)
      end
  end.

(** [winners.map((winner, index) => ...)]: pay the winners one after the
    other, each found again by id. *)
Fixpoint payWinners (room : Room.t) (winAmount remainder : Z) (index : nat)
    (winners : list ShowdownEntry) : Eng (list (string * Z)) :=
  match winners with
  | [] => (room, Ok [])
  | winner :: rest =>
      match findPlayer (hasId (playerId winner)) (Room.players room) with
      | None => (room, typeError)
      | Some (i, player) =>
          let amount := winAmount + (if Z.of_nat index <? remainder then 1 else 0) in
          let player1 := Player.set_chips (Player.chips player + amount) player in
          let room1 := Room.set_players (replaceAt i player1 (Room.players room)) room in
          ebind (payWinners room1 winAmount remainder (S index) rest) (fun room2 paid =>
          (room2, Ok ((playerId winner, amount) :: paid)))
      end
  end.

(** [Math.floor(pot / n)] and [pot % n]; with no winner the source divides
    by zero and never uses the quotient. *)
Definition processShowdown (room : Room.t) : Eng ShowdownResult :=
  let activePlayers := filter (fun p => negb (Player.folded p)) (Room.players room) in
  if (List.length activePlayers =? 1)%nat then
    match findPlayer (fun p => negb (Player.folded p)) (Room.players room) with
    | None => (room, typeError)
    | Some (i, winner) =>
        let winner1 := Player.set_chips (Player.chips winner + Room.pot room) winner in
        (Room.set_players (replaceAt i winner1 (Room.players room)) room,
         Ok (single_winner (Player.id winner) (Room.pot room)))
    end
  else
    match evaluateAll (Room.communityCards room) activePlayers with
    | Throw msg => (room, Throw msg)
    | Ok evaluatedHands =>
        let results := sortBy (fun a b => entryScore b <=? entryScore a) evaluatedHands in
        let winners :=
          match results with
          | [] => []
          | best :: _ => filter (fun r => entryScore r =? entryScore best) results
          end in
        let winAmount := Room.pot room / Z.of_nat (List.length winners) in
        let remainder := Z.rem (Room.pot room) (Z.of_nat (List.length winners)) in
        ebind (payWinners room winAmount remainder 0%nat winners) (fun room1 paid =>
        (room1, Ok (showdown_result results paid)))
    end.

Definition moveToNextPhase (room : Room.t) : Eng (option ShowdownResult) :=
  let resetRound (room0 : Room.t) : Eng (option ShowdownResult) :=
    let room1 := Room.set_currentBet 0 room0 in
    let room2 := Room.set_lastRaiser None room1 in
    let room3 := Room.set_playersActedThisRound [] room2 in
    let room4 := Room.set_players (map (Player.set_bet 0) (Room.players room3)) room3 in
    ebind (setFirstPlayerPostFlop room4) (fun room5 _ => (room5, Ok None)) in
  match Room.phase room with
  | preflop => resetRound (Room.set_phase flop (dealFlop room))
  | flop => resetRound (Room.set_phase turn (dealTurn room))
  | turn => resetRound (Room.set_phase river (dealRiver room))
  | river =>
      ebind (processShowdown (Room.set_phase showdown room)) (fun room1 result =>
      (room1, Ok (Some result)))
  | _ => resetRound room
  end.

(** ** PokerRoomManager *)

Definition moveToNextPlayer (room : Room.t) : Room.t :=
  let activePlayers :=
    filter (fun p => negb (Player.folded p) && negb (Player.allIn p) && Player.connected p)
           (Room.players room) in
  if (List.length activePlayers <=? 1)%nat then
    Room.set_currentTurn (match activePlayers with
                          | [p] => Some (Player.id p)
                          | _ => None
                          end) room
  else
    match findIndex (fun p => idIs (Room.currentTurn room) (Player.id p)) activePlayers with
    | None => Room.set_currentTurn (option_map Player.id (hd_error activePlayers)) room
    | Some currentIndex =>
        let nextIndex := ((currentIndex + 1) mod List.length activePlayers)%nat in
        Room.set_currentTurn (option_map Player.id (nth_error activePlayers nextIndex)) room
    end.

(** The room as it is sent to subscribers.  [{ ...room }] copies every
    field of the room; only [players] is replaced, and only outside the
    showdown, by players whose hand cards are [{ hidden: true }]. *)
Inductive ViewCard : Type :=
  | shown (card : Card)
  | hidden.

Module PlayerView.
Record t : Type := mk {
  id : string;
  username : string;
  chips : Z;
  bet : Z;
  status : string;
  hand : list ViewCard;
  folded : bool;
  allIn : bool;
  connected : bool
}.
End PlayerView.

Module RoomView.
Record t : Type := mk {
  id : string;
  name : string;
  creator : string;
  players : list PlayerView.t;
  maxPlayers : nat;
  minBet : Z;
  maxBet : Z;
  status : string;
  phase : Phase;
  pot : Z;
  currentBet : Z;
  currentTurn : option string;
  lastRaiser : option string;
  deck : list Card;
  communityCards : list Card;
  dealerIndex : nat;
  smallBlind : option string;
  bigBlind : option string;
  playersActedThisRound : list string
}.
End RoomView.

Definition viewPlayer (hide : bool) (p : Player.t) : PlayerView.t :=
  PlayerView.mk (Player.id p) (Player.username p) (Player.chips p) (Player.bet p)
                (Player.status p)
                (if hide then map (fun _ => hidden) (Player.hand p)
                 else map shown (Player.hand p))
                (Player.folded p) (Player.allIn p) (Player.connected p).

Definition sanitizeRoomForBroadcast (room : Room.t) : RoomView.t :=
  let hide := negb (Phase_eqb (Room.phase room) showdown) in
  RoomView.mk (Room.id room) (Room.name room) (Room.creator room)
              (map (viewPlayer hide) (Room.players room))
              (Room.maxPlayers room) (Room.minBet room) (Room.maxBet room)
              (Room.status room) (Room.phase room) (Room.pot room)
              (Room.currentBet room) (Room.currentTurn room) (Room.lastRaiser room)
              (Room.deck room) (Room.communityCards room) (Room.dealerIndex room)
              (Room.smallBlind room) (Room.bigBlind room)
              (Room.playersActedThisRound room).

(** ** Vocabulary of the action properties, and example rooms *)

Definition knownActions : list string := ["fold"; "check"; "call"; "bet"; "raise"; "allin"].

(** The precondition violations of an action sent by [pid]. *)
Inductive violation (room : Room.t) (pid action : string) (amount : Z) : Prop :=
  | not_your_turn :
      idIs (Room.currentTurn room) pid = false -> violation room pid action amount
  | seat_folded i p :
      findPlayer (hasId pid) (Room.players room) = Some (i, p) ->
      Player.folded p = true -> violation room pid action amount
  | check_facing_bet i p :
      findPlayer (hasId pid) (Room.players room) = Some (i, p) ->
      action = "check" -> Player.bet p < Room.currentBet room ->
      violation room pid action amount
  | bet_below_minimum :
      action = "bet" -> amount < Room.minBet room -> violation room pid action amount
  | bet_above_chips i p :
      findPlayer (hasId pid) (Room.players room) = Some (i, p) ->
      action = "bet" -> Player.chips p < amount -> violation room pid action amount
  | bet_facing_bet :
      action = "bet" -> 0 < Room.currentBet room -> violation room pid action amount
  | raise_above_chips i p :
      findPlayer (hasId pid) (Room.players room) = Some (i, p) ->
      action = "raise" ->
      Player.chips p + Player.bet p < Room.currentBet room + amount ->
      violation room pid action amount
  | unknown_action :
      ~ In action knownActions -> violation room pid action amount.

Definition seat (id : string) (chips bet : Z) (hand : list Card) (folded allIn : bool)
    : Player.t :=
  Player.mk id id chips bet "active" hand folded allIn true.

(** Scenario 6: P1 on turn with nothing committed, facing a bet of 10. *)
Definition scenario6 : Room.t :=
  Room.mk "room" "table" "P1"
          [seat "P1" 1000 0 [] false false; seat "P2" 990 10 [] false false]
          6 10 1000 "playing" preflop 10 10 (Some "P1") (Some "P2")
          [] [] 0%nat (Some "P1") (Some "P2") [].

(** A room for the raise: P1 on turn with 990 chips behind a bet of 10
    that it has already matched. *)
Definition raiseRoom : Room.t :=
  Room.mk "room" "table" "P1"
          [seat "P1" 990 10 [] false false; seat "P2" 990 10 [] false false]
          6 10 1000 "playing" preflop 20 10 (Some "P1") (Some "P2")
          [] [] 0%nat (Some "P1") (Some "P2") [].

(** A short stack facing a bet: P1 holds 40 chips and has 10 in, the bet
    is 100 and P2 and P3 have acted. *)
Definition shortStackRoom : Room.t :=
  Room.mk "room" "table" "P1"
          [seat "P1" 40 10 [] false false; seat "P2" 100 100 [] false false;
           seat "P3" 100 100 [] false false]
          6 10 1000 "playing" flop 210 100 (Some "P1") (Some "P2")
          [] [] 2%nat (Some "P1") (Some "P2") ["P2"; "P3"].

(** Two rooms in the first betting round that differ in their deck only. *)
Definition deckRoom (deck : list Card) : Room.t :=
  Room.mk "room" "table" "P1"
          [seat "P1" 995 5 [c RA spades; c RK spades] false false;
           seat "P2" 990 10 [c R7 hearts; c R2 clubs] false false]
          6 10 1000 "playing" preflop 15 10 (Some "P1") (Some "P2")
          deck [] 0%nat (Some "P1") (Some "P2") [].

(** ** Events

    What the room manager applies to a room, one call at a time.  The room
    after an event is the room as the call left it, whether it returned or
    threw. *)
Inductive Event : Type :=
  | AddPlayer (id username : string)
  | RemovePlayer (id : string)
  | StartNewHand (rand : nat -> nat)
  | PlayerAction (id action : string) (amount : Z)
  | NextPlayer
  | NextPhase
  | Showdown.

Definition applyEvent (room : Room.t) (e : Event) : Room.t :=
  match e with
  | AddPlayer id username => fst (addPlayerToRoom room id username)
  | RemovePlayer id => fst (removePlayerFromRoom room id)
  | StartNewHand rand => fst (startNewHand rand room)
  | PlayerAction id action amount => fst (processPlayerAction room id action amount)
  | NextPlayer => moveToNextPlayer room
  | NextPhase => fst (moveToNextPhase room)
  | Showdown => fst (processShowdown room)
  end.

Definition run (events : list Event) (room : Room.t) : Room.t :=
  fold_left applyEvent events room.

Definition rand0 : nat -> nat := fun _ => 0%nat.

(** Scenario 1: P1, P2 and P3 sit down with 1000 chips at a table with a
    minimum bet of 10, a hand starts, P1 and P2 fold, P3 takes the pot,
    and the next hand starts. *)
Definition scenario1_firstHand : Room.t :=
  run [AddPlayer "P1" "P1"; AddPlayer "P2" "P2"; AddPlayer "P3" "P3"; StartNewHand rand0]
      (createInitialGameState "room" "table" "P1" 6 10 1000).

Definition scenario1_handOver : Room.t :=
  run [PlayerAction "P1" "fold" 0; NextPlayer; PlayerAction "P2" "fold" 0; Showdown]
      scenario1_firstHand.

Definition scenario1_secondHand : Room.t :=
  run [StartNewHand rand0] scenario1_handOver.

Definition chipsOf (room : Room.t) : list (string * Z) :=
  map (fun p => (Player.id p, Player.chips p)) (Room.players room).

(** What an entry of [results] says about a seat. *)
Definition entryOf (communityCards : list Card) (p : Player.t) (e : ShowdownEntry) : Prop :=
  playerId e = Player.id p /\
  scoreOf (evaluateHand (Player.hand p) communityCards) = Some (entryScore e).

Definition byScoreDesc (a b : ShowdownEntry) : bool := entryScore b <=? entryScore a.

(** After the sort the first entry has the highest score. *)
Definition headIsBest (results : list ShowdownEntry) : Prop :=
  match results with
  | [] => True
  | best :: _ => forall e, In e results -> entryScore e <= entryScore best
  end.

Definition sumZ (l : list Z) : Z := fold_right Z.add 0 l.

Definition totalChips (room : Room.t) : Z := sumZ (map Player.chips (Room.players room)).

(** The share of the winner at position [index]. *)
Definition share (winAmount remainder : Z) (index : nat) : Z :=
  winAmount + (if Z.of_nat index <? remainder then 1 else 0).

Definition nonFolded (p : Player.t) : bool := negb (Player.folded p).

(** [room.players.find(p => p.id === winner.playerId)]: an amount of the
    [winners] list is added to the first seat that carries its id. *)
Definition paidToSeat (players : list Player.t) (seatIndex : nat) (e : string * Z) : bool :=
  match findIndex (hasId (fst e)) players with
  | Some i => (i =? seatIndex)%nat
  | None => false
  end.

(** What the seat at [seatIndex] receives from the [winners] list. *)
Definition winnings (players : list Player.t) (seatIndex : nat) (paid : list (string * Z)) : Z :=
  sumZ (map snd (filter (paidToSeat players seatIndex) paid)).

(** Scenario 3.  P1 (50 chips) has posted the small blind of 5 and P2 (200)
    the big blind of 10; P3 (200) is the dealer.  The deck is stacked so
    that the board comes 2c 7d 9h Js 3d; P1 holds aces, P2 kings and P3
    queens. *)
Definition scenario3_blinds : Room.t :=
  Room.mk "room" "table" "P1"
          [seat "P1" 45 5 [c RA spades; c RA diamonds] false false;
           seat "P2" 190 10 [c RK spades; c RK diamonds] false false;
           seat "P3" 200 0 [c RQ spades; c RQ diamonds] false false]
          6 10 1000 "playing" preflop 15 10 (Some "P3") (Some "P2")
          [c R3 diamonds; c R4 clubs; c RJ spades; c R5 clubs;
           c R9 hearts; c R7 diamonds; c R2 clubs; c R6 clubs]
          [] 2%nat (Some "P1") (Some "P2") [].

(** All call 10 before the flop; on the flop P1 goes all-in for 40, P2
    calls, P3 raises to 100 and P2 calls; the turn and the river are
    checked.  P1 has put in 50, P2 and P3 110 each. *)
Definition scenario3_river : Room.t :=
  run [PlayerAction "P3" "call" 0; NextPlayer;
       PlayerAction "P1" "call" 0; NextPlayer;
       PlayerAction "P2" "check" 0; NextPhase;
       PlayerAction "P1" "allin" 0; NextPlayer;
       PlayerAction "P2" "call" 0; NextPlayer;
       PlayerAction "P3" "raise" 60; NextPlayer;
       PlayerAction "P2" "call" 0; NextPhase;
       PlayerAction "P2" "check" 0; NextPlayer;
       PlayerAction "P3" "check" 0; NextPhase;
       PlayerAction "P2" "check" 0; NextPlayer;
       PlayerAction "P3" "check" 0]
      scenario3_blinds.

(** The hand after Scenario 3: P1 went all-in and has no chips left when
    the next hand is started from the room as the river left it. *)
Definition scenario3_nextHand : Room.t := fst (startNewHand rand0 scenario3_river).

(** A table created with a negative minimum bet: the blinds, a raise by
    the minimum and a fold, then the showdown. *)
Definition negativeStakes : Room.t :=
  run [AddPlayer "P1" "P1"; AddPlayer "P2" "P2"; StartNewHand rand0;
       PlayerAction "P1" "raise" (-2000); NextPlayer;
       PlayerAction "P2" "fold" 0; Showdown]
      (createInitialGameState "room" "table" "P1" 6 (-2000) 1000).

Definition paidOf (r : Eng ShowdownResult) : list (string * Z) :=
  match r with
  | (_, Ok (showdown_result _ paid)) => paid
  | (_, Ok (single_winner winner winAmount)) => [(winner, winAmount)]
  | _ => []
  end.

(** ** The chip invariant *)

(** A seat is sound for the stakes [(cb, mb)] of the room when its chips
    are not negative and its round bet is at most the current bet plus the
    minimum bet (so that a legal raise never gives chips back). *)
Definition good (cb mb : Z) (p : Player.t) : Prop :=
  0 <= Player.chips p /\ Player.bet p <= cb + mb.

Definition Inv (room : Room.t) : Prop :=
  Forall (good (Room.currentBet room) (Room.minBet room)) (Room.players room) /\
  0 <= Room.pot room /\
  0 <= Room.currentBet room /\
  0 <= Room.minBet room.

(** ** Vocabulary of the further properties *)

(** The part of the room that belongs to the deal and to the turn: an
    action of a player reads it and leaves it alone. *)
Definition dealtState (room : Room.t)
    : Phase * list Card * list Card * nat * option string * option string * option string :=
  (Room.phase room, Room.deck room, Room.communityCards room, Room.dealerIndex room,
   Room.smallBlind room, Room.bigBlind room, Room.currentTurn room).

(** Two rooms with the same seats: the same player ids in the same order,
    and the same seat limit. *)
Definition sameSeating (room room' : Room.t) : Prop :=
  map Player.id (Room.players room') = map Player.id (Room.players room) /\
  Room.maxPlayers room' = Room.maxPlayers room.

(** One seat per player id, and no more seats than the room allows. *)
Definition seated (room : Room.t) : Prop :=
  NoDup (map Player.id (Room.players room)) /\
  (List.length (Room.players room) <= Room.maxPlayers room)%nat.

(** Every card the room holds: the deck, the board and the hole cards. *)
Definition cardsInPlay (room : Room.t) : list Card :=
  Room.deck room ++ Room.communityCards room ++ flat_map Player.hand (Room.players room).

(** The number of board cards that belongs to a phase. *)
Definition boardSize (phase : Phase) : nat :=
  match phase with
  | waiting | preflop => 0
  | flop => 3
  | turn => 4
  | river | showdown => 5
  end.

(** Two rooms in the same phase with the same deck, the same board and the
    same hole cards seat by seat. *)
Definition sameDeal (room room' : Room.t) : Prop :=
  Room.phase room' = Room.phase room /\
  Room.deck room' = Room.deck room /\
  Room.communityCards room' = Room.communityCards room /\
  map Player.hand (Room.players room') = map Player.hand (Room.players room).

(** The cards the rest of a hand still takes from the deck: a burnt card
    before the three of the flop, before the turn and before the river. *)
Definition deckReserve (phase : Phase) : nat :=
  match phase with
  | preflop => 8
  | flop => 4
  | turn => 2
  | _ => 0
  end.

(** The board has the size of its phase and the deck can still serve the
    phases to come. *)
Definition boardInStep (room : Room.t) : Prop :=
  List.length (Room.communityCards room) = boardSize (Room.phase room) /\
  (deckReserve (Room.phase room) <= List.length (Room.deck room))%nat.

(** A seat that [moveToNextPlayer] may give the turn to. *)
Definition canAct (p : Player.t) : bool :=
  negb (Player.folded p) && negb (Player.allIn p) && Player.connected p.

(** ** PokerRoomManager: the state of the game after an action *)

(** The object returned by [checkGameState]: [{ gameEnded: true, reason }],
    [{ roundComplete: true }] or [{ gameEnded: false, roundComplete: false }]. *)
Inductive GameState : Type :=
  | gameEnded (reason : string)
  | roundComplete
  | gameGoesOn.

Definition checkGameState (room : Room.t) : GameState :=
  let activePlayers :=
    filter (fun p => negb (Player.folded p) && Player.connected p) (Room.players room) in
  if (List.length activePlayers <=? 1)%nat then gameEnded "single_player"
  else
    let playingPlayers := filter (fun p => negb (Player.allIn p)) activePlayers in
    if (List.length playingPlayers <=? 1)%nat && (1 <? List.length activePlayers)%nat
    then gameEnded "all_in"
    else if isRoundComplete room then roundComplete
    else gameGoesOn.

(** A seat that still bets: neither folded nor all-in. *)
Definition stillBetting (p : Player.t) : bool :=
  negb (Player.folded p) && negb (Player.allIn p).

(** Five consecutive values topped by [top] occur among [values]. *)
Definition hasRun (values : list Z) (top : Z) : Prop :=
  In top values /\ In (top - 1) values /\ In (top - 2) values /\
  In (top - 3) values /\ In (top - 4) values.

(** Ace, five, four, three and two occur among [values]. *)
Definition hasWheel (values : list Z) : Prop :=
  In 14 values /\ In 5 values /\ In 4 values /\ In 3 values /\ In 2 values.

(** The phase that follows a betting round; the river leads to the
    showdown, which [moveToNextPhase] runs at once. *)
Definition nextStreet (phase : Phase) : Phase :=
  match phase with
  | preflop => flop
  | flop => turn
  | turn => river
  | other => other
  end.

(** * MultiplayerRouletteService: settling a bet

    [calculateBetResult] is the pure part of the roulette service.  A bet
    carries its type (a string), its value and its amount; the value is
    whatever the client sent, and only a number ([Some]) can be strictly
    equal to the winning number.  The winning number is drawn as
    [Math.floor(Math.random() * 37)]. *)

Module Bet.
Record t : Type := mk {
  type : string;
  value : option Z;
  amount : Z
}.
End Bet.

Module BetResult.
Record t : Type := mk {
  win : bool;
  winAmount : Z
}.
End BetResult.

Definition redNumbers : list Z :=
  [1; 3; 5; 7; 9; 12; 14; 16; 18; 19; 21; 23; 25; 27; 30; 32; 34; 36].

Definition blackNumbers : list Z :=
  [2; 4; 6; 8; 10; 11; 13; 15; 17; 20; 22; 24; 26; 28; 29; 31; 33; 35].

(** [win] and [multiplier] after the [switch (bet.type)]; [%] is the
    remainder of the truncating division. *)
Definition winAndMultiplier (bet : Bet.t) (winningNumber : Z) : bool * Z :=
  if String.eqb (Bet.type bet) "number" then
    let win := match Bet.value bet with
               | Some v => v =? winningNumber
               | None => false
               end in
    (win, if win then 35 else 0)
  else if String.eqb (Bet.type bet) "red" then
    let win := includes redNumbers winningNumber in (win, if win then 1 else 0)
  else if String.eqb (Bet.type bet) "black" then
    let win := includes blackNumbers winningNumber in (win, if win then 1 else 0)
  else if String.eqb (Bet.type bet) "even" then
    let win := (winningNumber >? 0) && (Z.rem winningNumber 2 =? 0) in
    (win, if win then 1 else 0)
  else if String.eqb (Bet.type bet) "odd" then
    let win := Z.rem winningNumber 2 =? 1 in (win, if win then 1 else 0)
  else if String.eqb (Bet.type bet) "1-18" then
    let win := (1 <=? winningNumber) && (winningNumber <=? 18) in
    (win, if win then 1 else 0)
  else if String.eqb (Bet.type bet) "19-36" then
    let win := (19 <=? winningNumber) && (winningNumber <=? 36) in
    (win, if win then 1 else 0)
  else (false, 0).

Definition calculateBetResult (bet : Bet.t) (winningNumber : Z) : BetResult.t :=
  let (win, multiplier) := winAndMultiplier bet winningNumber in
  BetResult.mk win (if win then Bet.amount bet * multiplier else 0).

(** The numbers [Math.floor(Math.random() * 37)] can give: 0 to 36. *)
Definition wheel : list Z := map Z.of_nat (seq 0 37).

(** The bet types that are not on a single number. *)
Definition outsideBets : list string := ["red"; "black"; "even"; "odd"; "1-18"; "19-36"].

(** Whether a bet of type [type] wins on [winningNumber]; for the outside
    bets neither the value nor the amount matters. *)
Definition wins (type : string) (winningNumber : Z) : bool :=
  BetResult.win (calculateBetResult (Bet.mk type None 1) winningNumber).

(** * Part II: lemmas and theorems *)

Lemma getRankValue_inj (a b : Rank) : getRankValue a = getRankValue b -> a = b.
Proof. destruct a, b; simpl; intros H; try reflexivity; discriminate H. Qed.

Lemma Rank_eqb_eq (a b : Rank) : Rank_eqb a b = true <-> a = b.
Proof.
  unfold Rank_eqb. rewrite Z.eqb_eq. split.
  - apply getRankValue_inj.
  - intros ->. reflexivity.
Qed.

Lemma Suit_eqb_eq (a b : Suit) : Suit_eqb a b = true <-> a = b.
Proof. destruct a, b; simpl; split; intros H; try reflexivity; discriminate H. Qed.

Lemma getRankValue_range (r : Rank) : 2 <= getRankValue r <= 14.
Proof. destruct r; simpl; lia. Qed.

(** ** Facts about the array helpers *)

Section SortFacts.
Context {A : Type} (before : A -> A -> bool).

Lemma In_insertSorted (x y : A) (l : list A) :
  In y (insertSorted before x l) <-> y = x \/ In y l.
Proof.
  induction l as [|z l IH]; simpl.
  - intuition auto.
  - destruct (before x z); simpl.
    + intuition auto.
    + rewrite IH. intuition auto.
Qed.

Lemma In_sortBy (y : A) (l : list A) : In y (sortBy before l) <-> In y l.
Proof.
  induction l as [|x l IH]; simpl.
  - reflexivity.
  - rewrite In_insertSorted, IH. intuition auto.
Qed.

Lemma filter_length_insertSorted (p : A -> bool) (x : A) (l : list A) :
  List.length (filter p (insertSorted before x l)) = List.length (filter p (x :: l)).
Proof.
  induction l as [|z l IH]; simpl.
  - reflexivity.
  - destruct (before x z); simpl.
    + reflexivity.
    + simpl in IH. destruct (p z), (p x); simpl in *; lia.
Qed.

Lemma filter_length_sortBy (p : A -> bool) (l : list A) :
  List.length (filter p (sortBy before l)) = List.length (filter p l).
Proof.
  induction l as [|x l IH]; simpl.
  - reflexivity.
  - rewrite filter_length_insertSorted. simpl. destruct (p x); simpl; lia.
Qed.

Lemma length_insertSorted (x : A) (l : list A) :
  List.length (insertSorted before x l) = S (List.length l).
Proof.
  induction l as [|z l IH]; simpl.
  - reflexivity.
  - destruct (before x z); simpl; lia.
Qed.

Lemma length_sortBy (l : list A) : List.length (sortBy before l) = List.length l.
Proof.
  induction l as [|x l IH]; simpl.
  - reflexivity.
  - rewrite length_insertSorted. lia.
Qed.
End SortFacts.

Lemma In_dedupe (x : Z) (l : list Z) : In x (dedupe l) <-> In x l.
Proof.
  induction l as [|y l IH]; simpl.
  - reflexivity.
  - rewrite filter_In, IH, negb_true_iff, Z.eqb_neq.
    destruct (Z.eq_dec y x); intuition auto.
Qed.

Lemma includes_In (l : list Z) (v : Z) : includes l v = true <-> In v l.
Proof.
  unfold includes. rewrite existsb_exists. split.
  - intros (x & Hx & E). apply Z.eqb_eq in E. subst. exact Hx.
  - intros H. exists v. split; [exact H | apply Z.eqb_refl].
Qed.

Lemma findByValue_Some (cards : list Card) (v : Z) :
  In v (map value cards) ->
  exists card, findByValue cards v = Some card /\ value card = v.
Proof.
  unfold findByValue. induction cards as [|x cards IH]; simpl.
  - intros [].
  - intros [E | H].
    + rewrite E, Z.eqb_refl. eauto.
    + destruct (value x =? v) eqn:Ev.
      * apply Z.eqb_eq in Ev. eauto.
      * auto.
Qed.

(** The values that [checkStraight] scans are exactly the card values. *)
Lemma In_uniqueValues (cards : list Card) (v : Z) :
  In v (sortBy (fun a b => b <=? a) (dedupe (map value cards))) <-> In v (map value cards).
Proof. rewrite In_sortBy, In_dedupe. reflexivity. Qed.

Lemma isConsecutive_five (a b c d e : Z) :
  isConsecutive [a; b; c; d; e] = true ->
  b = a - 1 /\ c = a - 2 /\ d = a - 3 /\ e = a - 4.
Proof.
  simpl. unfold isConsecutive_step.
  destruct (b =? a - 1) eqn:E1; simpl; [|discriminate].
  destruct (c =? b - 1) eqn:E2; simpl; [|discriminate].
  destruct (d =? c - 1) eqn:E3; simpl; [|discriminate].
  destruct (e =? d - 1) eqn:E4; simpl; [|discriminate].
  intros _. apply Z.eqb_eq in E1, E2, E3, E4. lia.
Qed.

Lemma regularStraight_eq (u : list Z) :
  regularStraight u =
  match u with
  | [] => None
  | _ :: rest =>
      if (5 <=? List.length u)%nat then
        if isConsecutive (slice0 5 u) then Some (slice0 5 u) else regularStraight rest
      else None
  end.
Proof. destruct u; reflexivity. Qed.

(** A window found by the loop is five consecutive values, all taken from
    the scanned array. *)
Lemma regularStraight_Some (u sequence : list Z) :
  regularStraight u = Some sequence ->
  exists top, sequence = [top; top - 1; top - 2; top - 3; top - 4] /\
              forall x, In x sequence -> In x u.
Proof.
  induction u as [|v u IH]; rewrite regularStraight_eq.
  - discriminate.
  - destruct (5 <=? List.length (v :: u))%nat eqn:Hl; [|discriminate].
    destruct (isConsecutive (slice0 5 (v :: u))) eqn:Hc.
    + intros E. injection E as <-.
      destruct u as [|v1 [|v2 [|v3 [|v4 u']]]]; try discriminate Hl.
      change (slice0 5 (v :: v1 :: v2 :: v3 :: v4 :: u')) with [v; v1; v2; v3; v4] in *.
      apply isConsecutive_five in Hc. destruct Hc as (-> & -> & -> & ->).
      exists v. split; [reflexivity|].
      intros x Hx. simpl in Hx. simpl. tauto.
    + intros E. destruct (IH E) as (top & Hs & Hin).
      exists top. split; [exact Hs|]. intros x Hx. right. auto.
Qed.

(** ** Facts about the checks *)

(** A straight that is found always has a first card, and its score is
    4000 plus the value of that card (5 for the wheel). *)
Lemma checkStraight_first (cards : list Card) (r : HandResult) :
  checkStraight cards = Some r ->
  HandResult.name r = "Straight" /\
  exists card rest,
    HandResult.cards r = Some card :: rest /\
    HandResult.score r = 4000 + value card.
Proof.
  unfold checkStraight.
  set (u := sortBy (fun a b => b <=? a) (dedupe (map value cards))).
  destruct (regularStraight u) as [sequence|] eqn:Hreg.
  - intros E. injection E as <-. split; [reflexivity|].
    destruct (regularStraight_Some _ _ Hreg) as (top & -> & Hin).
    assert (Htop : In top (map value cards)).
    { apply In_uniqueValues. apply Hin. left. reflexivity. }
    destruct (findByValue_Some _ _ Htop) as (card & Hf & Hv).
    exists card. eexists. simpl. rewrite Hf, Hv. split; reflexivity.
  - destruct (includes u 14 && includes u 5 && includes u 4 &&
              includes u 3 && includes u 2) eqn:Hw; [|discriminate].
    intros E. injection E as <-. split; [reflexivity|].
    repeat (apply andb_true_iff in Hw; destruct Hw as [Hw ?]).
    assert (H5 : In 5 (map value cards)).
    { apply In_uniqueValues. apply includes_In. assumption. }
    destruct (findByValue_Some _ _ H5) as (card & Hf & Hv).
    exists card. eexists. simpl. rewrite Hf, Hv. split; reflexivity.
Qed.

Lemma checkStraightFlush_Ok (cards : list Card) :
  exists o, checkStraightFlush cards = Ok o /\
    forall r, o = Some r ->
      HandResult.name r = "Straight Flush" /\
      exists card rest, HandResult.cards r = Some card :: rest.
Proof.
  unfold checkStraightFlush.
  destruct (flushCards cards) as [flushed|].
  - destruct (checkStraight flushed) as [straight|] eqn:Hs.
    + destruct (checkStraight_first _ _ Hs) as (_ & card & rest & Hc & _).
      rewrite Hc. simpl. eexists. split; [reflexivity|].
      intros r E. injection E as <-. simpl. eauto.
    + exists None. split; [reflexivity|]. discriminate.
  - exists None. split; [reflexivity|]. discriminate.
Qed.

Lemma checkRoyalFlush_Ok (cards : list Card) :
  exists o, checkRoyalFlush cards = Ok o /\
    forall r, o = Some r -> HandResult.name r = "Royal Flush".
Proof.
  unfold checkRoyalFlush.
  destruct (checkStraightFlush_Ok cards) as (o & -> & Ho). simpl.
  destruct o as [sf|].
  - destruct (Ho sf eq_refl) as (_ & card & rest & Hc). rewrite Hc. simpl.
    destruct (value card =? 14).
    + eexists. split; [reflexivity|]. intros r E. injection E as <-. reflexivity.
    + exists None. split; [reflexivity|]. discriminate.
  - exists None. split; [reflexivity|]. discriminate.
Qed.

Lemma checkFourOfAKind_name (cards : list Card) (r : HandResult) :
  checkFourOfAKind cards = Some r -> HandResult.name r = "Four of a Kind".
Proof.
  unfold checkFourOfAKind.
  destruct (find _ _) as [[k g]|]; [|discriminate].
  intros E. injection E as <-. reflexivity.
Qed.

Lemma checkFullHouse_name (cards : list Card) (r : HandResult) :
  checkFullHouse cards = Some r -> HandResult.name r = "Full House".
Proof.
  unfold checkFullHouse.
  destruct (find _ _) as [[k g]|]; [|discriminate].
  destruct (find _ _) as [[k' g']|]; [|discriminate].
  intros E. injection E as <-. reflexivity.
Qed.

Lemma checkFlush_name (cards : list Card) (r : HandResult) :
  checkFlush cards = Some r -> HandResult.name r = "Flush".
Proof.
  unfold checkFlush. destruct (flushCards cards); [|discriminate].
  intros E. injection E as <-. reflexivity.
Qed.

Lemma checkThreeOfAKind_name (cards : list Card) (r : HandResult) :
  checkThreeOfAKind cards = Some r -> HandResult.name r = "Three of a Kind".
Proof.
  unfold checkThreeOfAKind.
  destruct (find _ _) as [[k g]|]; [|discriminate].
  intros E. injection E as <-. reflexivity.
Qed.

Lemma checkTwoPair_name (cards : list Card) (r : HandResult) :
  checkTwoPair cards = Some r -> HandResult.name r = "Two Pair".
Proof.
  unfold checkTwoPair.
  destruct (_ <? 2)%nat; [discriminate|].
  destruct (sortBy _ _) as [|[k1 g1] [|[k2 g2] rest]]; try discriminate.
  intros E. injection E as <-. reflexivity.
Qed.

Lemma checkPair_name (cards : list Card) (r : HandResult) :
  checkPair cards = Some r -> HandResult.name r = "Pair".
Proof.
  unfold checkPair.
  destruct (find _ _) as [[k g]|]; [|discriminate].
  intros E. injection E as <-. reflexivity.
Qed.

Lemma checkHighCard_Some (cards : list Card) :
  exists r, checkHighCard cards = Some r /\ HandResult.name r = "High Card".
Proof. unfold checkHighCard. eexists. split; reflexivity. Qed.

Lemma evaluateHand_chain (playerHand communityCards : list Card) :
  (5 <= List.length (playerHand ++ communityCards))%nat ->
  exists r,
    evaluateHand playerHand communityCards = Ok (Some r) /\
    evaluated (sortBy (fun a b => value b <=? value a) (playerHand ++ communityCards)) r.
Proof.
  intros Hlen. unfold evaluateHand.
  destruct (List.length (playerHand ++ communityCards) <? 5)%nat eqn:Hlt.
  { apply Nat.ltb_lt in Hlt. lia. }
  set (s := sortBy _ _).
  destruct (checkRoyalFlush_Ok s) as (o1 & E1 & _).
  destruct (checkStraightFlush_Ok s) as (o2 & E2 & _).
  rewrite E1, E2.
  destruct o1 as [r1|]; [exists r1; split; [reflexivity | apply ev_royal; exact E1]|].
  destruct o2 as [r2|]; [exists r2; split; [reflexivity | apply ev_straightFlush; exact E2]|].
  destruct (checkFourOfAKind s) as [r|] eqn:E3;
    [exists r; split; [reflexivity | apply ev_four; exact E3]|].
  destruct (checkFullHouse s) as [r|] eqn:E4;
    [exists r; split; [reflexivity | apply ev_fullHouse; exact E4]|].
  destruct (checkFlush s) as [r|] eqn:E5;
    [exists r; split; [reflexivity | apply ev_flush; exact E5]|].
  destruct (checkStraight s) as [r|] eqn:E6;
    [exists r; split; [reflexivity | apply ev_straight; exact E6]|].
  destruct (checkThreeOfAKind s) as [r|] eqn:E7;
    [exists r; split; [reflexivity | apply ev_three; exact E7]|].
  destruct (checkTwoPair s) as [r|] eqn:E8;
    [exists r; split; [reflexivity | apply ev_twoPair; exact E8]|].
  destruct (checkPair s) as [r|] eqn:E9;
    [exists r; split; [reflexivity | apply ev_pair; exact E9]|].
  destruct (checkHighCard_Some s) as (r & E10 & _).
  exists r. rewrite E10. split; [reflexivity | apply ev_highCard; exact E10].
Qed.

Lemma evaluated_name (cs : list Card) (r : HandResult) :
  evaluated cs r -> In (HandResult.name r) categoryNames.
Proof.
  intros [H|H|H|H|H|H|H|H|H|H].
  - destruct (checkRoyalFlush_Ok cs) as (o & E & Hn). rewrite E in H.
    injection H as ->. rewrite (Hn r eq_refl). simpl. tauto.
  - destruct (checkStraightFlush_Ok cs) as (o & E & Hn). rewrite E in H.
    injection H as ->. destruct (Hn r eq_refl) as [-> _]. simpl. tauto.
  - rewrite (checkFourOfAKind_name _ _ H). simpl. tauto.
  - rewrite (checkFullHouse_name _ _ H). simpl. tauto.
  - rewrite (checkFlush_name _ _ H). simpl. tauto.
  - destruct (checkStraight_first _ _ H) as [-> _]. simpl. tauto.
  - rewrite (checkThreeOfAKind_name _ _ H). simpl. tauto.
  - rewrite (checkTwoPair_name _ _ H). simpl. tauto.
  - rewrite (checkPair_name _ _ H). simpl. tauto.
  - destruct (checkHighCard_Some cs) as (r' & E & Hn). rewrite E in H.
    injection H as <-. rewrite Hn. simpl. tauto.
Qed.

(** ** Facts about grouping *)

Section GroupFacts.
Context {K : Type} (eqb : K -> K -> bool) (key : Card -> K).
Hypothesis eqb_eq : forall a b, eqb a b = true <-> a = b.

Lemma pushGroup_keys (k0 : K) (c0 : Card) (groups : list (K * Group)) :
  map fst (pushGroup eqb k0 c0 groups) =
  if existsb (eqb k0) (map fst groups) then map fst groups else map fst groups ++ [k0].
Proof.
  induction groups as [|[k g] groups IH]; simpl.
  - reflexivity.
  - destruct (eqb k0 k); simpl.
    + reflexivity.
    + rewrite IH. destruct (existsb (eqb k0) (map fst groups)); reflexivity.
Qed.

Lemma existsb_eqb_In (k0 : K) (ks : list K) : existsb (eqb k0) ks = true <-> In k0 ks.
Proof.
  rewrite existsb_exists. split.
  - intros (x & Hx & E). apply eqb_eq in E. subst. exact Hx.
  - intros H. exists k0. split; [exact H | apply eqb_eq; reflexivity].
Qed.

Lemma pushGroup_In (k0 : K) (c0 : Card) (groups : list (K * Group)) (k : K) (g : Group) :
  NoDup (map fst groups) ->
  In (k, g) (pushGroup eqb k0 c0 groups) ->
  (k <> k0 /\ In (k, g) groups) \/
  (k = k0 /\ exists g0, In (k0, g0) groups /\ g = (fst g0, snd g0 ++ [c0])) \/
  (k = k0 /\ ~ In k0 (map fst groups) /\ g = (c0, [])).
Proof.
  induction groups as [|[k' g'] groups IH]; simpl; intros Hnd Hin.
  - destruct Hin as [E|[]]. injection E as <- <-. right. right. tauto.
  - inversion Hnd as [|? ? Hnotin Hnd']; subst.
    destruct (eqb k0 k') eqn:Ek.
    + apply eqb_eq in Ek. subst k'. destruct Hin as [E|Hin].
      * injection E as <- <-. right. left. split; [reflexivity|].
        exists g'. split; [left; reflexivity | reflexivity].
      * left. split; [|right; exact Hin].
        intros ->. apply Hnotin. apply in_map_iff. exists (k0, g). split; [reflexivity | exact Hin].
    + assert (Hne : k0 <> k').
      { intros ->. assert (eqb k' k' = true) by (apply eqb_eq; reflexivity). congruence. }
      destruct Hin as [E|Hin].
      * injection E as <- <-. left. split; [congruence | left; reflexivity].
      * destruct (IH Hnd' Hin) as [[H1 H2] | [[H1 (g0 & H2 & H3)] | [H1 [H2 H3]]]].
        -- left. split; [exact H1 | right; exact H2].
        -- right. left. split; [exact H1|]. exists g0. split; [right; exact H2 | exact H3].
        -- right. right. split; [exact H1|]. split; [|exact H3].
           intros [E|Hk]; [congruence | exact (H2 Hk)].
Qed.

Lemma grouped_push (pre : list Card) (groups : list (K * Group)) (c0 : Card) :
  grouped eqb key pre groups ->
  grouped eqb key (pre ++ [c0]) (pushGroup eqb (key c0) c0 groups).
Proof.
  intros (G1 & G2 & G3). split; [|split].
  - intros k g Hin. rewrite filter_app. simpl.
    destruct (pushGroup_In _ _ _ _ _ G2 Hin)
      as [[H1 H2] | [[H1 (g0 & H2 & H3)] | [H1 [H2 H3]]]].
    + destruct (eqb (key c0) k) eqn:E.
      * apply eqb_eq in E. congruence.
      * rewrite app_nil_r. apply G1. exact H2.
    + subst k g. assert (E : (eqb (key c0) (key c0)) = true) by (apply eqb_eq; reflexivity).
      rewrite E. rewrite <- (G1 _ _ H2). reflexivity.
    + subst k g. assert (E : (eqb (key c0) (key c0)) = true) by (apply eqb_eq; reflexivity).
      rewrite E.
      assert (Hnil : filter (fun x => eqb (key x) (key c0)) pre = []).
      { destruct (filter _ pre) as [|x l] eqn:Hf; [reflexivity|]. exfalso.
        assert (Hx : In x (filter (fun x => eqb (key x) (key c0)) pre))
          by (rewrite Hf; left; reflexivity).
        apply filter_In in Hx. destruct Hx as [Hx Ex]. apply eqb_eq in Ex.
        apply H2. rewrite <- Ex. apply G3. exact Hx. }
      rewrite Hnil. reflexivity.
  - rewrite pushGroup_keys.
    destruct (existsb (eqb (key c0)) (map fst groups)) eqn:E; [exact G2|].
    apply NoDup_app; [exact G2 | repeat constructor; intros [] |].
    intros a Ha [<-|[]]. apply existsb_eqb_In in Ha. congruence.
  - intros x Hx. rewrite pushGroup_keys. apply in_app_or in Hx.
    destruct (existsb (eqb (key c0)) (map fst groups)) eqn:E.
    + destruct Hx as [Hx|[<-|[]]]; [apply G3; exact Hx | apply existsb_eqb_In; exact E].
    + apply in_or_app. destruct Hx as [Hx|[<-|[]]]; [left; apply G3; exact Hx | right; left; reflexivity].
Qed.

Lemma groupBy_grouped (cards : list Card) : grouped eqb key cards (groupBy eqb key cards).
Proof.
  induction cards as [|c0 pre IH] using rev_ind.
  - split; [intros k g []|]. split; [constructor | intros x []].
  - unfold groupBy. rewrite fold_left_app. simpl. apply grouped_push. exact IH.
Qed.

(** A group holds exactly the cards of its key, in their order. *)
Lemma groupBy_glength (cards : list Card) (k : K) (g : Group) :
  In (k, g) (groupBy eqb key cards) ->
  glength g = List.length (filter (fun x => eqb (key x) k) cards).
Proof.
  intros Hin. destruct (groupBy_grouped cards) as (G1 & _ & _).
  rewrite <- (G1 _ _ Hin). reflexivity.
Qed.
End GroupFacts.

Lemma groupByRank_glength (cards : list Card) (k : Rank) (g : Group) :
  In (k, g) (entriesByRank (groupByRank cards)) -> glength g = countRank k cards.
Proof.
  intros Hin. apply (groupBy_glength Rank_eqb rank Rank_eqb_eq).
  unfold entriesByRank in Hin. apply in_app_or in Hin. destruct Hin as [Hin|Hin].
  - apply In_sortBy in Hin. apply filter_In in Hin. apply Hin.
  - apply filter_In in Hin. apply Hin.
Qed.

Lemma groupBySuit_glength (cards : list Card) (k : Suit) (g : Group) :
  In (k, g) (entriesBySuit (groupBySuit cards)) -> glength g = countSuit k cards.
Proof. intros Hin. apply (groupBy_glength Suit_eqb suit Suit_eqb_eq). exact Hin. Qed.

(** Every card has one of the thirteen ranks. *)
Lemma length_by_rank (cards : list Card) :
  List.length cards =
  (countRank R2 cards + countRank R3 cards + countRank R4 cards + countRank R5 cards +
   countRank R6 cards + countRank R7 cards + countRank R8 cards + countRank R9 cards +
   countRank R10 cards + countRank RJ cards + countRank RQ cards + countRank RK cards +
   countRank RA cards)%nat.
Proof.
  unfold countRank. induction cards as [|[r s] cards IH]; [reflexivity|].
  destruct r; simpl; lia.
Qed.

Lemma countRank_In (r : Rank) (cards : list Card) (x : Card) :
  In x cards -> rank x = r -> (1 <= countRank r cards)%nat.
Proof.
  intros Hin Hr. unfold countRank.
  assert (H : In x (filter (fun y => Rank_eqb (rank y) r) cards)).
  { apply filter_In. split; [exact Hin | apply Rank_eqb_eq; exact Hr]. }
  destruct (filter _ cards); [destruct H | simpl; lia].
Qed.

Lemma In_values_sorted (cards : list Card) (v : Z) :
  In v (map value (sortBy byValueDesc cards)) <-> In v (map value cards).
Proof.
  rewrite !in_map_iff. split; intros (x & E & Hx); exists x; split; auto;
    apply (In_sortBy byValueDesc); exact Hx.
Qed.

Lemma value_in_range (cards : list Card) (v : Z) : In v (map value cards) -> 2 <= v <= 14.
Proof.
  intros H. apply in_map_iff in H. destruct H as (x & <- & _).
  apply getRankValue_range.
Qed.

Lemma containsRank_value (cards : list Card) (r : Rank) :
  containsRank cards r -> In (getRankValue r) (map value cards).
Proof.
  intros (x & Hx & <-). apply in_map_iff. exists x. split; [reflexivity | exact Hx].
Qed.

Lemma flushCards_None (cards : list Card) : noFlush cards -> flushCards cards = None.
Proof.
  intros Hnf. unfold flushCards.
  destruct (find _ _) as [[k g]|] eqn:Hf; [|reflexivity].
  apply find_some in Hf. destruct Hf as [Hin Hlen]. cbv beta iota delta [snd fst] in Hlen.
  apply Nat.leb_le in Hlen. rewrite (groupBySuit_glength _ _ _ Hin) in Hlen.
  specialize (Hnf k). lia.
Qed.

Section Wheel.
Variable cards : list Card.
Hypothesis Hlen : (List.length cards <= 7)%nat.
Hypothesis HA : containsRank cards RA.
Hypothesis H2 : containsRank cards R2.
Hypothesis H3 : containsRank cards R3.
Hypothesis H4 : containsRank cards R4.
Hypothesis H5 : containsRank cards R5.

Let cA : (1 <= countRank RA cards)%nat.
Proof. destruct HA as (x & Hx & Hr). exact (countRank_In _ _ _ Hx Hr). Qed.
Let c2 : (1 <= countRank R2 cards)%nat.
Proof. destruct H2 as (x & Hx & Hr). exact (countRank_In _ _ _ Hx Hr). Qed.
Let c3 : (1 <= countRank R3 cards)%nat.
Proof. destruct H3 as (x & Hx & Hr). exact (countRank_In _ _ _ Hx Hr). Qed.
Let c4 : (1 <= countRank R4 cards)%nat.
Proof. destruct H4 as (x & Hx & Hr). exact (countRank_In _ _ _ Hx Hr). Qed.
Let c5 : (1 <= countRank R5 cards)%nat.
Proof. destruct H5 as (x & Hx & Hr). exact (countRank_In _ _ _ Hx Hr). Qed.

(** With the five wheel ranks among at most seven cards, no rank can
    occur four times. *)
Lemma wheel_no_four : checkFourOfAKind cards = None.
Proof.
  unfold checkFourOfAKind.
  destruct (find _ _) as [[k g]|] eqn:Hf; [|reflexivity]. exfalso.
  apply find_some in Hf. destruct Hf as [Hin Hl]. cbv beta iota delta [snd fst] in Hl.
  apply Nat.eqb_eq in Hl. rewrite (groupByRank_glength _ _ _ Hin) in Hl.
  pose proof (length_by_rank cards) as Hsum.
  pose proof cA; pose proof c2; pose proof c3; pose proof c4; pose proof c5.
  destruct k; lia.
Qed.

(** Nor can three cards of one rank come with a pair of another. *)
Lemma wheel_no_fullHouse : checkFullHouse cards = None.
Proof.
  unfold checkFullHouse. cbv zeta.
  destruct (find (fun e => (glength (snd e) =? 3)%nat) _) as [[k3 g3]|] eqn:Hf3.
  2: reflexivity.
  destruct (find (fun e => (2 <=? _)%nat && _) _) as [[k2 g2]|] eqn:Hf2; [|reflexivity].
  exfalso.
  apply find_some in Hf3. destruct Hf3 as [Hin3 Hl3]. cbv beta iota delta [snd fst] in Hl3.
  apply Nat.eqb_eq in Hl3. rewrite (groupByRank_glength _ _ _ Hin3) in Hl3.
  apply find_some in Hf2. destruct Hf2 as [Hin2 Hl2]. cbv beta iota delta [snd fst] in Hl2.
  apply andb_true_iff in Hl2. destruct Hl2 as [Hl2 Hne].
  apply Nat.leb_le in Hl2. rewrite (groupByRank_glength _ _ _ Hin2) in Hl2.
  apply negb_true_iff in Hne.
  pose proof (length_by_rank cards) as Hsum.
  pose proof cA; pose proof c2; pose proof c3; pose proof c4; pose proof c5.
  destruct k3; destruct k2; try discriminate Hne; lia.
Qed.

Hypothesis Hregular : noHigherStraight cards.

Lemma wheel_straight :
  exists wheelCards card rest,
    checkStraight cards = Some (mkResult "Straight" 4005 wheelCards) /\
    wheelCards = Some card :: rest /\ value card = 5.
Proof.
  unfold checkStraight.
  set (u := sortBy (fun a b => b <=? a) (dedupe (map value cards))).
  destruct (regularStraight u) as [sequence|] eqn:Hreg.
  - exfalso. destruct (regularStraight_Some _ _ Hreg) as (top & -> & Hin).
    assert (Hv : forall x, In x [top; top - 1; top - 2; top - 3; top - 4] ->
                           In x (map value cards)).
    { intros x Hx. apply In_uniqueValues. apply Hin. exact Hx. }
    assert (Hlow : 2 <= top - 4 <= 14).
    { apply (value_in_range cards). apply Hv. simpl. tauto. }
    apply (Hregular top); [lia|].
    repeat split; apply Hv; simpl; tauto.
  - assert (Hinc : forall r, containsRank cards r -> includes u (getRankValue r) = true).
    { intros r Hr. apply includes_In. apply In_uniqueValues.
      apply containsRank_value. exact Hr. }
    pose proof (Hinc RA HA) as IA. change (getRankValue RA) with 14 in IA.
    pose proof (Hinc R5 H5) as I5. change (getRankValue R5) with 5 in I5.
    pose proof (Hinc R4 H4) as I4. change (getRankValue R4) with 4 in I4.
    pose proof (Hinc R3 H3) as I3. change (getRankValue R3) with 3 in I3.
    pose proof (Hinc R2 H2) as I2. change (getRankValue R2) with 2 in I2.
    rewrite IA, I5, I4, I3, I2. simpl andb. cbv iota.
    destruct (findByValue_Some cards 5 (containsRank_value _ _ H5)) as (card & Hf & Hv).
    eexists. exists card. eexists. split; [reflexivity|].
    simpl. rewrite Hf. split; [reflexivity | exact Hv].
Qed.
End Wheel.

(** Sorting keeps what the wheel argument needs. *)
Lemma containsRank_sorted (cards : list Card) (r : Rank) :
  containsRank cards r -> containsRank (sortBy byValueDesc cards) r.
Proof.
  intros (x & Hx & Hr). exists x. split; [apply In_sortBy; exact Hx | exact Hr].
Qed.

Lemma noFlush_sorted (cards : list Card) :
  noFlush cards -> noFlush (sortBy byValueDesc cards).
Proof.
  intros H s. unfold countSuit. rewrite filter_length_sortBy. apply H.
Qed.

Lemma noHigherStraight_sorted (cards : list Card) :
  noHigherStraight cards -> noHigherStraight (sortBy byValueDesc cards).
Proof.
  intros H top Htop Hin. apply (H top Htop).
  rewrite !In_values_sorted in Hin. exact Hin.
Qed.

(** Whatever [evaluateHand] calls a Straight scores 4000 plus its top card. *)
Lemma evaluateHand_Straight (playerHand communityCards : list Card) (r : HandResult) :
  evaluateHand playerHand communityCards = Ok (Some r) ->
  HandResult.name r = "Straight" ->
  exists v, topValue r = Some v /\ HandResult.score r = 4000 + v.
Proof.
  intros Hev Hname.
  destruct (Nat.lt_ge_cases (List.length (playerHand ++ communityCards)) 5) as [Hlt|Hge].
  - unfold evaluateHand in Hev. apply Nat.ltb_lt in Hlt. rewrite Hlt in Hev.
    injection Hev as <-. discriminate Hname.
  - destruct (evaluateHand_chain _ _ Hge) as (r0 & E & Hchain).
    rewrite E in Hev. injection Hev as ->.
    destruct Hchain as [H|H|H|H|H|H|H|H|H|H].
    + destruct (checkRoyalFlush_Ok (sortBy (fun a b => value b <=? value a)
                                      (playerHand ++ communityCards))) as (o & Eo & Hn).
      rewrite Eo in H. injection H as ->. rewrite (Hn r eq_refl) in Hname. discriminate.
    + destruct (checkStraightFlush_Ok (sortBy (fun a b => value b <=? value a)
                                         (playerHand ++ communityCards))) as (o & Eo & Hn).
      rewrite Eo in H. injection H as ->. destruct (Hn r eq_refl) as [Hn' _].
      rewrite Hn' in Hname. discriminate.
    + rewrite (checkFourOfAKind_name _ _ H) in Hname. discriminate.
    + rewrite (checkFullHouse_name _ _ H) in Hname. discriminate.
    + rewrite (checkFlush_name _ _ H) in Hname. discriminate.
    + destruct (checkStraight_first _ _ H) as (_ & card & rest & Hc & Hs).
      exists (value card). unfold topValue. rewrite Hc. split; [reflexivity | exact Hs].
    + rewrite (checkThreeOfAKind_name _ _ H) in Hname. discriminate.
    + rewrite (checkTwoPair_name _ _ H) in Hname. discriminate.
    + rewrite (checkPair_name _ _ H) in Hname. discriminate.
    + destruct (checkHighCard_Some (sortBy (fun a b => value b <=? value a)
                                      (playerHand ++ communityCards))) as (r' & E' & Hn).
      rewrite E' in H. injection H as <-. rewrite Hn in Hname. discriminate.
Qed.

(** ** Properties of the evaluator *)


(** C10.  With at least five cards [evaluateHand] does not throw and does
    not return [null]: it returns a result that carries one of the ten
    category names and an integer score. *)
Theorem evaluateHand_total (playerHand communityCards : list Card) :
  (5 <= List.length (playerHand ++ communityCards))%nat ->
  exists r,
    evaluateHand playerHand communityCards = Ok (Some r) /\
    In (HandResult.name r) categoryNames.
Proof.
  intros Hlen. destruct (evaluateHand_chain _ _ Hlen) as (r & E & Hchain).
  exists r. split; [exact E | exact (evaluated_name _ _ Hchain)].
Qed.

Lemma evaluateHand_total_witness :
  exists r,
    evaluateHand [c RA spades; c RK diamonds]
                 [c RQ clubs; c RJ hearts; c R9 spades; c R7 diamonds; c R3 clubs]
      = Ok (Some r) /\
    In (HandResult.name r) categoryNames.
Proof.
  apply (evaluateHand_total
           [c RA spades; c RK diamonds]
           [c RQ clubs; c RJ hearts; c R9 spades; c R7 diamonds; c R3 clubs]).
  simpl. lia.
Defined.


(** C1.  The score does not follow the poker ranking: on the board
    Q-J-9-7-3 the hand A-K plays ace high and scores 154319, the hand 3-2
    plays a pair of threes and scores 2619, so the High Card outscores the
    Pair and would take the pot. *)
Theorem high_card_outscores_pair :
  let board := [c RQ clubs; c RJ hearts; c R9 spades; c R7 diamonds; c R3 clubs] in
  let high := evaluateHand [c RA spades; c RK diamonds] board in
  let pair := evaluateHand [c R3 spades; c R2 diamonds] board in
  nameOf high = Some "High Card" /\ scoreOf high = Some 154319 /\
  nameOf pair = Some "Pair" /\ scoreOf pair = Some 2619.
Proof. vm_compute. repeat split. Qed.

(** ** Facts about finding and writing back a player *)

Lemma findIndexFrom_spec {A} (f : A -> bool) (l : list A) (k i : nat) :
  findIndexFrom f l k = Some i ->
  (k <= i)%nat /\ exists x, nth_error l (i - k) = Some x /\ f x = true.
Proof.
  revert k. induction l as [|y l IH]; simpl; intros k H.
  - discriminate.
  - destruct (f y) eqn:Fy.
    + injection H as <-. split; [lia|]. rewrite Nat.sub_diag. simpl. eauto.
    + destruct (IH _ H) as (Hle & x & Hn & Hx). split; [lia|].
      exists x. split; [|exact Hx].
      replace (i - k)%nat with (S (i - S k)) by lia. simpl. exact Hn.
Qed.

Lemma findPlayer_Some (f : Player.t -> bool) (players : list Player.t) (i : nat) (p : Player.t) :
  findPlayer f players = Some (i, p) ->
  findIndex f players = Some i /\ nth_error players i = Some p /\ f p = true.
Proof.
  unfold findPlayer. destruct (findIndex f players) as [j|] eqn:Hj; [|discriminate].
  destruct (nth_error players j) as [q|] eqn:Hq; [|discriminate].
  intros E. injection E as <- <-. split; [reflexivity|]. split; [exact Hq|].
  unfold findIndex in Hj. apply findIndexFrom_spec in Hj.
  destruct Hj as (_ & x & Hn & Hx). rewrite Nat.sub_0_r in Hn. congruence.
Qed.

Lemma findIndex_findPlayer (f : Player.t -> bool) (players : list Player.t) (i : nat) :
  findIndex f players = Some i -> exists p, findPlayer f players = Some (i, p).
Proof.
  intros H. unfold findPlayer. rewrite H.
  unfold findIndex in H. apply findIndexFrom_spec in H.
  destruct H as (_ & x & Hn & _). rewrite Nat.sub_0_r in Hn. rewrite Hn. eauto.
Qed.

Lemma replaceAt_same {A} (l : list A) (i : nat) (x : A) :
  nth_error l i = Some x -> replaceAt i x l = l.
Proof.
  revert i. induction l as [|y l IH]; intros [|i]; simpl; intros H; try discriminate.
  - congruence.
  - rewrite IH; auto.
Qed.

Lemma nth_error_replaceAt {A} (l : list A) (i : nat) (x y : A) :
  nth_error l i = Some y -> nth_error (replaceAt i x l) i = Some x.
Proof.
  revert i. induction l as [|z l IH]; intros [|i]; simpl; intros H; try discriminate.
  - reflexivity.
  - eauto.
Qed.

Lemma length_replaceAt {A} (l : list A) (i : nat) (x : A) :
  List.length (replaceAt i x l) = List.length l.
Proof.
  revert i. induction l as [|z l IH]; intros [|i]; simpl; auto.
Qed.

Lemma findIndexFrom_replaceAt {A} (f : A -> bool) (l : list A) (i k : nat) (x y : A) :
  nth_error l i = Some y -> f x = f y ->
  findIndexFrom f (replaceAt i x l) k = findIndexFrom f l k.
Proof.
  revert i k. induction l as [|z l IH]; intros [|i] k; simpl; intros H E; try discriminate.
  - injection H as ->. rewrite E. reflexivity.
  - rewrite (IH _ _ H E). reflexivity.
Qed.

(** Writing a player back under the same id leaves it where it is found. *)
Lemma findPlayer_replaceAt (pid : string) (players : list Player.t) (i : nat)
    (p p' : Player.t) :
  findPlayer (hasId pid) players = Some (i, p) ->
  Player.id p' = Player.id p ->
  findPlayer (hasId pid) (replaceAt i p' players) = Some (i, p').
Proof.
  intros H Eid. destruct (findPlayer_Some _ _ _ _ H) as (Hi & Hn & _).
  unfold findPlayer, findIndex.
  rewrite (findIndexFrom_replaceAt _ _ _ _ p' p Hn).
  - unfold findIndex in Hi. rewrite Hi. rewrite (nth_error_replaceAt _ _ _ _ Hn). reflexivity.
  - unfold hasId. rewrite Eid. reflexivity.
Qed.

Lemma hasId_eq (pid : string) (p : Player.t) : hasId pid p = true -> Player.id p = pid.
Proof. unfold hasId. apply String.eqb_eq. Qed.

Lemma set_players_same (room : Room.t) : Room.set_players (Room.players room) room = room.
Proof. destruct room. reflexivity. Qed.

Lemma includesId_In (ids : list string) (pid : string) :
  includesId ids pid = true <-> In pid ids.
Proof.
  unfold includesId. rewrite existsb_exists. split.
  - intros (x & Hx & E). apply String.eqb_eq in E. subst. exact Hx.
  - intros H. exists pid. split; [exact H | apply String.eqb_refl].
Qed.

(** ** Properties of actions *)

(** A throwing action has not touched the room or the player. *)
Lemma dispatchAction_Throw (room room1 : Room.t) (player player1 : Player.t)
    (action msg : string) (amount : Z) :
  dispatchAction room player action amount = (room1, player1, Throw msg) ->
  room1 = room /\ player1 = player.
Proof.
  unfold dispatchAction, processBet, processRaise, processAllIn.
  destruct (String.eqb action "fold"); [discriminate|].
  destruct (String.eqb action "check").
  { destruct (Room.currentBet room >? Player.bet player); intros E; inversion E; auto. }
  destruct (String.eqb action "call").
  { destruct (processCall room player). discriminate. }
  destruct (String.eqb action "bet").
  { destruct (Room.currentBet room >? 0); [intros E; inversion E; auto|].
    destruct (amount <? Room.minBet room); [intros E; inversion E; auto|].
    destruct (amount >? Player.chips player); intros E; inversion E; auto. }
  destruct (String.eqb action "raise").
  { destruct (_ >? _); [intros E; inversion E; auto|].
    destruct (amount <? Room.minBet room); intros E; inversion E; auto. }
  destruct (String.eqb action "allin").
  { destruct (Player.chips player <=? 0); [intros E; inversion E; auto|].
    cbv zeta. destruct (_ >? _); discriminate. }
  intros E; inversion E; auto.
Qed.

Lemma processPlayerAction_Throw (room room' : Room.t) (pid action msg : string) (amount : Z) :
  processPlayerAction room pid action amount = (room', Throw msg) -> room' = room.
Proof.
  unfold processPlayerAction.
  destruct (findPlayer (hasId pid) (Room.players room)) as [[i player]|] eqn:Hf;
    [|intros E; inversion E; reflexivity].
  destruct (negb (idIs (Room.currentTurn room) pid)); [intros E; inversion E; reflexivity|].
  destruct (Player.folded player); [intros E; inversion E; reflexivity|].
  destruct (dispatchAction room player action amount) as [[room1 player1] result] eqn:Hd.
  destruct result as [u|m].
  - destruct (includesId _ pid); discriminate.
  - intros E. inversion E; subst.
    destruct (dispatchAction_Throw _ _ _ _ _ _ _ Hd) as [-> ->].
    destruct (findPlayer_Some _ _ _ _ Hf) as (_ & Hn & _).
    rewrite (replaceAt_same _ _ _ Hn). apply set_players_same.
Qed.

Lemma dispatchAction_violation (room : Room.t) (pid action : string) (amount : Z)
    (i : nat) (player : Player.t) :
  violation room pid action amount ->
  findPlayer (hasId pid) (Room.players room) = Some (i, player) ->
  idIs (Room.currentTurn room) pid = true ->
  Player.folded player = false ->
  exists msg, dispatchAction room player action amount = (room, player, Throw msg).
Proof.
  intros V Hf Hturn Hfold. unfold dispatchAction, processBet, processRaise.
  destruct V as [H | j p H1 H2 | j p H1 -> H2 | -> H | j p H1 -> H2 | -> H | j p H1 -> H2 | H].
  - congruence.
  - rewrite Hf in H1. injection H1 as <- <-. congruence.
  - rewrite Hf in H1. injection H1 as <- <-. simpl.
    assert (E : (Room.currentBet room >? Player.bet player) = true) by (apply Z.gtb_lt; lia).
    rewrite E. eauto.
  - simpl. destruct (Room.currentBet room >? 0); [eauto|].
    assert (E : (amount <? Room.minBet room) = true) by (apply Z.ltb_lt; lia).
    rewrite E. eauto.
  - rewrite Hf in H1. injection H1 as <- <-. simpl.
    destruct (Room.currentBet room >? 0); [eauto|].
    destruct (amount <? Room.minBet room); [eauto|].
    assert (E : (amount >? Player.chips player) = true) by (apply Z.gtb_lt; lia).
    rewrite E. eauto.
  - simpl.
    assert (E : (Room.currentBet room >? 0) = true) by (apply Z.gtb_lt; lia).
    rewrite E. eauto.
  - rewrite Hf in H1. injection H1 as <- <-. simpl.
    assert (E : (Room.currentBet room + amount >? Player.chips player + Player.bet player) = true)
      by (apply Z.gtb_lt; lia).
    rewrite E. eauto.
  - unfold knownActions in H. simpl in H.
    assert (N : forall s, action <> s -> String.eqb action s = false)
      by (intros s; apply String.eqb_neq).
    rewrite !N by (intros ->; tauto). eauto.
Qed.

(** C5.  An action that violates a precondition (not the player's turn,
    the seat has folded, a check below the current bet, a bet below the
    minimum, above the seat's chips or facing a bet, a raise the seat
    cannot cover, an unknown action name) throws, and the room after the
    throw is the room before it: pot, chips, bets, phase, current bet and
    turn are all unchanged. *)
Theorem rejected_action_leaves_room_unchanged (room : Room.t) (pid action : string)
    (amount : Z) :
  violation room pid action amount ->
  exists msg, processPlayerAction room pid action amount = (room, Throw msg).
Proof.
  intros V.
  assert (T : exists room' msg,
             processPlayerAction room pid action amount = (room', Throw msg)).
  { unfold processPlayerAction.
    destruct (findPlayer (hasId pid) (Room.players room)) as [[i player]|] eqn:Hf; [|eauto].
    destruct (idIs (Room.currentTurn room) pid) eqn:Hturn; simpl; [|eauto].
    destruct (Player.folded player) eqn:Hfold; [eauto|].
    destruct (dispatchAction_violation _ _ _ _ _ _ V Hf Hturn Hfold) as (msg & ->).
    eauto. }
  destruct T as (room' & msg & E). exists msg.
  rewrite E. rewrite (processPlayerAction_Throw _ _ _ _ _ _ E). reflexivity.
Qed.

(** Scenario 6 with its message: the check is refused and the turn is
    still P1's. *)
Lemma scenario6_check_is_refused :
  processPlayerAction scenario6 "P1" "check" 0 =
    (scenario6, Throw "Cannot check when there is a bet to call") /\
  Room.currentTurn scenario6 = Some "P1".
Proof. split; reflexivity. Qed.

Lemma rejected_action_leaves_room_unchanged_witness :
  exists msg, processPlayerAction scenario6 "P1" "check" 0 = (scenario6, Throw msg).
Proof.
  apply rejected_action_leaves_room_unchanged.
  apply (check_facing_bet scenario6 "P1" "check" 0 0%nat
           (seat "P1" 1000 0 [] false false)).
  - reflexivity.
  - reflexivity.
  - simpl. lia.
Defined.




(** C6, as amended.  An all-in by the seat on turn has three outcomes.  A
    folded seat is refused, and so is a seat without chips: the room is
    left as it was and the seat is not marked all-in.  A seat that holds
    chips moves all of them to the pot and is marked all-in; when its
    round bet then exceeds the current bet, the current bet becomes that
    bet, the seat becomes the last raiser and the acted list is that seat
    alone; otherwise the current bet and the last raiser stay, and every
    seat that had acted is still in the acted list. *)
Theorem all_in_raises_or_calls_short (room : Room.t) (pid : string) (amount : Z)
    (i : nat) (p : Player.t) :
  findPlayer (hasId pid) (Room.players room) = Some (i, p) ->
  idIs (Room.currentTurn room) pid = true ->
  (Player.folded p = true ->
   processPlayerAction room pid "allin" amount = (room, Throw "Player has folded")) /\
  (Player.folded p = false -> Player.chips p <= 0 ->
   processPlayerAction room pid "allin" amount =
     (room, Throw "No chips to go all-in with")) /\
  (Player.folded p = false -> 0 < Player.chips p ->
   exists room' p',
     processPlayerAction room pid "allin" amount = (room', Ok tt) /\
     findPlayer (hasId pid) (Room.players room') = Some (i, p') /\
     Player.chips p' = 0 /\
     Player.allIn p' = true /\
     Player.bet p' = Player.bet p + Player.chips p /\
     Room.pot room' = Room.pot room + Player.chips p /\
     (Room.currentBet room < Player.bet p' ->
      Room.currentBet room' = Player.bet p' /\
      Room.lastRaiser room' = Some pid /\
      Room.playersActedThisRound room' = [pid]) /\
     (Player.bet p' <= Room.currentBet room ->
      Room.currentBet room' = Room.currentBet room /\
      Room.lastRaiser room' = Room.lastRaiser room /\
      In pid (Room.playersActedThisRound room') /\
      forall q, In q (Room.playersActedThisRound room) ->
                In q (Room.playersActedThisRound room'))).
Proof.
  intros Hf Hturn.
  destruct (findPlayer_Some _ _ _ _ Hf) as (_ & Hn & Hid). apply hasId_eq in Hid.
  split; [|split].
  - intros Hfold. unfold processPlayerAction. rewrite Hf, Hturn, Hfold. reflexivity.
  - intros Hfold Hchips.
    unfold processPlayerAction. rewrite Hf, Hturn, Hfold. simpl negb. cbv iota.
    unfold dispatchAction. simpl String.eqb. cbv iota. unfold processAllIn.
    assert (E1 : (Player.chips p <=? 0) = true) by (apply Z.leb_le; exact Hchips).
    rewrite E1, (replaceAt_same _ _ _ Hn), set_players_same. reflexivity.
  - intros Hfold Hchips.
    unfold processPlayerAction. rewrite Hf, Hturn, Hfold. simpl negb. cbv iota.
    unfold dispatchAction. simpl String.eqb. cbv iota. unfold processAllIn.
    assert (E1 : (Player.chips p <=? 0) = false) by (apply Z.leb_gt; lia).
    rewrite E1. cbv zeta.
    set (p3 := Player.set_allIn true _).
    assert (Hid3 : Player.id p3 = Player.id p) by (subst p3; destruct p; reflexivity).
    assert (Hbet3 : Player.bet p3 = Player.bet p + Player.chips p)
      by (subst p3; destruct p; reflexivity).
    assert (Hfacts : Player.chips p3 = 0 /\ Player.allIn p3 = true)
      by (subst p3; destruct p; split; reflexivity).
    destruct Hfacts as [Hc3 Ha3].
    pose proof (findPlayer_replaceAt pid _ i p p3 Hf Hid3) as Hf3.
    destruct (Player.bet p3 >? Room.currentBet (Room.set_pot _ room)) eqn:Hgt.
    + assert (Hinc : includesId [Player.id p3] pid = true).
      { apply includesId_In. left. congruence. }
      assert (Hlt : Room.currentBet room < Player.bet p3).
      { apply Z.gtb_lt in Hgt. destruct room; exact Hgt. }
      destruct room; simpl in *. rewrite Hinc.
      eexists. exists p3. split; [reflexivity|]. simpl.
      repeat split; try assumption; try congruence; try lia.
    + assert (Hle : Player.bet p3 <= Room.currentBet room).
      { rewrite Z.gtb_ltb in Hgt. apply Z.ltb_ge in Hgt. destruct room; exact Hgt. }
      destruct room; simpl in *.
      destruct (includesId playersActedThisRound pid) eqn:Hinc.
      * eexists. exists p3. split; [reflexivity|]. simpl.
        repeat split; try assumption; try congruence; try lia.
        apply includesId_In. exact Hinc.
      * eexists. exists p3. split; [reflexivity|]. simpl.
        repeat split; try assumption; try congruence; try lia.
        -- apply in_or_app. right. left. reflexivity.
        -- intros q Hq. apply in_or_app. left. exact Hq.
Qed.

(** C6 as stated fails.  When the hand after Scenario 3 is started, P1,
    who has no chips left, is dealt in with its all-in flag cleared and
    holds the turn; its all-in is refused, no chip moves and P1 is not
    marked all-in. *)
Lemma all_in_without_chips_is_refused :
  Room.currentTurn scenario3_nextHand = Some "P1" /\
  chipsOf scenario3_nextHand = [("P1", 0); ("P2", 85); ("P3", 80)] /\
  map Player.folded (Room.players scenario3_nextHand) = [false; false; false] /\
  map Player.allIn (Room.players scenario3_nextHand) = [false; false; false] /\
  processPlayerAction scenario3_nextHand "P1" "allin" 0 =
    (scenario3_nextHand, Throw "No chips to go all-in with").
Proof. vm_compute. repeat split. Qed.

Lemma all_in_raises_or_calls_short_witness :
  (Player.folded (seat "P1" 40 10 [] false false) = true ->
   processPlayerAction shortStackRoom "P1" "allin" 0 =
     (shortStackRoom, Throw "Player has folded")) /\
  (Player.folded (seat "P1" 40 10 [] false false) = false -> 40 <= 0 ->
   processPlayerAction shortStackRoom "P1" "allin" 0 =
     (shortStackRoom, Throw "No chips to go all-in with")) /\
  (Player.folded (seat "P1" 40 10 [] false false) = false -> 0 < 40 ->
   exists room' p',
     processPlayerAction shortStackRoom "P1" "allin" 0 = (room', Ok tt) /\
     findPlayer (hasId "P1") (Room.players room') = Some (0%nat, p') /\
     Player.chips p' = 0 /\
     Player.allIn p' = true /\
     Player.bet p' = 10 + 40 /\
     Room.pot room' = 210 + 40 /\
     (100 < Player.bet p' ->
      Room.currentBet room' = Player.bet p' /\
      Room.lastRaiser room' = Some "P1" /\
      Room.playersActedThisRound room' = ["P1"]) /\
     (Player.bet p' <= 100 ->
      Room.currentBet room' = 100 /\
      Room.lastRaiser room' = Some "P2" /\
      In "P1" (Room.playersActedThisRound room') /\
      forall q, In q ["P2"; "P3"] -> In q (Room.playersActedThisRound room'))).
Proof.
  apply (all_in_raises_or_calls_short shortStackRoom "P1" 0 0%nat
           (seat "P1" 40 10 [] false false)).
  - reflexivity.
  - reflexivity.
Defined.

(** ** The broadcast view *)

(** C8.  The broadcast view is a copy of the room in which only the hole
    cards are masked: its [deck] field is the deck of the room, so two
    rooms that differ in the deck alone are told apart by their views. *)
Theorem broadcast_view_carries_deck :
  (forall room, RoomView.deck (sanitizeRoomForBroadcast room) = Room.deck room) /\
  sanitizeRoomForBroadcast (deckRoom [c RQ hearts; c R9 diamonds]) <>
  sanitizeRoomForBroadcast (deckRoom [c R3 clubs; c R4 spades]).
Proof.
  split.
  - intros room. reflexivity.
  - intros E. apply (f_equal RoomView.deck) in E. discriminate E.
Qed.

(** ** The dealer button *)

Lemma postBlinds_dealerIndex (room : Room.t) :
  Room.dealerIndex (fst (postBlinds room)) = Room.dealerIndex room.
Proof.
  unfold postBlinds.
  destruct (findPlayer _ (Room.players room)) as [[i sb]|]; [|reflexivity].
  cbv zeta.
  destruct (findPlayer _ _) as [[j bb]|]; destruct room; reflexivity.
Qed.

Lemma dealHoleCards_dealerIndex (room : Room.t) :
  Room.dealerIndex (dealHoleCards room) = Room.dealerIndex room.
Proof.
  unfold dealHoleCards.
  destruct (dealRound (Room.deck room) (Room.players room)) as [deck1 players1].
  destruct (dealRound deck1 players1) as [deck2 players2].
  destruct room; reflexivity.
Qed.

Lemma setTurnFrom_dealerIndex (room : Room.t) (first : nat) :
  Room.dealerIndex (fst (setTurnFrom room first)) = Room.dealerIndex room.
Proof.
  unfold setTurnFrom.
  destruct (seekActive _ _ _ _) as [k|]; [|reflexivity].
  destruct (idAt _ _); [destruct room|]; reflexivity.
Qed.

Lemma setFirstPlayerToAct_dealerIndex (room : Room.t) :
  Room.dealerIndex (fst (setFirstPlayerToAct room)) = Room.dealerIndex room.
Proof.
  unfold setFirstPlayerToAct.
  destruct (_ =? 0)%nat; [reflexivity | apply setTurnFrom_dealerIndex].
Qed.

(** "Move dealer button": the index is reduced modulo the number of seats
    with chips, and nothing is added to it. *)
Lemma assignDealerAndBlinds_dealerIndex (room : Room.t) :
  let n := List.length (filter (fun p => Player.chips p >? 0) (Room.players room)) in
  Room.dealerIndex (fst (assignDealerAndBlinds room)) =
  if (n <? 2)%nat then Room.dealerIndex room else (Room.dealerIndex room mod n)%nat.
Proof.
  cbv zeta. unfold assignDealerAndBlinds.
  destruct (_ <? 2)%nat; [reflexivity|]. cbv zeta.
  destruct (idAt _ _) as [sb|]; [|destruct room; reflexivity].
  destruct (idAt _ _) as [bb|]; [|destruct room; reflexivity].
  rewrite postBlinds_dealerIndex. destruct room; reflexivity.
Qed.

Lemma filter_chips_resetPlayer (players : list Player.t) :
  filter (fun p => Player.chips p >? 0) (map resetPlayer players) =
  map resetPlayer (filter (fun p => Player.chips p >? 0) players).
Proof.
  induction players as [|p players IH]; simpl; [reflexivity|].
  replace (Player.chips (resetPlayer p)) with (Player.chips p) by (destruct p; reflexivity).
  destruct (Player.chips p >? 0); simpl; rewrite IH; reflexivity.
Qed.

(** Starting a hand leaves a dealer index that points at a seat with chips
    where it was. *)
Lemma startNewHand_dealerIndex (rand : nat -> nat) (room : Room.t) :
  (Room.dealerIndex room <
   List.length (filter (fun p => Player.chips p >? 0) (Room.players room)))%nat ->
  Room.dealerIndex (fst (startNewHand rand room)) = Room.dealerIndex room.
Proof.
  intros Hlt. unfold startNewHand.
  destruct (_ <? 2)%nat; [reflexivity|]. cbv zeta.
  set (room9 := Room.set_deck _ _).
  assert (H9 : Room.dealerIndex (fst (assignDealerAndBlinds room9)) = Room.dealerIndex room).
  { rewrite assignDealerAndBlinds_dealerIndex.
    assert (Hp : Room.players room9 = map resetPlayer (Room.players room))
      by (destruct room; reflexivity).
    assert (Hd : Room.dealerIndex room9 = Room.dealerIndex room)
      by (destruct room; reflexivity).
    rewrite Hp, Hd, filter_chips_resetPlayer, length_map.
    destruct (_ <? 2)%nat; [reflexivity|]. apply Nat.mod_small. exact Hlt. }
  destruct (assignDealerAndBlinds room9) as [room10 [u|msg]]; simpl in *.
  - rewrite setFirstPlayerToAct_dealerIndex, dealHoleCards_dealerIndex. exact H9.
  - exact H9.
Qed.

(** C4.  In Scenario 1 the first hand has the dealer index 0 (P1), P2 as
    small blind and P3 as big blind; P3 wins 15; and the second hand starts
    with the same dealer index and the same blinds: the button has not
    moved to P2. *)
Theorem dealer_button_does_not_move :
  Room.dealerIndex scenario1_firstHand = 0%nat /\
  Room.smallBlind scenario1_firstHand = Some "P2" /\
  Room.bigBlind scenario1_firstHand = Some "P3" /\
  Room.pot scenario1_firstHand = 15 /\
  chipsOf scenario1_handOver = [("P1", 1000); ("P2", 995); ("P3", 1005)] /\
  Room.dealerIndex scenario1_secondHand = 0%nat /\
  Room.smallBlind scenario1_secondHand = Some "P2" /\
  Room.bigBlind scenario1_secondHand = Some "P3".
Proof. vm_compute. repeat split. Qed.

(** ** Showdown *)

(** [evaluateHand] never throws and never returns [null]. *)
Lemma evaluateHand_Ok (playerHand communityCards : list Card) :
  exists r, evaluateHand playerHand communityCards = Ok (Some r).
Proof.
  destruct (Nat.lt_ge_cases (List.length (playerHand ++ communityCards)) 5) as [Hlt|Hge].
  - unfold evaluateHand. apply Nat.ltb_lt in Hlt. rewrite Hlt. eauto.
  - destruct (evaluateHand_chain _ _ Hge) as (r & E & _). eauto.
Qed.

Lemma evaluateAll_Ok (communityCards : list Card) (activePlayers : list Player.t) :
  exists entries,
    evaluateAll communityCards activePlayers = Ok entries /\
    Forall2 (entryOf communityCards) activePlayers entries.
Proof.
  induction activePlayers as [|p ps IH]; simpl.
  - exists []. split; [reflexivity | constructor].
  - destruct (evaluateHand_Ok (Player.hand p) communityCards) as (r & Er).
    destruct IH as (entries & -> & IH). rewrite Er. simpl.
    eexists. split; [reflexivity|]. constructor; [|exact IH].
    split; [reflexivity|]. rewrite Er. reflexivity.
Qed.

Lemma headIsBest_insertSorted (x : ShowdownEntry) (l : list ShowdownEntry) :
  headIsBest l -> headIsBest (insertSorted byScoreDesc x l).
Proof.
  destruct l as [|y l]; simpl.
  - intros _ e [<-|[]]. lia.
  - intros H. unfold byScoreDesc at 1. destruct (entryScore y <=? entryScore x) eqn:E.
    + apply Z.leb_le in E. intros e [<-|He]; [lia|].
      specialize (H e He). lia.
    + apply Z.leb_gt in E. simpl. intros e [<-|He]; [lia|].
      apply In_insertSorted in He. destruct He as [->|He]; [lia|].
      apply H. right. exact He.
Qed.

Lemma headIsBest_sortBy (l : list ShowdownEntry) : headIsBest (sortBy byScoreDesc l).
Proof.
  induction l as [|x l IH]; simpl; [exact I|].
  apply headIsBest_insertSorted. exact IH.
Qed.

Lemma sumZ_replaceAt (players : list Player.t) (i : nat) (p p' : Player.t) :
  nth_error players i = Some p ->
  sumZ (map Player.chips (replaceAt i p' players)) =
  sumZ (map Player.chips players) - Player.chips p + Player.chips p'.
Proof.
  revert i. induction players as [|q players IH]; intros [|i]; simpl; intros H;
    try discriminate.
  - injection H as ->. lia.
  - rewrite (IH _ H). lia.
Qed.

Lemma ids_replaceAt (players : list Player.t) (i : nat) (p p' : Player.t) :
  nth_error players i = Some p -> Player.id p' = Player.id p ->
  map Player.id (replaceAt i p' players) = map Player.id players.
Proof.
  revert i. induction players as [|q players IH]; intros [|i]; simpl; intros H E;
    try discriminate.
  - injection H as ->. rewrite E. reflexivity.
  - rewrite (IH _ H E). reflexivity.
Qed.

Lemma findIndexFrom_In (pid : string) (players : list Player.t) (k : nat) :
  In pid (map Player.id players) -> exists i, findIndexFrom (hasId pid) players k = Some i.
Proof.
  revert k. induction players as [|q players IH]; simpl; intros k H; [destruct H|].
  destruct (hasId pid q) eqn:E; [eauto|].
  destruct H as [H|H]; [|apply IH; exact H].
  unfold hasId in E. rewrite H, String.eqb_refl in E. discriminate.
Qed.

Lemma findPlayer_In (pid : string) (players : list Player.t) :
  In pid (map Player.id players) -> exists i p, findPlayer (hasId pid) players = Some (i, p).
Proof.
  intros H. destruct (findIndexFrom_In pid players 0 H) as (i & Hi).
  destruct (findIndex_findPlayer _ _ _ Hi) as (p & Hp). eauto.
Qed.

(** Paying the winners does not throw, pays the winner at each position
    its share, adds the shares to the chips on the table and touches
    nothing but chips. *)
Lemma payWinners_spec (winners : list ShowdownEntry) :
  forall (room : Room.t) (winAmount remainder : Z) (index : nat),
  (forall w, In w winners -> In (playerId w) (map Player.id (Room.players room))) ->
  exists room' paid,
    payWinners room winAmount remainder index winners = (room', Ok paid) /\
    map fst paid = map playerId winners /\
    map snd paid = map (share winAmount remainder) (seq index (List.length winners)) /\
    room' = Room.set_players (Room.players room') room /\
    map Player.id (Room.players room') = map Player.id (Room.players room) /\
    totalChips room' = totalChips room + sumZ (map snd paid).
Proof.
  induction winners as [|w winners IH]; intros room q r k Hin; simpl.
  - exists room, []. repeat split; try reflexivity.
    + symmetry. apply set_players_same.
    + unfold sumZ. simpl. lia.
  - destruct (findPlayer_In _ _ (Hin w (or_introl eq_refl))) as (i & p & Hf).
    rewrite Hf. cbv zeta.
    destruct (findPlayer_Some _ _ _ _ Hf) as (_ & Hn & _).
    set (p1 := Player.set_chips _ p).
    set (room1 := Room.set_players _ room).
    assert (Hids : map Player.id (Room.players room1) = map Player.id (Room.players room)).
    { subst room1. destruct room; simpl in *.
      apply (ids_replaceAt _ _ p); [exact Hn | subst p1; destruct p; reflexivity]. }
    destruct (IH room1 q r (S k)) as (room2 & paid & E & Hfst & Hsnd & Hframe & Hids2 & Hsum).
    { intros w' Hw'. rewrite Hids. apply Hin. right. exact Hw'. }
    rewrite E. simpl.
    exists room2. eexists. split; [reflexivity|]. simpl.
    split; [rewrite Hfst; reflexivity|].
    split; [rewrite Hsnd; reflexivity|].
    split; [rewrite Hframe; subst room1; destruct room; reflexivity|].
    split; [congruence|].
    rewrite Hsum. unfold totalChips. subst room1.
    replace (Room.players (Room.set_players (replaceAt i p1 (Room.players room)) room))
      with (replaceAt i p1 (Room.players room)) by (destruct room; reflexivity).
    rewrite (sumZ_replaceAt _ _ _ _ Hn).
    replace (Player.chips p1) with (Player.chips p + share q r k)
      by (subst p1; destruct p; reflexivity).
    unfold share, sumZ. simpl. lia.
Qed.

(** The shares of [n] winners add up to the pot, and no two of them
    differ by more than one chip. *)
Lemma shares_sum (winAmount remainder : Z) (count index : nat) :
  0 <= remainder ->
  sumZ (map (share winAmount remainder) (seq index count)) =
  Z.of_nat count * winAmount +
  (Z.min remainder (Z.of_nat (index + count)) - Z.min remainder (Z.of_nat index)).
Proof.
  intros Hr. revert index. induction count as [|count IH]; intros index.
  - simpl. rewrite Nat.add_0_r. unfold sumZ. simpl. lia.
  - simpl seq. simpl map. unfold sumZ in *. simpl fold_right. rewrite IH.
    unfold share. destruct (Z.of_nat index <? remainder) eqn:E.
    + apply Z.ltb_lt in E. lia.
    + apply Z.ltb_ge in E. lia.
Qed.

Lemma shares_whole_pot (pot : Z) (count : nat) :
  0 <= pot -> (0 < count)%nat ->
  sumZ (map (share (pot / Z.of_nat count) (Z.rem pot (Z.of_nat count))) (seq 0 count)) = pot.
Proof.
  intros Hpot Hcount.
  assert (Hn : 0 < Z.of_nat count) by lia.
  rewrite Z.rem_mod_nonneg by lia.
  pose proof (Z.mod_pos_bound pot (Z.of_nat count) Hn) as Hb.
  rewrite shares_sum by lia. simpl Nat.add.
  pose proof (Z.div_mod pot (Z.of_nat count)) as Hdm.
  lia.
Qed.

Lemma Forall2_In_r {A B} (R : A -> B -> Prop) (l : list A) (l' : list B) (y : B) :
  Forall2 R l l' -> In y l' -> exists x, In x l /\ R x y.
Proof.
  induction 1 as [|x y' l l' Hxy HF IH]; simpl; intros Hin; [destruct Hin|].
  destruct Hin as [<-|Hin]; [eauto|].
  destruct (IH Hin) as (x' & Hx' & HR). eauto.
Qed.

Lemma Forall2_In_l {A B} (R : A -> B -> Prop) (l : list A) (l' : list B) (x : A) :
  Forall2 R l l' -> In x l -> exists y, In y l' /\ R x y.
Proof.
  induction 1 as [|x' y l l' Hxy HF IH]; simpl; intros Hin; [destruct Hin|].
  destruct Hin as [<-|Hin]; [eauto|].
  destruct (IH Hin) as (y' & Hy' & HR). eauto.
Qed.

Lemma nth_error_replaceAt_ne {A} (l : list A) (i j : nat) (x : A) :
  i <> j -> nth_error (replaceAt i x l) j = nth_error l j.
Proof.
  revert i j. induction l as [|y l IH]; intros [|i] [|j] H; simpl; try reflexivity.
  - congruence.
  - apply IH. congruence.
Qed.

Lemma NoDup_map_filter {A B} (f : A -> B) (g : A -> bool) (l : list A) :
  NoDup (map f l) -> NoDup (map f (filter g l)).
Proof.
  induction l as [|x l IH]; simpl; intros H; [constructor|].
  inversion H as [|y m Hx Hl]; subst.
  destruct (g x); [|apply IH; exact Hl].
  simpl. constructor; [|apply IH; exact Hl].
  intros Hin. apply Hx. apply in_map_iff in Hin. destruct Hin as (z & <- & Hz).
  apply in_map. apply filter_In in Hz. apply Hz.
Qed.

Lemma insertSorted_Permutation {A} (before : A -> A -> bool) (x : A) (l : list A) :
  Permutation (insertSorted before x l) (x :: l).
Proof.
  induction l as [|y l IH]; simpl; [apply Permutation_refl|].
  destruct (before x y); [apply Permutation_refl|].
  eapply perm_trans; [apply perm_skip, IH | apply perm_swap].
Qed.

Lemma sortBy_Permutation {A} (before : A -> A -> bool) (l : list A) :
  Permutation (sortBy before l) l.
Proof.
  induction l as [|x l IH]; simpl; [apply Permutation_refl|].
  eapply perm_trans; [apply insertSorted_Permutation | apply perm_skip, IH].
Qed.

(** Writing a seat back under its id does not change where ids are found. *)
Lemma paidToSeat_replaceAt (players : list Player.t) (i j : nat) (p p' : Player.t)
    (e : string * Z) :
  nth_error players i = Some p -> Player.id p' = Player.id p ->
  paidToSeat (replaceAt i p' players) j e = paidToSeat players j e.
Proof.
  intros Hn Hid. unfold paidToSeat, findIndex.
  rewrite (findIndexFrom_replaceAt _ _ _ _ p' p Hn); [reflexivity|].
  unfold hasId. rewrite Hid. reflexivity.
Qed.

Lemma winnings_cons (players : list Player.t) (j : nat) (e : string * Z)
    (paid : list (string * Z)) :
  winnings players j (e :: paid) =
  (if paidToSeat players j e then snd e else 0) + winnings players j paid.
Proof.
  unfold winnings. simpl. destruct (paidToSeat players j e); reflexivity.
Qed.

Lemma set_chips_twice (x y : Z) (p : Player.t) :
  Player.set_chips y (Player.set_chips x p) = Player.set_chips y p.
Proof. destruct p; reflexivity. Qed.

(** Seat by seat: paying the winners adds to each seat what the list pays
    to it and changes nothing else of the seat. *)
Lemma payWinners_seats (winners : list ShowdownEntry) :
  forall (room room' : Room.t) (winAmount remainder : Z) (index : nat)
         (paid : list (string * Z)),
  payWinners room winAmount remainder index winners = (room', Ok paid) ->
  forall j p, nth_error (Room.players room) j = Some p ->
    nth_error (Room.players room') j =
    Some (Player.set_chips (Player.chips p + winnings (Room.players room) j paid) p).
Proof.
  induction winners as [|w winners IH]; intros room room' q r k paid; simpl.
  - intros E j p Hj. injection E as <- <-. rewrite Hj. f_equal.
    unfold winnings, sumZ. simpl. rewrite Z.add_0_r. destruct p; reflexivity.
  - destruct (findPlayer _ _) as [[i player]|] eqn:Hf; [|discriminate].
    cbv zeta. destruct (findPlayer_Some _ _ _ _ Hf) as (Hi & Hn & _).
    set (amount := q + (if Z.of_nat k <? r then 1 else 0)).
    set (player1 := Player.set_chips (Player.chips player + amount) player).
    set (room1 := Room.set_players _ room).
    destruct (payWinners room1 q r (S k) winners) as [room2 [paid'|msg]] eqn:E1;
      simpl; [|discriminate].
    intros E j p Hj. injection E as <- <-.
    assert (Hid1 : Player.id player1 = Player.id player)
      by (subst player1; destruct player; reflexivity).
    assert (Hpl1 : Room.players room1 = replaceAt i player1 (Room.players room))
      by (subst room1; destruct room; reflexivity).
    assert (Hw : winnings (Room.players room1) j paid' = winnings (Room.players room) j paid').
    { unfold winnings. rewrite Hpl1. f_equal. f_equal. apply filter_ext. intros e.
      apply (paidToSeat_replaceAt _ _ _ player); assumption. }
    assert (Hhead : paidToSeat (Room.players room) j (playerId w, amount) = (i =? j)%nat).
    { unfold paidToSeat. cbn [fst]. rewrite Hi. reflexivity. }
    destruct (Nat.eq_dec i j) as [->|Hne].
    + assert (p = player) by congruence. subst p.
      assert (Hj1 : nth_error (Room.players room1) j = Some player1)
        by (rewrite Hpl1; apply (nth_error_replaceAt _ _ _ _ Hn)).
      rewrite (IH _ _ _ _ _ _ E1 j player1 Hj1), Hw, winnings_cons, Hhead, Nat.eqb_refl.
      cbn [snd]. subst player1. rewrite set_chips_twice.
      replace (Player.chips (Player.set_chips (Player.chips player + amount) player))
        with (Player.chips player + amount) by (destruct player; reflexivity).
      f_equal. f_equal. lia.
    + assert (Hj1 : nth_error (Room.players room1) j = Some p)
        by (rewrite Hpl1, nth_error_replaceAt_ne by exact Hne; exact Hj).
      rewrite (IH _ _ _ _ _ _ E1 j p Hj1), Hw, winnings_cons, Hhead.
      apply Nat.eqb_neq in Hne. rewrite Hne. reflexivity.
Qed.

Lemma findIndexFrom_hasId_NoDup (l : list Player.t) :
  NoDup (map Player.id l) ->
  forall k p j, nth_error l k = Some p ->
    findIndexFrom (hasId (Player.id p)) l j = Some (j + k)%nat.
Proof.
  induction l as [|x l IH]; intros Hnd [|k] p j Hk; simpl in *; try discriminate.
  - injection Hk as ->. unfold hasId. rewrite String.eqb_refl. f_equal. lia.
  - inversion Hnd as [|y m Hx Hl]; subst.
    destruct (hasId (Player.id p) x) eqn:E.
    + apply hasId_eq in E. exfalso. apply Hx. rewrite E.
      apply in_map. apply (nth_error_In _ _ Hk).
    + rewrite (IH Hl k p (S j) Hk). f_equal. lia.
Qed.

(** With distinct ids an amount goes to the seat of its id and to no other. *)
Lemma paidToSeat_iff (players : list Player.t) (j : nat) (q : Player.t) (e : string * Z) :
  NoDup (map Player.id players) -> nth_error players j = Some q ->
  (paidToSeat players j e = true <-> fst e = Player.id q).
Proof.
  intros Hnd Hj. unfold paidToSeat. split.
  - destruct (findIndex _ _) as [i|] eqn:Hi; [|discriminate].
    intros E. apply Nat.eqb_eq in E. subst i.
    unfold findIndex in Hi. apply findIndexFrom_spec in Hi.
    destruct Hi as (_ & x & Hx & Hid). rewrite Nat.sub_0_r in Hx.
    assert (x = q) by congruence. subst x. apply hasId_eq in Hid. congruence.
  - intros ->. unfold findIndex.
    rewrite (findIndexFrom_hasId_NoDup players Hnd j q 0%nat Hj). simpl Nat.add.
    apply Nat.eqb_refl.
Qed.

Lemma filter_nothing {A} (f : A -> bool) (l : list A) :
  (forall e, In e l -> f e = false) -> filter f l = [].
Proof.
  induction l as [|x l IH]; intros H; [reflexivity|]. simpl.
  rewrite (H x (or_introl eq_refl)). apply IH. intros e He. apply H. right. exact He.
Qed.

Lemma filter_by_key {V} (f : string * V -> bool) (k : string) (v : V) (l : list (string * V)) :
  NoDup (map fst l) -> In (k, v) l ->
  (forall e, In e l -> (f e = true <-> fst e = k)) ->
  filter f l = [(k, v)].
Proof.
  induction l as [|[k0 v0] l IH]; intros Hnd Hin Hf; [destruct Hin|].
  inversion Hnd as [|x m Hx Hl]; subst. simpl in Hx.
  assert (Hrest : forall e, In e l -> fst e <> k0).
  { intros e He Heq. apply Hx. rewrite <- Heq. apply in_map. exact He. }
  simpl. destruct Hin as [E|Hin].
  - injection E as -> ->.
    rewrite (proj2 (Hf (k, v) (or_introl eq_refl)) eq_refl). f_equal.
    apply filter_nothing. intros e He.
    destruct (f e) eqn:Fe; [|reflexivity]. exfalso.
    apply (Hrest e He). apply (Hf e); [right; exact He | exact Fe].
  - destruct (f (k0, v0)) eqn:F0.
    + exfalso. apply (Hf (k0, v0) (or_introl eq_refl)) in F0. simpl in F0. subst k0.
      apply (Hrest (k, v) Hin). reflexivity.
    + apply IH; [exact Hl | exact Hin |].
      intros e He. apply Hf. right. exact He.
Qed.

Lemma entryOf_ids (communityCards : list Card) (active : list Player.t)
    (entries : list ShowdownEntry) :
  Forall2 (entryOf communityCards) active entries ->
  map playerId entries = map Player.id active.
Proof.
  induction 1 as [|p e active entries [Hid _] HF IH]; simpl; [reflexivity|].
  rewrite Hid, IH. reflexivity.
Qed.

(** C2, as amended.  At a showdown with more than one non-folded seat and
    a non-negative pot, every non-folded seat is evaluated on its hole
    cards and the board, and the whole pot goes to the seats with the
    highest score, whatever each seat has committed: with [n] such seats
    the one at position [k] of the result list receives [floor(pot / n)],
    plus one chip when [k < pot mod n]; the amounts add up to the pot and
    the chips on the table grow by the pot.  No side pot is formed.

    Seat by seat, the room afterwards has the same seats, each changed in
    its chips only, by what the list pays to it (an amount goes to the
    first seat carrying its id).  With distinct player ids no id is paid
    twice: every amount of the list is added to the chips of the
    non-folded seat of that id, and a seat whose id is not in the list
    keeps its chips. *)
Theorem showdown_pays_whole_pot_to_best (room : Room.t) :
  (1 < List.length (filter nonFolded (Room.players room)))%nat ->
  0 <= Room.pot room ->
  exists room' results paid top,
    processShowdown room = (room', Ok (showdown_result results paid)) /\
    (forall pid, In pid (map playerId results) <->
                 In pid (map Player.id (filter nonFolded (Room.players room)))) /\
    (forall e, In e results ->
       exists p, In p (Room.players room) /\ Player.folded p = false /\
                 entryOf (Room.communityCards room) p e) /\
    (forall e, In e results -> entryScore e <= top) /\
    map fst paid = map playerId (filter (fun e => entryScore e =? top) results) /\
    paid <> [] /\
    map snd paid =
      map (share (Room.pot room / Z.of_nat (List.length paid))
                 (Z.rem (Room.pot room) (Z.of_nat (List.length paid))))
          (seq 0 (List.length paid)) /\
    sumZ (map snd paid) = Room.pot room /\
    totalChips room' = totalChips room + Room.pot room /\
    List.length (Room.players room') = List.length (Room.players room) /\
    (forall j q, nth_error (Room.players room) j = Some q ->
       nth_error (Room.players room') j =
       Some (Player.set_chips (Player.chips q + winnings (Room.players room) j paid) q)) /\
    (NoDup (map Player.id (Room.players room)) ->
     NoDup (map fst paid) /\
     (forall pid amount, In (pid, amount) paid ->
        exists j q,
          nth_error (Room.players room) j = Some q /\ Player.id q = pid /\
          Player.folded q = false /\
          nth_error (Room.players room') j =
          Some (Player.set_chips (Player.chips q + amount) q)) /\
     (forall j q, nth_error (Room.players room) j = Some q ->
        ~ In (Player.id q) (map fst paid) ->
        nth_error (Room.players room') j = Some q)).
Proof.
  intros Hmany Hpot. unfold processShowdown.
  change (fun p => negb (Player.folded p)) with nonFolded.
  set (active := filter nonFolded (Room.players room)) in *.
  destruct (List.length active =? 1)%nat eqn:H1; [apply Nat.eqb_eq in H1; lia|].
  destruct (evaluateAll_Ok (Room.communityCards room) active) as (entries & -> & HF).
  change (fun a b => entryScore b <=? entryScore a) with byScoreDesc.
  remember (sortBy byScoreDesc entries) as results eqn:Hr0.
  assert (Hlen : List.length results = List.length active).
  { rewrite Hr0, length_sortBy. symmetry. exact (Forall2_length HF). }
  pose proof (headIsBest_sortBy entries) as Hbest. rewrite <- Hr0 in Hbest.
  assert (Hres : forall e, In e results ->
            exists p, In p active /\ entryOf (Room.communityCards room) p e).
  { intros e He. rewrite Hr0 in He. apply In_sortBy in He.
    exact (Forall2_In_r _ _ _ _ HF He). }
  assert (Hact : forall p, In p active -> In p (Room.players room) /\ Player.folded p = false).
  { intros p Hp. apply filter_In in Hp. destruct Hp as [Hp Hnf]. split; [exact Hp|].
    unfold nonFolded in Hnf. apply negb_true_iff in Hnf. exact Hnf. }
  destruct results as [|best rest]; [simpl in Hlen; lia|].
  simpl in Hbest.
  set (results := best :: rest) in *.
  set (winners := filter (fun r => entryScore r =? entryScore best) results).
  assert (Hw0 : In best winners).
  { apply filter_In. split; [left; reflexivity | apply Z.eqb_refl]. }
  assert (Hwn : (0 < List.length winners)%nat).
  { destruct winners; [destruct Hw0 | simpl; lia]. }
  destruct (payWinners_spec winners room
              (Room.pot room / Z.of_nat (List.length winners))
              (Z.rem (Room.pot room) (Z.of_nat (List.length winners))) 0%nat)
    as (room' & paid & E & Hfst & Hsnd & _ & Hids' & Hsum).
  { intros w Hw. apply filter_In in Hw. destruct Hw as [Hw _].
    destruct (Hres w Hw) as (p & Hp & Hid & _). rewrite Hid.
    apply in_map. apply Hact. exact Hp. }
  rewrite E. simpl.
  assert (Hlp : List.length paid = List.length winners).
  { rewrite <- (length_map fst paid), Hfst, length_map. reflexivity. }
  assert (Hpaid : sumZ (map snd paid) = Room.pot room).
  { rewrite Hsnd. apply shares_whole_pot; assumption. }
  exists room', results, paid, (entryScore best).
  split; [reflexivity|].
  split.
  { intros pid. rewrite !in_map_iff. split.
    - intros (e & <- & He). destruct (Hres e He) as (p & Hp & Hid & _). eauto.
    - intros (p & <- & Hp). destruct (Forall2_In_l _ _ _ _ HF Hp) as (e & He & Hid & _).
      exists e. split; [exact Hid | rewrite Hr0; apply In_sortBy; exact He]. }
  split.
  { intros e He. destruct (Hres e He) as (p & Hp & Hentry).
    destruct (Hact p Hp) as [Hin Hnf]. eauto. }
  split; [intros e He; apply Hbest; exact He|].
  split; [exact Hfst|].
  split; [intros ->; simpl in Hlp; lia|].
  split; [rewrite Hlp; exact Hsnd|].
  split; [exact Hpaid|].
  split; [rewrite Hsum, Hpaid; reflexivity|].
  split.
  { rewrite <- (length_map Player.id (Room.players room')), Hids', length_map. reflexivity. }
  pose proof (payWinners_seats _ _ _ _ _ _ _ E) as Hseats.
  split; [exact Hseats|].
  intros Hnd.
  assert (Hpaidids : forall pid, In pid (map fst paid) ->
            exists q, In q (Room.players room) /\ Player.id q = pid /\
                      Player.folded q = false).
  { intros pid Hin. rewrite Hfst in Hin. apply in_map_iff in Hin.
    destruct Hin as (w & <- & Hw). apply filter_In in Hw. destruct Hw as [Hw _].
    destruct (Hres w Hw) as (q & Hq & Hid & _). destruct (Hact q Hq) as [Hin Hnf].
    exists q. split; [exact Hin|]. split; [symmetry; exact Hid | exact Hnf]. }
  assert (Hndp : NoDup (map fst paid)).
  { rewrite Hfst. apply NoDup_map_filter.
    subst results. rewrite Hr0.
    apply (Permutation_NoDup (l := map playerId entries)).
    - apply Permutation_map, Permutation_sym, sortBy_Permutation.
    - rewrite (entryOf_ids _ _ _ HF). apply NoDup_map_filter. exact Hnd. }
  split; [exact Hndp|]. split.
  - intros pid amount Hin.
    destruct (Hpaidids pid) as (q & Hq & Hid & Hnf).
    { apply in_map_iff. exists (pid, amount). split; [reflexivity | exact Hin]. }
    destruct (In_nth_error _ _ Hq) as (j & Hj).
    exists j, q. split; [exact Hj|]. split; [exact Hid|]. split; [exact Hnf|].
    rewrite (Hseats j q Hj). f_equal. f_equal. f_equal.
    unfold winnings.
    rewrite (filter_by_key (paidToSeat (Room.players room) j) pid amount paid Hndp Hin).
    + unfold sumZ. simpl. lia.
    + intros e _. rewrite (paidToSeat_iff _ _ _ e Hnd Hj), Hid. reflexivity.
  - intros j q Hj Hnot. rewrite (Hseats j q Hj). f_equal.
    unfold winnings. rewrite filter_nothing.
    + unfold sumZ. simpl. rewrite Z.add_0_r. destruct q; reflexivity.
    + intros e He. destruct (paidToSeat (Room.players room) j e) eqn:Ep; [|reflexivity].
      exfalso. apply Hnot. apply (paidToSeat_iff _ _ _ e Hnd Hj) in Ep.
      rewrite <- Ep. apply in_map. exact He.
Qed.

(** C2 as stated fails.  In Scenario 3 the pot is 270 with P1 in for 50
    and P2 and P3 for 110 each, and P1 has the best hand; the showdown pays
    all 270 to P1 and nothing to P2, not 150 and 120. *)
Lemma scenario3_pays_everything_to_P1 :
  Room.phase scenario3_river = river /\
  Room.pot scenario3_river = 270 /\
  Room.communityCards scenario3_river =
    [c R2 clubs; c R7 diamonds; c R9 hearts; c RJ spades; c R3 diamonds] /\
  chipsOf scenario3_river = [("P1", 0); ("P2", 90); ("P3", 90)] /\
  paidOf (processShowdown scenario3_river) = [("P1", 270)] /\
  chipsOf (fst (processShowdown scenario3_river)) = [("P1", 270); ("P2", 90); ("P3", 90)].
Proof. vm_compute. repeat split. Qed.

Lemma showdown_pays_whole_pot_to_best_witness :
  exists room' results paid top,
    processShowdown scenario3_river = (room', Ok (showdown_result results paid)) /\
    (forall pid, In pid (map playerId results) <->
                 In pid (map Player.id (filter nonFolded (Room.players scenario3_river)))) /\
    (forall e, In e results ->
       exists p, In p (Room.players scenario3_river) /\ Player.folded p = false /\
                 entryOf (Room.communityCards scenario3_river) p e) /\
    (forall e, In e results -> entryScore e <= top) /\
    map fst paid = map playerId (filter (fun e => entryScore e =? top) results) /\
    paid <> [] /\
    map snd paid =
      map (share (Room.pot scenario3_river / Z.of_nat (List.length paid))
                 (Z.rem (Room.pot scenario3_river) (Z.of_nat (List.length paid))))
          (seq 0 (List.length paid)) /\
    sumZ (map snd paid) = Room.pot scenario3_river /\
    totalChips room' = totalChips scenario3_river + Room.pot scenario3_river /\
    List.length (Room.players room') = List.length (Room.players scenario3_river) /\
    (forall j q, nth_error (Room.players scenario3_river) j = Some q ->
       nth_error (Room.players room') j =
       Some (Player.set_chips (Player.chips q + winnings (Room.players scenario3_river) j paid) q)) /\
    (NoDup (map Player.id (Room.players scenario3_river)) ->
     NoDup (map fst paid) /\
     (forall pid amount, In (pid, amount) paid ->
        exists j q,
          nth_error (Room.players scenario3_river) j = Some q /\ Player.id q = pid /\
          Player.folded q = false /\
          nth_error (Room.players room') j =
          Some (Player.set_chips (Player.chips q + amount) q)) /\
     (forall j q, nth_error (Room.players scenario3_river) j = Some q ->
        ~ In (Player.id q) (map fst paid) ->
        nth_error (Room.players room') j = Some q)).
Proof.
  apply (showdown_pays_whole_pot_to_best scenario3_river).
  - vm_compute. lia.
  - change (0 <= 270). lia.
Defined.

(** ** The chip invariant is kept by every event *)

Lemma good_mono (cb cb' mb : Z) (p : Player.t) : cb <= cb' -> good cb mb p -> good cb' mb p.
Proof. unfold good. intros H [H1 H2]. split; lia. Qed.

Lemma Forall_replaceAt {A} (P : A -> Prop) (l : list A) (i : nat) (x : A) :
  Forall P l -> P x -> Forall P (replaceAt i x l).
Proof.
  intros H Hx. revert i. induction H as [|y l Hy Hl IH]; intros [|i]; simpl;
    constructor; auto.
Qed.

Lemma Forall_removeAt {A} (P : A -> Prop) (l : list A) (i : nat) :
  Forall P l -> Forall P (removeAt i l).
Proof.
  intros H. revert i. induction H as [|y l Hy Hl IH]; intros [|i]; simpl; auto.
Qed.

Lemma Forall_nth_error {A} (P : A -> Prop) (l : list A) (i : nat) (x : A) :
  Forall P l -> nth_error l i = Some x -> P x.
Proof.
  intros H Hn. apply nth_error_In in Hn. rewrite Forall_forall in H. auto.
Qed.

Lemma good_markAllIn (cb mb : Z) (p : Player.t) : good cb mb p -> good cb mb (markAllIn p).
Proof.
  unfold markAllIn. destruct (Player.chips p =? 0); [|auto].
  destruct p; exact (fun H => H).
Qed.

(** Fields other than the players, the pot and the stakes do not matter. *)
Lemma Inv_same (room room' : Room.t) :
  Room.players room' = Room.players room ->
  Room.pot room' = Room.pot room ->
  Room.currentBet room' = Room.currentBet room ->
  Room.minBet room' = Room.minBet room ->
  Inv room -> Inv room'.
Proof. unfold Inv. intros -> -> -> ->. exact (fun H => H). Qed.

Lemma Inv_addPlayerToRoom (room : Room.t) (id username : string) :
  Inv room -> Inv (fst (addPlayerToRoom room id username)).
Proof.
  intros HI. unfold addPlayerToRoom.
  destruct (existsb _ _); [exact HI|].
  destruct (_ <=? _)%nat; [exact HI|].
  destruct HI as (HF & Hp & Hc & Hm). destruct room; simpl in *.
  split; [|auto]. apply Forall_app. split; [exact HF|].
  constructor; [|constructor]. unfold good. simpl. lia.
Qed.

Lemma Inv_removePlayerFromRoom (room : Room.t) (id : string) :
  Inv room -> Inv (fst (removePlayerFromRoom room id)).
Proof.
  intros HI. unfold removePlayerFromRoom.
  destruct (findIndex _ _) as [i|]; [|exact HI].
  destruct HI as (HF & Hp & Hc & Hm). destruct room; simpl in *.
  split; [|auto]. apply Forall_removeAt. exact HF.
Qed.

Arguments markAllIn : simpl never.

Ltac sound_split :=
  split; [reflexivity | split; [reflexivity | split; [lia | split; [lia |]]]].

(** What an action does to the room and to the acting seat. *)
Lemma dispatchAction_sound (room : Room.t) (player : Player.t) (action : string) (amount : Z) :
  Inv room -> good (Room.currentBet room) (Room.minBet room) player ->
  forall room1 player1 result,
    dispatchAction room player action amount = (room1, player1, result) ->
    Room.players room1 = Room.players room /\
    Room.minBet room1 = Room.minBet room /\
    0 <= Room.pot room1 /\
    Room.currentBet room <= Room.currentBet room1 /\
    good (Room.currentBet room1) (Room.minBet room) player1.
Proof.
  intros (HF & Hp & Hc & Hm) [Hch Hbet] room1 player1 result.
  assert (Hsame : Room.players room = Room.players room /\
                  Room.minBet room = Room.minBet room /\
                  0 <= Room.pot room /\
                  Room.currentBet room <= Room.currentBet room /\
                  good (Room.currentBet room) (Room.minBet room) player)
    by (unfold good; repeat split; lia).
  unfold dispatchAction.
  destruct (String.eqb action "fold").
  { intros E. inversion E; subst. destruct player; exact Hsame. }
  destruct (String.eqb action "check").
  { destruct (_ >? _); intros E; inversion E; subst; exact Hsame. }
  destruct (String.eqb action "call").
  { unfold processCall.
    destruct (Room.currentBet room - Player.bet player <=? 0) eqn:Ec.
    - intros E. inversion E; subst. exact Hsame.
    - apply Z.leb_gt in Ec. cbv zeta. intros E. inversion E; subst. clear E.
      destruct room, player; simpl in *.
      sound_split. apply good_markAllIn. unfold good. simpl. lia. }
  destruct (String.eqb action "bet").
  { unfold processBet.
    destruct (Room.currentBet room >? 0) eqn:E1; [intros E; inversion E; subst; exact Hsame|].
    destruct (amount <? Room.minBet room) eqn:E2; [intros E; inversion E; subst; exact Hsame|].
    destruct (amount >? Player.chips player) eqn:E3;
      [intros E; inversion E; subst; exact Hsame|].
    rewrite Z.gtb_ltb in E1, E3. apply Z.ltb_ge in E1, E2, E3.
    cbv zeta. intros E. inversion E; subst. clear E.
    destruct room, player; simpl in *.
    sound_split. apply good_markAllIn. unfold good. simpl. lia. }
  destruct (String.eqb action "raise").
  { unfold processRaise. cbv zeta.
    destruct (_ >? _) eqn:E1; [intros E; inversion E; subst; exact Hsame|].
    destruct (amount <? Room.minBet room) eqn:E2; [intros E; inversion E; subst; exact Hsame|].
    rewrite Z.gtb_ltb in E1. apply Z.ltb_ge in E1, E2.
    intros E. inversion E; subst. clear E.
    destruct room, player; simpl in *.
    sound_split. apply good_markAllIn. unfold good. simpl. lia. }
  destruct (String.eqb action "allin").
  { unfold processAllIn.
    destruct (Player.chips player <=? 0) eqn:E1; [intros E; inversion E; subst; exact Hsame|].
    apply Z.leb_gt in E1. cbv zeta.
    destruct (_ >? _) eqn:E2; intros E; inversion E; subst; clear E;
      rewrite Z.gtb_ltb in E2;
      [apply Z.ltb_lt in E2 | apply Z.ltb_ge in E2];
      destruct room, player; simpl in *;
      unfold good; simpl; repeat split; try reflexivity; lia. }
  intros E. inversion E; subst. exact Hsame.
Qed.

Lemma Inv_processPlayerAction (room : Room.t) (pid action : string) (amount : Z) :
  Inv room -> Inv (fst (processPlayerAction room pid action amount)).
Proof.
  intros HI. unfold processPlayerAction.
  destruct (findPlayer _ _) as [[i player]|] eqn:Hf; [|exact HI].
  destruct (negb _); [exact HI|].
  destruct (Player.folded player); [exact HI|].
  destruct (dispatchAction room player action amount) as [[room1 player1] result] eqn:Hd.
  destruct (findPlayer_Some _ _ _ _ Hf) as (_ & Hn & _).
  pose proof HI as (HF & Hp & Hc & Hm).
  pose proof (Forall_nth_error _ _ _ _ HF Hn) as Hgood.
  destruct (dispatchAction_sound _ _ _ _ HI Hgood _ _ _ Hd)
    as (Hpl & Hmb & Hpot & Hcb & Hg1).
  assert (H2 : Inv (Room.set_players (replaceAt i player1 (Room.players room1)) room1)).
  { unfold Inv. destruct room1; simpl in *. subst.
    split; [|repeat split; lia].
    apply Forall_replaceAt; [|exact Hg1].
    eapply Forall_impl; [|exact HF]. intros q. apply good_mono. exact Hcb. }
  destruct result as [u|msg]; [|exact H2].
  destruct (includesId _ pid); [exact H2|].
  simpl. revert H2. apply Inv_same; destruct room1; reflexivity.
Qed.

Lemma Inv_moveToNextPlayer (room : Room.t) : Inv room -> Inv (moveToNextPlayer room).
Proof.
  unfold moveToNextPlayer.
  destruct (_ <=? 1)%nat; [|destruct (findIndex _ _)];
    apply Inv_same; destruct room; reflexivity.
Qed.

Lemma half_bounds (mb : Z) : 0 <= mb -> 0 <= mb / 2 <= mb.
Proof.
  intros H. split.
  - apply Z.div_pos; lia.
  - apply Z.div_le_upper_bound; lia.
Qed.

(** The blinds are capped by the stack; [postBlinds] runs on a room whose
    current bet has just been set to 0. *)
Lemma Inv_postBlinds (room : Room.t) :
  Inv room -> Room.currentBet room = 0 -> Inv (fst (postBlinds room)).
Proof.
  intros HI Hcb0. unfold postBlinds.
  destruct (findPlayer _ (Room.players room)) as [[i sbPlayer]|] eqn:Hf1; [|exact HI].
  cbv zeta.
  destruct (findPlayer_Some _ _ _ _ Hf1) as (_ & Hn1 & _).
  pose proof HI as (HF & Hp & Hc & Hm).
  pose proof (Forall_nth_error _ _ _ _ HF Hn1) as [Hch1 _].
  pose proof (half_bounds _ Hm) as Hhalf.
  set (sbPost := Z.min (Room.minBet room / 2) (Player.chips sbPlayer)).
  assert (HsbPost : 0 <= sbPost <= Player.chips sbPlayer /\ sbPost <= Room.minBet room)
    by (unfold sbPost; lia).
  set (room2 := Room.set_players _ (Room.set_pot _ room)).
  assert (H2 : Inv room2 /\ Room.currentBet room2 = 0 /\ Room.minBet room2 = Room.minBet room).
  { subst room2. unfold Inv. destruct room; simpl in *. subst.
    split; [|split; reflexivity]. split; [|repeat split; lia].
    apply Forall_replaceAt; [exact HF|]. apply good_markAllIn.
    destruct sbPlayer; unfold good; simpl in *. lia. }
  destruct H2 as (HI2 & Hcb2 & Hmb2).
  destruct (findPlayer _ (Room.players room2)) as [[j bbPlayer]|] eqn:Hf2; [|exact HI2].
  destruct (findPlayer_Some _ _ _ _ Hf2) as (_ & Hn2 & _).
  pose proof HI2 as (HF2 & Hp2 & Hc2 & Hm2).
  pose proof (Forall_nth_error _ _ _ _ HF2 Hn2) as [Hch2 _].
  set (bbPost := Z.min (Room.minBet room) (Player.chips bbPlayer)).
  assert (HbbPost : 0 <= bbPost <= Player.chips bbPlayer) by (unfold bbPost; lia).
  unfold Inv. destruct room2; simpl in *. subst.
  replace (Player.bet (Player.set_bet bbPost
             (Player.set_chips (Player.chips bbPlayer - bbPost) bbPlayer)))
    with bbPost by (destruct bbPlayer; reflexivity).
  split; [|repeat split; lia].
  apply Forall_replaceAt.
  - eapply Forall_impl; [|exact HF2]. intros q. apply good_mono. lia.
  - apply good_markAllIn. destruct bbPlayer; unfold good; simpl in *. lia.
Qed.

Lemma Inv_assignDealerAndBlinds (room : Room.t) :
  Inv room -> Room.currentBet room = 0 -> Inv (fst (assignDealerAndBlinds room)).
Proof.
  intros HI Hcb0. unfold assignDealerAndBlinds.
  destruct (_ <? 2)%nat; [exact HI|]. cbv zeta.
  destruct (idAt _ _) as [sb|msg].
  2: { revert HI. apply Inv_same; destruct room; reflexivity. }
  destruct (idAt _ _) as [bb|msg].
  2: { revert HI. apply Inv_same; destruct room; reflexivity. }
  apply Inv_postBlinds.
  - revert HI. apply Inv_same; destruct room; reflexivity.
  - destruct room; exact Hcb0.
Qed.

Lemma dealRound_Forall (P : Player.t -> Prop) (players : list Player.t) :
  (forall p cards, P p -> P (Player.set_hand cards p)) ->
  forall deck, Forall P players -> Forall P (snd (dealRound deck players)).
Proof.
  intros Hset. induction players as [|p players IH]; intros deck HF; simpl.
  - constructor.
  - inversion HF as [|? ? Hp Hrest]; subst.
    destruct (pop deck) as [[card deck1]|].
    + specialize (IH deck1 Hrest). destruct (dealRound deck1 players) as [deck2 rest1].
      simpl in *. constructor; auto.
    + specialize (IH deck Hrest). destruct (dealRound deck players) as [deck2 rest1].
      simpl in *. constructor; auto.
Qed.

Lemma Inv_dealHoleCards (room : Room.t) : Inv room -> Inv (dealHoleCards room).
Proof.
  intros (HF & Hp & Hc & Hm). unfold dealHoleCards.
  assert (Hset : forall p cards,
             good (Room.currentBet room) (Room.minBet room) p ->
             good (Room.currentBet room) (Room.minBet room) (Player.set_hand cards p))
    by (intros p cards H; destruct p; exact H).
  pose proof (dealRound_Forall _ _ Hset (Room.deck room) HF) as H1.
  destruct (dealRound (Room.deck room) (Room.players room)) as [deck1 players1].
  simpl snd in H1.
  pose proof (dealRound_Forall _ _ Hset deck1 H1) as H2.
  destruct (dealRound deck1 players1) as [deck2 players2].
  unfold Inv. destruct room; simpl in *.
  split; [exact H2 | repeat split; assumption].
Qed.

Lemma Inv_setTurnFrom (room : Room.t) (first : nat) :
  Inv room -> Inv (fst (setTurnFrom room first)).
Proof.
  intros HI. unfold setTurnFrom.
  destruct (seekActive _ _ _ _) as [k|]; [|exact HI].
  destruct (idAt _ _); [|exact HI].
  revert HI. apply Inv_same; destruct room; reflexivity.
Qed.

Lemma Inv_setFirstPlayerToAct (room : Room.t) :
  Inv room -> Inv (fst (setFirstPlayerToAct room)).
Proof.
  intros HI. unfold setFirstPlayerToAct.
  destruct (_ =? 0)%nat; [exact HI | apply Inv_setTurnFrom; exact HI].
Qed.

Lemma Inv_setFirstPlayerPostFlop (room : Room.t) :
  Inv room -> Inv (fst (setFirstPlayerPostFlop room)).
Proof.
  intros HI. unfold setFirstPlayerPostFlop.
  destruct (_ =? 0)%nat; [exact HI | apply Inv_setTurnFrom; exact HI].
Qed.

Lemma Inv_startNewHand (rand : nat -> nat) (room : Room.t) :
  Inv room -> Inv (fst (startNewHand rand room)).
Proof.
  intros HI. unfold startNewHand.
  destruct (_ <? 2)%nat; [exact HI|]. cbv zeta.
  set (room9 := Room.set_deck _ _).
  assert (H9 : Inv room9 /\ Room.currentBet room9 = 0).
  { destruct HI as (HF & Hp & Hc & Hm). subst room9. unfold Inv.
    destruct room; simpl in *. split; [|reflexivity].
    split; [|repeat split; lia].
    apply Forall_map. eapply Forall_impl; [|exact HF].
    intros p [Hch _]. destruct p; unfold good; simpl in *. lia. }
  destruct H9 as [HI9 Hcb9].
  pose proof (Inv_assignDealerAndBlinds _ HI9 Hcb9) as H10.
  destruct (assignDealerAndBlinds room9) as [room10 [u|msg]]; simpl in *; [|exact H10].
  apply Inv_setFirstPlayerToAct. apply Inv_dealHoleCards. exact H10.
Qed.

Lemma Inv_payWinners (winners : list ShowdownEntry) :
  forall (room : Room.t) (winAmount remainder : Z) (index : nat),
  Inv room -> 0 <= winAmount ->
  Inv (fst (payWinners room winAmount remainder index winners)).
Proof.
  induction winners as [|w winners IH]; intros room q r k HI Hq; simpl; [exact HI|].
  destruct (findPlayer _ _) as [[i player]|] eqn:Hf; [|exact HI].
  cbv zeta.
  destruct (findPlayer_Some _ _ _ _ Hf) as (_ & Hn & _).
  set (room1 := Room.set_players _ room).
  assert (H1 : Inv room1).
  { pose proof HI as (HF & Hp & Hc & Hm).
    pose proof (Forall_nth_error _ _ _ _ HF Hn) as [Hch Hbet].
    subst room1. unfold Inv. destruct room; simpl in *.
    split; [|auto]. apply Forall_replaceAt; [exact HF|].
    destruct player; unfold good; simpl in *.
    destruct (Z.of_nat k <? r); lia. }
  specialize (IH room1 q r (S k) H1 Hq).
  destruct (payWinners room1 q r (S k) winners) as [room2 [paid|msg]]; exact IH.
Qed.

Lemma Inv_processShowdown (room : Room.t) : Inv room -> Inv (fst (processShowdown room)).
Proof.
  intros HI. unfold processShowdown.
  destruct (_ =? 1)%nat.
  - destruct (findPlayer _ _) as [[i winner]|] eqn:Hf; [|exact HI].
    destruct (findPlayer_Some _ _ _ _ Hf) as (_ & Hn & _).
    pose proof HI as (HF & Hp & Hc & Hm).
    pose proof (Forall_nth_error _ _ _ _ HF Hn) as [Hch Hbet].
    unfold Inv. destruct room; simpl in *.
    split; [|auto]. apply Forall_replaceAt; [exact HF|].
    destruct winner; unfold good; simpl in *. lia.
  - destruct (evaluateAll _ _) as [entries|msg]; [|exact HI].
    cbv zeta.
    match goal with
    | |- Inv (fst (ebind (payWinners room ?q ?r ?k ?ws) _)) =>
        assert (Hq : 0 <= q);
        [| pose proof (Inv_payWinners ws room q r k HI Hq) as H1;
           destruct (payWinners room q r k ws) as [room1 [paid|msg]]; exact H1]
    end.
    destruct HI as (_ & Hp & _).
    match goal with
    | |- 0 <= _ / Z.of_nat ?n =>
        destruct n; [rewrite Z.div_0_r; lia | apply Z.div_pos; lia]
    end.
Qed.

Lemma Inv_moveToNextPhase (room : Room.t) : Inv room -> Inv (fst (moveToNextPhase room)).
Proof.
  intros HI. unfold moveToNextPhase.
  assert (Hreset : forall room0, Inv room0 ->
            Inv (fst (ebind (setFirstPlayerPostFlop
                               (Room.set_players
                                  (map (Player.set_bet 0)
                                       (Room.players
                                          (Room.set_playersActedThisRound []
                                             (Room.set_lastRaiser None
                                                (Room.set_currentBet 0 room0)))))
                                  (Room.set_playersActedThisRound []
                                     (Room.set_lastRaiser None
                                        (Room.set_currentBet 0 room0)))))
                            (fun room5 (_ : unit) => (room5, Ok (@None ShowdownResult)))))).
  { intros room0 (HF & Hp & Hc & Hm).
    match goal with
    | |- Inv (fst (ebind (setFirstPlayerPostFlop ?r4) _)) =>
        assert (H4 : Inv r4);
        [| pose proof (Inv_setFirstPlayerPostFlop _ H4) as H5;
           destruct (setFirstPlayerPostFlop r4) as [room5 [u|msg]]; exact H5]
    end.
    unfold Inv. destruct room0; simpl in *.
    split; [|repeat split; lia].
    apply Forall_map. eapply Forall_impl; [|exact HF].
    intros p [Hch _]. destruct p; unfold good; simpl in *. lia. }
  assert (Hdeal : forall n room0, Inv room0 -> Inv (burnAndDeal n room0)).
  { intros n room0 H0. unfold burnAndDeal.
    destruct (pop _) as [[burnt deck1]|]; [|exact H0].
    destruct (popN n deck1) as [cards deck2].
    revert H0. apply Inv_same; destruct room0; reflexivity. }
  assert (Hphase : forall ph room0, Inv room0 -> Inv (Room.set_phase ph room0)).
  { intros ph room0. apply Inv_same; destruct room0; reflexivity. }
  destruct (Room.phase room).
  - apply Hreset. exact HI.
  - apply Hreset. apply Hphase. unfold dealFlop. destruct (_ <=? _)%nat; auto.
  - apply Hreset. apply Hphase. unfold dealTurn. destruct (_ <=? _)%nat; auto.
  - apply Hreset. apply Hphase. unfold dealRiver. destruct (_ <=? _)%nat; auto.
  - pose proof (Inv_processShowdown _ (Hphase showdown room HI)) as Hs.
    destruct (processShowdown (Room.set_phase showdown room)) as [room1 [res|msg]]; exact Hs.
  - apply Hreset. exact HI.
Qed.

Lemma Inv_applyEvent (room : Room.t) (e : Event) : Inv room -> Inv (applyEvent room e).
Proof.
  intros HI. destruct e; simpl.
  - apply Inv_addPlayerToRoom. exact HI.
  - apply Inv_removePlayerFromRoom. exact HI.
  - apply Inv_startNewHand. exact HI.
  - apply Inv_processPlayerAction. exact HI.
  - apply Inv_moveToNextPlayer. exact HI.
  - apply Inv_moveToNextPhase. exact HI.
  - apply Inv_processShowdown. exact HI.
Qed.

Lemma Inv_run (events : list Event) : forall room, Inv room -> Inv (run events room).
Proof.
  unfold run. induction events as [|e events IH]; intros room HI; simpl.
  - exact HI.
  - apply IH. apply Inv_applyEvent. exact HI.
Qed.

Lemma Inv_createInitialGameState (roomId name creatorId : string) (maxPlayers : nat)
    (minBet maxBet : Z) :
  0 <= minBet -> Inv (createInitialGameState roomId name creatorId maxPlayers minBet maxBet).
Proof. intros H. unfold Inv. simpl. repeat split; try lia. constructor. Qed.

(** C7, as amended.  In a room created with a non-negative minimum bet,
    after any sequence of events (seating and removing players, starting a
    hand with its blinds, fold, check, call, bet, raise, all-in and any
    other action string, turn rotation, phase changes and showdown
    payouts), whether the calls return or throw, every seat holds a
    non-negative number of chips. *)
Theorem chips_never_negative (roomId name creatorId : string) (maxPlayers : nat)
    (minBet maxBet : Z) (events : list Event) :
  0 <= minBet ->
  Forall (fun p => 0 <= Player.chips p)
         (Room.players
            (run events
                 (createInitialGameState roomId name creatorId maxPlayers minBet maxBet))).
Proof.
  intros Hmin.
  destruct (Inv_run events _ (Inv_createInitialGameState roomId name creatorId maxPlayers
                                minBet maxBet Hmin)) as (HF & _).
  eapply Forall_impl; [|exact HF]. intros p [H _]. exact H.
Qed.

Lemma chips_never_negative_witness :
  Forall (fun p => 0 <= Player.chips p)
         (Room.players
            (run [AddPlayer "P1" "P1"; AddPlayer "P2" "P2"; AddPlayer "P3" "P3";
                  StartNewHand rand0;
                  PlayerAction "P1" "raise" 5000;
                  PlayerAction "P1" "call" 0; NextPlayer;
                  PlayerAction "P2" "allin" 0; NextPlayer;
                  PlayerAction "P3" "fold" 0; NextPlayer;
                  PlayerAction "P1" "call" 0;
                  NextPhase; NextPhase; NextPhase; NextPhase]
                 (createInitialGameState "room" "table" "P1" 6 10 1000))).
Proof.
  apply chips_never_negative. lia.
Defined.

(** C7 as stated fails.  [createInitialGameState] takes any minimum bet.
    At a table created with a minimum bet of -2000 the blinds are -1000
    and -2000, so that P1 and P2 hold 2000 and 3000 chips over a pot of
    -3000; P1's raise by -2000 is accepted and brings the pot to -6000;
    P2 folds, and the showdown adds the pot to P1's 5000 chips, which
    leaves P1 with -1000. *)
Lemma negative_minBet_gives_negative_chips :
  Room.minBet negativeStakes = -2000 /\
  chipsOf negativeStakes = [("P1", -1000); ("P2", 3000)].
Proof. vm_compute. split; reflexivity. Qed.

(** ** The loop bound of [seekActive] *)

(** After [k] steps from [first] the loop stands at seat [(first + k) mod n];
    with fuel for the seats not yet visited it ends on a seat of the table
    and never reaches the bound. *)
Lemma seekActive_in_range (players : list Player.t) (first : nat) :
  (first < List.length players)%nat ->
  forall fuel k,
    (k < List.length players)%nat ->
    (List.length players <= fuel + k + 1)%nat ->
    exists i,
      seekActive players first fuel ((first + k) mod List.length players) = Ok i /\
      (i < List.length players)%nat.
Proof.
  intros Hfirst. set (n := List.length players) in *.
  assert (Hn : n <> 0%nat) by lia.
  induction fuel as [|fuel IH]; intros k Hk Hfuel.
  - assert (Hcur : ((first + k) mod n < n)%nat) by (apply Nat.mod_upper_bound; exact Hn).
    simpl. destruct (nth_error players ((first + k) mod n)) as [p|] eqn:Hp.
    2: { apply nth_error_None in Hp. fold n in Hp. lia. }
    destruct (sitsOut p); [|eauto].
    assert (Hk' : k = (n - 1)%nat) by lia.
    assert (Hnext : (((first + k) mod n + 1) mod n = first)%nat).
    { rewrite Nat.Div0.add_mod_idemp_l.
      replace (first + k + 1)%nat with (first + 1 * n)%nat by lia.
      rewrite Nat.Div0.mod_add. apply Nat.mod_small. exact Hfirst. }
    fold n. rewrite Hnext, Nat.eqb_refl. eauto.
  - assert (Hcur : ((first + k) mod n < n)%nat) by (apply Nat.mod_upper_bound; exact Hn).
    simpl. destruct (nth_error players ((first + k) mod n)) as [p|] eqn:Hp.
    2: { apply nth_error_None in Hp. fold n in Hp. lia. }
    destruct (sitsOut p); [|eauto].
    fold n.
    assert (Hnext : (((first + k) mod n + 1) mod n = (first + (k + 1)) mod n)%nat).
    { rewrite Nat.Div0.add_mod_idemp_l. f_equal. lia. }
    rewrite Hnext.
    destruct ((first + (k + 1)) mod n =? first)%nat eqn:Hb.
    + apply Nat.eqb_eq in Hb. exists first. rewrite Hb. split; [reflexivity | exact Hfirst].
    + assert (Hk1 : (k + 1 < n)%nat).
      { destruct (Nat.lt_ge_cases (k + 1) n) as [H|H]; [exact H|]. exfalso.
        assert (k + 1 = n)%nat by lia.
        apply Nat.eqb_neq in Hb. apply Hb.
        replace (first + (k + 1))%nat with (first + 1 * n)%nat by lia.
        rewrite Nat.Div0.mod_add. apply Nat.mod_small. exact Hfirst. }
      apply IH; lia.
Qed.

(** [setTurnFrom] is called with an index taken modulo the number of
    seats: its loop ends and it sets the turn. *)
Lemma setTurnFrom_Ok (room : Room.t) (first : nat) :
  (first < List.length (Room.players room))%nat ->
  exists pid,
    setTurnFrom room first = (Room.set_currentTurn (Some pid) room, Ok tt) /\
    In pid (map Player.id (Room.players room)).
Proof.
  intros Hfirst. unfold setTurnFrom.
  destruct (seekActive_in_range _ _ Hfirst (List.length (Room.players room)) 0)
    as (i & Hi & Hlt); [lia | lia |].
  rewrite Nat.add_0_r, (Nat.mod_small _ _ Hfirst) in Hi. rewrite Hi.
  unfold idAt. destruct (nth_error (Room.players room) i) as [p|] eqn:Hp.
  - exists (Player.id p). split; [reflexivity|].
    apply in_map. apply nth_error_In in Hp. exact Hp.
  - apply nth_error_None in Hp. lia.
Qed.

(** ** Starting a hand does not throw *)

Lemma findPlayer_idIs (sb : string) (players : list Player.t) :
  In sb (map Player.id players) ->
  exists i p, findPlayer (fun q => idIs (Some sb) (Player.id q)) players = Some (i, p).
Proof.
  intros H.
  assert (Hi : forall k, exists i,
             findIndexFrom (fun q => idIs (Some sb) (Player.id q)) players k = Some i).
  { induction players as [|q players IH]; simpl in *; intros k; [destruct H|].
    destruct (String.eqb sb (Player.id q)) eqn:E; [eauto|].
    destruct H as [H|H]; [|apply IH; exact H].
    rewrite H, String.eqb_refl in E. discriminate. }
  destruct (Hi 0%nat) as (i & Hidx).
  destruct (findIndex_findPlayer _ _ _ Hidx) as (p & Hp). eauto.
Qed.

Lemma postBlinds_Ok (room : Room.t) (sb bb : string) :
  Room.smallBlind room = Some sb -> Room.bigBlind room = Some bb ->
  In sb (map Player.id (Room.players room)) ->
  In bb (map Player.id (Room.players room)) ->
  exists room',
    postBlinds room = (room', Ok tt) /\
    map Player.id (Room.players room') = map Player.id (Room.players room).
Proof.
  intros Hsb Hbb Isb Ibb. unfold postBlinds. rewrite Hsb.
  destruct (findPlayer_idIs sb _ Isb) as (i & p & Hf). rewrite Hf. cbv zeta.
  destruct (findPlayer_Some _ _ _ _ Hf) as (_ & Hn & _).
  set (p2 := markAllIn _).
  assert (Hid2 : Player.id p2 = Player.id p).
  { subst p2. unfold markAllIn. destruct (_ =? 0); destruct p; reflexivity. }
  set (room2 := Room.set_players _ _).
  assert (Hids2 : map Player.id (Room.players room2) = map Player.id (Room.players room)).
  { subst room2. destruct room; simpl in *. apply (ids_replaceAt _ _ p); assumption. }
  assert (Hbb2 : Room.bigBlind room2 = Some bb) by (subst room2; destruct room; exact Hbb).
  rewrite Hbb2.
  destruct (findPlayer_idIs bb (Room.players room2)) as (j & q & Hg);
    [rewrite Hids2; exact Ibb|].
  rewrite Hg.
  destruct (findPlayer_Some _ _ _ _ Hg) as (_ & Hm & _).
  eexists. split; [reflexivity|].
  rewrite <- Hids2. destruct room2; simpl in *.
  apply (ids_replaceAt _ _ q); [exact Hm|].
  unfold markAllIn. destruct (_ =? 0); destruct q; reflexivity.
Qed.

Lemma idAt_Ok (players : list Player.t) (k : nat) :
  (k < List.length players)%nat ->
  exists pid, idAt players k = Ok pid /\ In pid (map Player.id players).
Proof.
  intros Hk. unfold idAt. destruct (nth_error players k) as [p|] eqn:Hp.
  - exists (Player.id p). split; [reflexivity|]. apply in_map.
    apply nth_error_In in Hp. exact Hp.
  - apply nth_error_None in Hp. lia.
Qed.

Lemma assignDealerAndBlinds_Ok (room : Room.t) :
  exists room',
    assignDealerAndBlinds room = (room', Ok tt) /\
    map Player.id (Room.players room') = map Player.id (Room.players room).
Proof.
  unfold assignDealerAndBlinds.
  set (active := filter (fun p => Player.chips p >? 0) (Room.players room)).
  destruct (List.length active <? 2)%nat eqn:Hn; [eauto|].
  apply Nat.ltb_ge in Hn. cbv zeta.
  assert (Hsub : forall pid, In pid (map Player.id active) ->
                             In pid (map Player.id (Room.players room))).
  { intros pid H. apply in_map_iff in H. destruct H as (p & <- & Hp).
    apply filter_In in Hp. apply in_map. apply Hp. }
  assert (Hmod : forall x, (x mod List.length active < List.length active)%nat)
    by (intros x; apply Nat.mod_upper_bound; lia).
  set (d := Room.dealerIndex (Room.set_dealerIndex _ room)).
  assert (Hd : (d < List.length active)%nat) by (subst d; destruct room; apply Hmod).
  destruct (idAt_Ok active (if (List.length active =? 2)%nat then d
                            else ((d + 1) mod List.length active)%nat))
    as (sb & -> & Isb); [destruct (_ =? 2)%nat; [exact Hd | apply Hmod]|].
  destruct (idAt_Ok active (if (List.length active =? 2)%nat
                            then ((d + 1) mod List.length active)%nat
                            else ((d + 2) mod List.length active)%nat))
    as (bb & -> & Ibb); [destruct (_ =? 2)%nat; apply Hmod|].
  destruct (postBlinds_Ok
              (Room.set_bigBlind (Some bb)
                 (Room.set_smallBlind (Some sb)
                    (Room.set_dealerIndex
                       (Room.dealerIndex room mod List.length active) room))) sb bb)
    as (room' & E & Hids).
  - destruct room; reflexivity.
  - destruct room; reflexivity.
  - destruct room; simpl. apply Hsub. exact Isb.
  - destruct room; simpl. apply Hsub. exact Ibb.
  - exists room'. split; [exact E|]. rewrite Hids. destruct room; reflexivity.
Qed.

Lemma dealRound_length (players : list Player.t) :
  forall deck, List.length (snd (dealRound deck players)) = List.length players.
Proof.
  induction players as [|p players IH]; intros deck; simpl; [reflexivity|].
  destruct (pop deck) as [[card deck1]|].
  - specialize (IH deck1). destruct (dealRound deck1 players). simpl in *. lia.
  - specialize (IH deck). destruct (dealRound deck players). simpl in *. lia.
Qed.

Lemma dealHoleCards_length (room : Room.t) :
  List.length (Room.players (dealHoleCards room)) = List.length (Room.players room).
Proof.
  unfold dealHoleCards.
  pose proof (dealRound_length (Room.players room) (Room.deck room)) as H1.
  destruct (dealRound (Room.deck room) (Room.players room)) as [deck1 players1].
  simpl snd in H1.
  pose proof (dealRound_length players1 deck1) as H2.
  destruct (dealRound deck1 players1) as [deck2 players2].
  simpl snd in H2. destruct room; simpl in *. lia.
Qed.

Lemma setFirstPlayerToAct_Ok (room : Room.t) :
  Room.players room <> [] ->
  exists room', setFirstPlayerToAct room = (room', Ok tt).
Proof.
  intros Hne. unfold setFirstPlayerToAct.
  destruct (_ =? 0)%nat; [eauto|].
  match goal with
  | |- exists r, setTurnFrom room ?first = _ =>
      destruct (setTurnFrom_Ok room first) as (pid & E & _)
  end.
  - apply Nat.mod_upper_bound. destruct (Room.players room); [congruence | simpl; lia].
  - rewrite E. eauto.
Qed.

(** With at least two players seated, [startNewHand] returns: the blinds
    are found again by their ids, and the search for the first seat to act
    ends on a seat of the table. *)
Lemma startNewHand_Ok (rand : nat -> nat) (room : Room.t) :
  (2 <= List.length (Room.players room))%nat ->
  exists room', startNewHand rand room = (room', Ok tt).
Proof.
  intros Hlen. unfold startNewHand.
  destruct (_ <? 2)%nat eqn:E; [apply Nat.ltb_lt in E; lia|]. cbv zeta.
  set (room9 := Room.set_deck _ _).
  assert (H9 : List.length (Room.players room9) = List.length (Room.players room)).
  { subst room9. destruct room; simpl. apply length_map. }
  destruct (assignDealerAndBlinds_Ok room9) as (room10 & -> & Hids). simpl.
  apply setFirstPlayerToAct_Ok.
  assert (H10 : List.length (Room.players (dealHoleCards room10)) =
                List.length (Room.players room)).
  { rewrite dealHoleCards_length.
    rewrite <- (length_map Player.id (Room.players room10)), Hids, length_map. exact H9. }
  intros Hnil. rewrite Hnil in H10. simpl in H10. lia.
Qed.

(** * Part III: further properties of the code *)

(** ** What an action does to the chips and to the other seats *)

Lemma chips_markAllIn (p : Player.t) : Player.chips (markAllIn p) = Player.chips p.
Proof. unfold markAllIn. destruct (_ =? 0); destruct p; reflexivity. Qed.

Lemma id_markAllIn (p : Player.t) : Player.id (markAllIn p) = Player.id p.
Proof. unfold markAllIn. destruct (_ =? 0); destruct p; reflexivity. Qed.

(** The switch of [processPlayerAction] moves chips between the acting
    seat and the pot only, and keeps the seat's id. *)
Lemma dispatchAction_accounts (room room1 : Room.t) (player player1 : Player.t)
    (action : string) (amount : Z) (result : outcome unit) :
  dispatchAction room player action amount = (room1, player1, result) ->
  Room.players room1 = Room.players room /\
  Player.id player1 = Player.id player /\
  Player.chips player1 + Room.pot room1 = Player.chips player + Room.pot room /\
  dealtState room1 = dealtState room.
Proof.
  assert (Hsame : Room.players room = Room.players room /\
                  Player.id player = Player.id player /\
                  Player.chips player + Room.pot room = Player.chips player + Room.pot room /\
                  dealtState room = dealtState room) by (repeat split).
  unfold dispatchAction.
  destruct (String.eqb action "fold").
  { intros E. inversion E; subst. destruct player; exact Hsame. }
  destruct (String.eqb action "check").
  { destruct (_ >? _); intros E; inversion E; subst; exact Hsame. }
  destruct (String.eqb action "call").
  { unfold processCall. destruct (_ <=? 0); [intros E; inversion E; subst; exact Hsame|].
    cbv zeta. intros E. inversion E; subst. clear E.
    rewrite chips_markAllIn, id_markAllIn.
    destruct room, player; simpl. repeat split; lia. }
  destruct (String.eqb action "bet").
  { unfold processBet.
    destruct (_ >? 0); [intros E; inversion E; subst; exact Hsame|].
    destruct (_ <? _); [intros E; inversion E; subst; exact Hsame|].
    destruct (_ >? _); [intros E; inversion E; subst; exact Hsame|].
    cbv zeta. intros E. inversion E; subst. clear E.
    rewrite chips_markAllIn, id_markAllIn.
    destruct room, player; simpl. repeat split; lia. }
  destruct (String.eqb action "raise").
  { unfold processRaise. cbv zeta.
    destruct (_ >? _); [intros E; inversion E; subst; exact Hsame|].
    destruct (_ <? _); [intros E; inversion E; subst; exact Hsame|].
    intros E. inversion E; subst. clear E.
    rewrite chips_markAllIn, id_markAllIn.
    destruct room, player; simpl. repeat split; lia. }
  destruct (String.eqb action "allin").
  { unfold processAllIn.
    destruct (_ <=? 0); [intros E; inversion E; subst; exact Hsame|].
    cbv zeta. destruct (_ >? _); intros E; inversion E; subst; clear E;
      destruct room, player; simpl; repeat split; lia. }
  intros E. inversion E; subst. exact Hsame.
Qed.

(** X1.  No action creates or destroys chips: whatever the player, the
    action name and the amount, and whether the call returns or throws, the
    chips of all seats plus the pot are the same after
    [processPlayerAction] as before. *)
Theorem action_conserves_chips (room : Room.t) (pid action : string) (amount : Z) :
  totalChips (fst (processPlayerAction room pid action amount)) +
  Room.pot (fst (processPlayerAction room pid action amount)) =
  totalChips room + Room.pot room.
Proof.
  unfold processPlayerAction.
  destruct (findPlayer _ _) as [[i player]|] eqn:Hf; [|reflexivity].
  destruct (negb _); [reflexivity|].
  destruct (Player.folded player); [reflexivity|].
  destruct (dispatchAction room player action amount) as [[room1 player1] result] eqn:Hd.
  destruct (dispatchAction_accounts _ _ _ _ _ _ _ Hd) as (Hpl & _ & Hacc & _).
  destruct (findPlayer_Some _ _ _ _ Hf) as (_ & Hn & _).
  assert (H2 : totalChips (Room.set_players (replaceAt i player1 (Room.players room1)) room1)
               + Room.pot room1 = totalChips room + Room.pot room).
  { unfold totalChips. rewrite Hpl.
    replace (Room.players (Room.set_players (replaceAt i player1 (Room.players room)) room1))
      with (replaceAt i player1 (Room.players room)) by (destruct room1; reflexivity).
    rewrite (sumZ_replaceAt _ _ _ _ Hn). lia. }
  destruct result as [u|msg]; [destruct (includesId _ pid)|];
    simpl; unfold totalChips in *; destruct room1; simpl in *; exact H2.
Qed.

(** X2.  An action touches the acting seat only.  The seats of other
    players and every folded seat are the same after the call, the number
    of seats is the same, and the phase, the deck, the board, the dealer
    index, the blinds and the turn are left as they were: the engine does
    not pass the turn on. *)
Theorem action_changes_only_the_actor (room : Room.t) (pid action : string) (amount : Z) :
  let room' := fst (processPlayerAction room pid action amount) in
  dealtState room' = dealtState room /\
  List.length (Room.players room') = List.length (Room.players room) /\
  forall j q, nth_error (Room.players room) j = Some q ->
              Player.id q <> pid \/ Player.folded q = true ->
              nth_error (Room.players room') j = Some q.
Proof.
  cbv zeta. unfold processPlayerAction.
  destruct (findPlayer _ _) as [[i player]|] eqn:Hf; [|simpl; auto].
  destruct (negb _); [simpl; auto|].
  destruct (Player.folded player) eqn:Hfold; [simpl; auto|].
  destruct (dispatchAction room player action amount) as [[room1 player1] result] eqn:Hd.
  destruct (dispatchAction_accounts _ _ _ _ _ _ _ Hd) as (Hpl & _ & _ & Hdealt).
  destruct (findPlayer_Some _ _ _ _ Hf) as (_ & Hn & Hid). apply hasId_eq in Hid.
  assert (H2 : dealtState (Room.set_players (replaceAt i player1 (Room.players room1)) room1)
                 = dealtState room /\
               List.length (replaceAt i player1 (Room.players room1)) =
                 List.length (Room.players room) /\
               forall j q, nth_error (Room.players room) j = Some q ->
                           Player.id q <> pid \/ Player.folded q = true ->
                           nth_error (replaceAt i player1 (Room.players room1)) j = Some q).
  { split; [rewrite <- Hdealt; destruct room1; reflexivity|].
    rewrite Hpl. split; [apply length_replaceAt|].
    intros j q Hq Hor. rewrite nth_error_replaceAt_ne; [exact Hq|].
    intros ->. rewrite Hn in Hq. injection Hq as <-. destruct Hor; congruence. }
  destruct result as [u|msg]; [destruct (includesId _ pid)|];
    simpl; destruct room1; simpl in *; exact H2.
Qed.

(** The pot does not shrink either, in a room that keeps the chip
    invariant. *)
Lemma dispatchAction_pot (room : Room.t) (player : Player.t) (action : string) (amount : Z) :
  Inv room -> good (Room.currentBet room) (Room.minBet room) player ->
  forall room1 player1 result,
    dispatchAction room player action amount = (room1, player1, result) ->
    Room.pot room <= Room.pot room1.
Proof.
  intros (HF & Hp & Hc & Hm) [Hch Hbet] room1 player1 result.
  unfold dispatchAction.
  destruct (String.eqb action "fold"); [intros E; inversion E; subst; lia|].
  destruct (String.eqb action "check").
  { destruct (_ >? _); intros E; inversion E; subst; lia. }
  destruct (String.eqb action "call").
  { unfold processCall.
    destruct (Room.currentBet room - Player.bet player <=? 0) eqn:Ec;
      [intros E; inversion E; subst; lia|].
    apply Z.leb_gt in Ec. cbv zeta. intros E. inversion E; subst. clear E.
    destruct room; simpl in *. lia. }
  destruct (String.eqb action "bet").
  { unfold processBet.
    destruct (Room.currentBet room >? 0) eqn:E1; [intros E; inversion E; subst; lia|].
    destruct (amount <? Room.minBet room) eqn:E2; [intros E; inversion E; subst; lia|].
    destruct (amount >? Player.chips player) eqn:E3; [intros E; inversion E; subst; lia|].
    apply Z.ltb_ge in E2. cbv zeta. intros E. inversion E; subst. clear E.
    destruct room; simpl in *. lia. }
  destruct (String.eqb action "raise").
  { unfold processRaise. cbv zeta.
    destruct (_ >? _) eqn:E1; [intros E; inversion E; subst; lia|].
    destruct (amount <? Room.minBet room) eqn:E2; [intros E; inversion E; subst; lia|].
    apply Z.ltb_ge in E2. intros E. inversion E; subst. clear E.
    destruct room; simpl in *. lia. }
  destruct (String.eqb action "allin").
  { unfold processAllIn.
    destruct (Player.chips player <=? 0) eqn:E1; [intros E; inversion E; subst; lia|].
    cbv zeta. destruct (_ >? _); intros E; inversion E; subst; clear E;
      destruct room; simpl in *; lia. }
  intros E. inversion E; subst. lia.
Qed.

(** X3.  In a room created with a non-negative minimum bet and driven by
    any sequence of events, an action never lowers the pot and never
    lowers the current bet. *)
Theorem action_never_lowers_pot_or_bet (roomId name creatorId : string) (maxPlayers : nat)
    (minBet maxBet : Z) (events : list Event) (pid action : string) (amount : Z) :
  0 <= minBet ->
  let room := run events
                  (createInitialGameState roomId name creatorId maxPlayers minBet maxBet) in
  let room' := fst (processPlayerAction room pid action amount) in
  Room.pot room <= Room.pot room' /\ Room.currentBet room <= Room.currentBet room'.
Proof.
  intros Hmin. cbv zeta.
  set (room := run events _).
  assert (HI : Inv room).
  { apply Inv_run. apply Inv_createInitialGameState. exact Hmin. }
  unfold processPlayerAction.
  destruct (findPlayer _ _) as [[i player]|] eqn:Hf; [|simpl; lia].
  destruct (negb _); [simpl; lia|].
  destruct (Player.folded player); [simpl; lia|].
  destruct (dispatchAction room player action amount) as [[room1 player1] result] eqn:Hd.
  destruct (findPlayer_Some _ _ _ _ Hf) as (_ & Hn & _).
  pose proof HI as (HF & _).
  pose proof (Forall_nth_error _ _ _ _ HF Hn) as Hgood.
  destruct (dispatchAction_sound _ _ _ _ HI Hgood _ _ _ Hd) as (_ & _ & _ & Hcb & _).
  pose proof (dispatchAction_pot _ _ _ _ HI Hgood _ _ _ Hd) as Hpot.
  destruct result as [u|msg]; [destruct (includesId _ pid)|];
    simpl; destruct room1; simpl in *; lia.
Qed.

Lemma action_never_lowers_pot_or_bet_witness :
  let room := run [AddPlayer "P1" "P1"; AddPlayer "P2" "P2"; AddPlayer "P3" "P3";
                   StartNewHand rand0]
                  (createInitialGameState "room" "table" "P1" 6 10 1000) in
  let room' := fst (processPlayerAction room "P1" "raise" 40) in
  Room.pot room <= Room.pot room' /\ Room.currentBet room <= Room.currentBet room'.
Proof.
  apply (action_never_lowers_pot_or_bet "room" "table" "P1" 6 10 1000
           [AddPlayer "P1" "P1"; AddPlayer "P2" "P2"; AddPlayer "P3" "P3";
            StartNewHand rand0] "P1" "raise" 40).
  lia.
Defined.

(** ** Seats: one per player, never more than the limit *)

Lemma sameSeating_refl (room : Room.t) : sameSeating room room.
Proof. split; reflexivity. Qed.

Lemma sameSeating_trans (a b c0 : Room.t) :
  sameSeating a b -> sameSeating b c0 -> sameSeating a c0.
Proof. intros [H1 H2] [H3 H4]. split; congruence. Qed.

(** Only the players' contents changed, each keeping its id. *)
Lemma sameSeating_players (room : Room.t) (players' : list Player.t) :
  map Player.id players' = map Player.id (Room.players room) ->
  sameSeating room (Room.set_players players' room).
Proof. intros H. split; destruct room; simpl in *; [exact H | reflexivity]. Qed.

Lemma dispatchAction_maxPlayers (room room1 : Room.t) (player player1 : Player.t)
    (action : string) (amount : Z) (result : outcome unit) :
  dispatchAction room player action amount = (room1, player1, result) ->
  Room.maxPlayers room1 = Room.maxPlayers room.
Proof.
  unfold dispatchAction, processCall, processBet, processRaise, processAllIn.
  repeat match goal with
         | |- context [if ?b then _ else _] => destruct b
         end;
    cbv zeta; intros E; injection E; intros _ _ E1; rewrite <- E1;
    destruct room; reflexivity.
Qed.

Lemma sameSeating_processPlayerAction (room : Room.t) (pid action : string) (amount : Z) :
  sameSeating room (fst (processPlayerAction room pid action amount)).
Proof.
  unfold processPlayerAction.
  destruct (findPlayer _ _) as [[i player]|] eqn:Hf; [|apply sameSeating_refl].
  destruct (negb _); [apply sameSeating_refl|].
  destruct (Player.folded player); [apply sameSeating_refl|].
  destruct (dispatchAction room player action amount) as [[room1 player1] result] eqn:Hd.
  destruct (dispatchAction_accounts _ _ _ _ _ _ _ Hd) as (Hpl & Hid & _ & _).
  pose proof (dispatchAction_maxPlayers _ _ _ _ _ _ _ Hd) as Hmax.
  destruct (findPlayer_Some _ _ _ _ Hf) as (_ & Hn & _).
  assert (H2 : sameSeating room
                 (Room.set_players (replaceAt i player1 (Room.players room1)) room1)).
  { split; [|destruct room1; exact Hmax].
    rewrite Hpl. destruct room1; simpl. apply (ids_replaceAt _ _ player); assumption. }
  destruct result as [u|msg]; [destruct (includesId _ pid)|]; simpl; exact H2.
Qed.

Lemma sameSeating_moveToNextPlayer (room : Room.t) : sameSeating room (moveToNextPlayer room).
Proof.
  unfold moveToNextPlayer.
  destruct (_ <=? 1)%nat; [|destruct (findIndex _ _)];
    split; destruct room; reflexivity.
Qed.

Lemma sameSeating_postBlinds (room : Room.t) : sameSeating room (fst (postBlinds room)).
Proof.
  unfold postBlinds.
  destruct (findPlayer _ (Room.players room)) as [[i p]|] eqn:Hf; [|apply sameSeating_refl].
  cbv zeta. destruct (findPlayer_Some _ _ _ _ Hf) as (_ & Hn & _).
  set (room2 := Room.set_players _ (Room.set_pot _ room)).
  assert (H2 : sameSeating room room2).
  { subst room2. split; destruct room; simpl in *; [|reflexivity].
    apply (ids_replaceAt _ _ p); [exact Hn|].
    rewrite id_markAllIn. destruct p; reflexivity. }
  destruct (findPlayer _ (Room.players room2)) as [[j q]|] eqn:Hg; [|exact H2].
  destruct (findPlayer_Some _ _ _ _ Hg) as (_ & Hm & _).
  apply (sameSeating_trans _ room2); [exact H2|].
  split; destruct room2; simpl in *; [|reflexivity].
  apply (ids_replaceAt _ _ q); [exact Hm|].
  rewrite id_markAllIn. destruct q; reflexivity.
Qed.

Lemma sameSeating_assignDealerAndBlinds (room : Room.t) :
  sameSeating room (fst (assignDealerAndBlinds room)).
Proof.
  unfold assignDealerAndBlinds.
  destruct (_ <? 2)%nat; [apply sameSeating_refl|]. cbv zeta.
  destruct (idAt _ _) as [sb|msg]; [|split; destruct room; reflexivity].
  destruct (idAt _ _) as [bb|msg]; [|split; destruct room; reflexivity].
  eapply sameSeating_trans; [|apply sameSeating_postBlinds].
  split; destruct room; reflexivity.
Qed.

Lemma dealRound_ids (players : list Player.t) :
  forall deck, map Player.id (snd (dealRound deck players)) = map Player.id players.
Proof.
  induction players as [|p players IH]; intros deck; simpl; [reflexivity|].
  destruct (pop deck) as [[card deck1]|].
  - specialize (IH deck1). destruct (dealRound deck1 players). simpl in *.
    rewrite IH. destruct p; reflexivity.
  - specialize (IH deck). destruct (dealRound deck players). simpl in *.
    rewrite IH. reflexivity.
Qed.

Lemma sameSeating_dealHoleCards (room : Room.t) : sameSeating room (dealHoleCards room).
Proof.
  unfold dealHoleCards.
  pose proof (dealRound_ids (Room.players room) (Room.deck room)) as H1.
  destruct (dealRound (Room.deck room) (Room.players room)) as [deck1 players1].
  simpl snd in H1.
  pose proof (dealRound_ids players1 deck1) as H2.
  destruct (dealRound deck1 players1) as [deck2 players2].
  simpl snd in H2. split; destruct room; simpl in *; congruence.
Qed.

Lemma sameSeating_setTurnFrom (room : Room.t) (first : nat) :
  sameSeating room (fst (setTurnFrom room first)).
Proof.
  unfold setTurnFrom.
  destruct (seekActive _ _ _ _) as [k|]; [|apply sameSeating_refl].
  destruct (idAt _ _); [|apply sameSeating_refl].
  split; destruct room; reflexivity.
Qed.

Lemma sameSeating_startNewHand (rand : nat -> nat) (room : Room.t) :
  sameSeating room (fst (startNewHand rand room)).
Proof.
  unfold startNewHand.
  destruct (_ <? 2)%nat; [apply sameSeating_refl|]. cbv zeta.
  set (room9 := Room.set_deck _ _).
  assert (H9 : sameSeating room room9).
  { subst room9. split; destruct room; simpl; [|reflexivity].
    rewrite map_map. apply map_ext. intros p. destruct p; reflexivity. }
  pose proof (sameSeating_assignDealerAndBlinds room9) as H10.
  destruct (assignDealerAndBlinds room9) as [room10 [u|msg]]; simpl in *.
  - eapply sameSeating_trans; [exact H9|].
    eapply sameSeating_trans; [exact H10|].
    eapply sameSeating_trans; [apply sameSeating_dealHoleCards|].
    unfold setFirstPlayerToAct.
    destruct (_ =? 0)%nat; [apply sameSeating_refl | apply sameSeating_setTurnFrom].
  - eapply sameSeating_trans; [exact H9 | exact H10].
Qed.

Lemma sameSeating_payWinners (winners : list ShowdownEntry) :
  forall (room : Room.t) (winAmount remainder : Z) (index : nat),
  sameSeating room (fst (payWinners room winAmount remainder index winners)).
Proof.
  induction winners as [|w winners IH]; intros room q r k; simpl;
    [apply sameSeating_refl|].
  destruct (findPlayer _ _) as [[i player]|] eqn:Hf; [|apply sameSeating_refl].
  cbv zeta. destruct (findPlayer_Some _ _ _ _ Hf) as (_ & Hn & _).
  set (room1 := Room.set_players _ room).
  assert (H1 : sameSeating room room1).
  { subst room1. apply sameSeating_players.
    apply (ids_replaceAt _ _ player); [exact Hn | destruct player; reflexivity]. }
  specialize (IH room1 q r (S k)).
  destruct (payWinners room1 q r (S k) winners) as [room2 [paid|msg]]; simpl in *;
    eapply sameSeating_trans; eassumption.
Qed.

Lemma sameSeating_processShowdown (room : Room.t) :
  sameSeating room (fst (processShowdown room)).
Proof.
  unfold processShowdown.
  destruct (_ =? 1)%nat.
  - destruct (findPlayer _ _) as [[i winner]|] eqn:Hf; [|apply sameSeating_refl].
    destruct (findPlayer_Some _ _ _ _ Hf) as (_ & Hn & _). simpl.
    apply sameSeating_players.
    apply (ids_replaceAt _ _ winner); [exact Hn | destruct winner; reflexivity].
  - destruct (evaluateAll _ _) as [entries|msg]; [|apply sameSeating_refl].
    cbv zeta.
    match goal with
    | |- sameSeating room (fst (ebind (payWinners room ?q ?r ?k ?ws) _)) =>
        pose proof (sameSeating_payWinners ws room q r k) as H1;
        destruct (payWinners room q r k ws) as [room1 [paid|msg]]; exact H1
    end.
Qed.

Lemma sameSeating_moveToNextPhase (room : Room.t) :
  sameSeating room (fst (moveToNextPhase room)).
Proof.
  unfold moveToNextPhase.
  assert (Hreset : forall room0, sameSeating room room0 ->
            sameSeating room
              (fst (ebind (setFirstPlayerPostFlop
                             (Room.set_players
                                (map (Player.set_bet 0)
                                     (Room.players
                                        (Room.set_playersActedThisRound []
                                           (Room.set_lastRaiser None
                                              (Room.set_currentBet 0 room0)))))
                                (Room.set_playersActedThisRound []
                                   (Room.set_lastRaiser None
                                      (Room.set_currentBet 0 room0)))))
                          (fun room5 (_ : unit) => (room5, Ok (@None ShowdownResult)))))).
  { intros room0 H0.
    match goal with
    | |- sameSeating room (fst (ebind (setFirstPlayerPostFlop ?r4) _)) =>
        assert (H4 : sameSeating room r4)
    end.
    { eapply sameSeating_trans; [exact H0|].
      split; destruct room0; simpl; [|reflexivity].
      rewrite map_map. apply map_ext. intros p. destruct p; reflexivity. }
    match goal with
    | |- sameSeating room (fst (ebind (setFirstPlayerPostFlop ?r4) _)) =>
        assert (H5 : sameSeating r4 (fst (setFirstPlayerPostFlop r4)));
        [ unfold setFirstPlayerPostFlop;
          destruct (_ =? 0)%nat; [apply sameSeating_refl | apply sameSeating_setTurnFrom]
        | destruct (setFirstPlayerPostFlop r4) as [room5 [u|msg]]; simpl in *;
          eapply sameSeating_trans; eassumption ]
    end. }
  assert (Hdeal : forall n room0, sameSeating room0 (burnAndDeal n room0)).
  { intros n room0. unfold burnAndDeal.
    destruct (pop _) as [[burnt deck1]|]; [|apply sameSeating_refl].
    destruct (popN n deck1) as [cards deck2].
    split; destruct room0; reflexivity. }
  assert (Hphase : forall ph room0, sameSeating room room0 ->
                                    sameSeating room (Room.set_phase ph room0)).
  { intros ph room0 [H1 H2]. split; destruct room0; assumption. }
  destruct (Room.phase room).
  - apply Hreset. apply sameSeating_refl.
  - apply Hreset. apply Hphase. unfold dealFlop.
    destruct (_ <=? _)%nat; [apply Hdeal | apply sameSeating_refl].
  - apply Hreset. apply Hphase. unfold dealTurn.
    destruct (_ <=? _)%nat; [apply Hdeal | apply sameSeating_refl].
  - apply Hreset. apply Hphase. unfold dealRiver.
    destruct (_ <=? _)%nat; [apply Hdeal | apply sameSeating_refl].
  - pose proof (sameSeating_processShowdown (Room.set_phase showdown room)) as Hs.
    destruct (processShowdown (Room.set_phase showdown room)) as [room1 [res|msg]];
      simpl in *; (eapply sameSeating_trans; [|exact Hs]);
      apply Hphase; apply sameSeating_refl.
  - apply Hreset. apply sameSeating_refl.
Qed.

Lemma NoDup_removeAt {A} (l : list A) (i : nat) : NoDup l -> NoDup (removeAt i l).
Proof.
  intros H. revert i. induction H as [|x l Hx Hl IH]; intros [|i]; simpl.
  - constructor.
  - constructor.
  - exact Hl.
  - constructor; [|apply IH].
    intros Hin. apply Hx. clear -Hin. revert i Hin.
    induction l as [|y l IH']; intros [|i] Hin; simpl in *; try tauto.
    destruct Hin as [->|Hin]; [tauto | right; eapply IH'; exact Hin].
Qed.

Lemma map_removeAt {A B} (f : A -> B) (l : list A) (i : nat) :
  map f (removeAt i l) = removeAt i (map f l).
Proof.
  revert i. induction l as [|x l IH]; intros [|i]; simpl; try reflexivity.
  rewrite IH. reflexivity.
Qed.

Lemma length_removeAt_le {A} (l : list A) (i : nat) :
  (List.length (removeAt i l) <= List.length l)%nat.
Proof.
  revert i. induction l as [|x l IH]; intros [|i]; simpl; try lia.
  specialize (IH i). lia.
Qed.

Lemma seated_sameSeating (a b : Room.t) : sameSeating a b -> seated a -> seated b.
Proof.
  intros [H1 H2] [H3 H4]. split; [rewrite H1; exact H3|].
  rewrite H2, <- (length_map Player.id (Room.players b)), H1, length_map. exact H4.
Qed.

Lemma maxPlayers_applyEvent (room : Room.t) (e : Event) :
  Room.maxPlayers (applyEvent room e) = Room.maxPlayers room.
Proof.
  destruct e; simpl.
  - unfold addPlayerToRoom.
    destruct (existsb _ _); [reflexivity|].
    destruct (_ <=? _)%nat; destruct room; reflexivity.
  - unfold removePlayerFromRoom.
    destruct (findIndex _ _); destruct room; reflexivity.
  - apply sameSeating_startNewHand.
  - apply sameSeating_processPlayerAction.
  - apply sameSeating_moveToNextPlayer.
  - apply sameSeating_moveToNextPhase.
  - apply sameSeating_processShowdown.
Qed.

Lemma seated_applyEvent (room : Room.t) (e : Event) :
  seated room -> seated (applyEvent room e).
Proof.
  intros HP. destruct e; simpl.
  - unfold addPlayerToRoom.
    destruct (existsb (hasId id) (Room.players room)) eqn:Hex; [exact HP|].
    destruct (_ <=? _)%nat eqn:Hfull; [exact HP|].
    apply Nat.leb_gt in Hfull. destruct HP as [Hnd Hlen].
    split; destruct room; simpl in *.
    + rewrite map_app. simpl. apply NoDup_app; [exact Hnd | repeat constructor; intros [] |].
      intros a Ha [<-|[]]. apply in_map_iff in Ha. destruct Ha as (p & Hp & Hin).
      assert (existsb (hasId (Player.id p)) players = true).
      { apply existsb_exists. exists p. split; [exact Hin|]. apply String.eqb_refl. }
      congruence.
    + rewrite length_app. simpl. lia.
  - unfold removePlayerFromRoom.
    destruct (findIndex _ _) as [i|]; [|exact HP].
    destruct HP as [Hnd Hlen]. split; destruct room; simpl in *.
    + rewrite map_removeAt. apply NoDup_removeAt. exact Hnd.
    + pose proof (length_removeAt_le players i). lia.
  - exact (seated_sameSeating _ _ (sameSeating_startNewHand rand room) HP).
  - exact (seated_sameSeating _ _ (sameSeating_processPlayerAction room id action amount) HP).
  - exact (seated_sameSeating _ _ (sameSeating_moveToNextPlayer room) HP).
  - exact (seated_sameSeating _ _ (sameSeating_moveToNextPhase room) HP).
  - exact (seated_sameSeating _ _ (sameSeating_processShowdown room) HP).
Qed.

Lemma seated_run (events : list Event) :
  forall room, seated room -> seated (run events room).
Proof.
  unfold run. induction events as [|e events IH]; intros room HP; simpl; [exact HP|].
  apply IH. apply seated_applyEvent. exact HP.
Qed.

Lemma maxPlayers_run (events : list Event) :
  forall room, Room.maxPlayers (run events room) = Room.maxPlayers room.
Proof.
  unfold run. induction events as [|e events IH]; intros room; simpl; [reflexivity|].
  rewrite IH. apply maxPlayers_applyEvent.
Qed.

Lemma seated_createInitialGameState (roomId name creatorId : string) (maxPlayers : nat)
    (minBet maxBet : Z) :
  seated (createInitialGameState roomId name creatorId maxPlayers minBet maxBet).
Proof. split; simpl; [constructor | lia]. Qed.

(** X4.  From the creation of a room on, through any sequence of events,
    no two seats carry the same player id and the number of seats never
    exceeds [maxPlayers], which stays what the room was created with. *)
Theorem seats_are_distinct_and_bounded (roomId name creatorId : string) (maxPlayers : nat)
    (minBet maxBet : Z) (events : list Event) :
  let room := run events
                  (createInitialGameState roomId name creatorId maxPlayers minBet maxBet) in
  NoDup (map Player.id (Room.players room)) /\
  (List.length (Room.players room) <= maxPlayers)%nat /\
  Room.maxPlayers room = maxPlayers.
Proof.
  cbv zeta.
  destruct (seated_run events _
              (seated_createInitialGameState roomId name creatorId maxPlayers minBet maxBet))
    as [H1 H2].
  rewrite maxPlayers_run in H2. rewrite maxPlayers_run.
  split; [exact H1|]. split; [exact H2 | reflexivity].
Qed.

Lemma removeAt_last {A} (l : list A) (x : A) : removeAt (List.length l) (l ++ [x]) = l.
Proof. induction l as [|y l IH]; simpl; [reflexivity | rewrite IH; reflexivity]. Qed.

Lemma findIndexFrom_last {A} (f : A -> bool) (l : list A) (x : A) (k : nat) :
  existsb f l = false -> f x = true ->
  findIndexFrom f (l ++ [x]) k = Some (k + List.length l)%nat.
Proof.
  revert k. induction l as [|y l IH]; intros k Hl Hx; simpl in *.
  - rewrite Hx. f_equal. lia.
  - apply orb_false_iff in Hl. destruct Hl as [Hy Hl]. rewrite Hy.
    rewrite (IH (S k) Hl Hx). f_equal. lia.
Qed.

(** X5.  A player who is not seated can sit down while the room has a free
    seat: the new seat is the last one, with 1000 chips, no bet, no cards,
    neither folded nor all-in; and removing that player again gives back
    the room as it was in its seats and in every other field of the game.
    The timestamp [updatedAt], which both calls overwrite, is not part of
    the room here and is not covered. *)
Theorem add_then_remove_restores_room (room : Room.t) (id username : string) :
  ~ In id (map Player.id (Room.players room)) ->
  (List.length (Room.players room) < Room.maxPlayers room)%nat ->
  exists room1,
    addPlayerToRoom room id username = (room1, Ok tt) /\
    Room.players room1 =
      Room.players room ++ [Player.mk id username 1000 0 "active" [] false false true] /\
    removePlayerFromRoom room1 id = (room, Ok tt).
Proof.
  intros Hnew Hfree. unfold addPlayerToRoom.
  assert (Hex : existsb (hasId id) (Room.players room) = false).
  { destruct (existsb (hasId id) (Room.players room)) eqn:E; [|reflexivity].
    exfalso. apply Hnew. apply existsb_exists in E. destruct E as (p & Hp & Hid).
    apply hasId_eq in Hid. rewrite <- Hid. apply in_map. exact Hp. }
  rewrite Hex.
  assert (Hfull : (Room.maxPlayers room <=? List.length (Room.players room))%nat = false)
    by (apply Nat.leb_gt; exact Hfree).
  rewrite Hfull.
  eexists. split; [reflexivity|]. split; [destruct room; reflexivity|].
  unfold removePlayerFromRoom, findIndex.
  replace (Room.players (Room.set_players
             (Room.players room ++ [Player.mk id username 1000 0 "active" [] false false true])
             room))
    with (Room.players room ++ [Player.mk id username 1000 0 "active" [] false false true])
    by (destruct room; reflexivity).
  rewrite findIndexFrom_last; [|exact Hex | apply String.eqb_refl].
  simpl Nat.add. rewrite removeAt_last. destruct room; reflexivity.
Qed.

Lemma add_then_remove_restores_room_witness :
  exists room1,
    addPlayerToRoom scenario6 "P3" "Carol" = (room1, Ok tt) /\
    Room.players room1 =
      Room.players scenario6 ++ [Player.mk "P3" "Carol" 1000 0 "active" [] false false true] /\
    removePlayerFromRoom room1 "P3" = (scenario6, Ok tt).
Proof.
  apply (add_then_remove_restores_room scenario6 "P3" "Carol").
  - simpl. intros [H|[H|[]]]; discriminate H.
  - simpl. lia.
Defined.

(** ** Cards: shuffling and dealing *)

Lemma replaceAt_Permutation {A} (l : list A) (j : nat) (a b : A) :
  nth_error l j = Some b -> Permutation (b :: replaceAt j a l) (a :: l).
Proof.
  revert j. induction l as [|y l IH]; intros [|j]; simpl; intros H; try discriminate.
  - injection H as ->. apply perm_swap.
  - eapply perm_trans; [apply perm_swap|].
    eapply perm_trans; [apply perm_skip, IH, H|]. apply perm_swap.
Qed.

Lemma swap_Permutation {A} (i j : nat) (l : list A) : Permutation (swap i j l) l.
Proof.
  unfold swap.
  destruct (nth_error l i) as [a|] eqn:Hi; [|apply Permutation_refl].
  destruct (nth_error l j) as [b|] eqn:Hj; [|apply Permutation_refl].
  destruct (Nat.eq_dec i j) as [->|Hne].
  - assert (a = b) by congruence. subst b.
    rewrite (replaceAt_same l j a Hi), (replaceAt_same l j a Hi). apply Permutation_refl.
  - apply (Permutation_cons_inv (a := b)).
    eapply perm_trans.
    + apply replaceAt_Permutation. rewrite nth_error_replaceAt_ne; [exact Hj | exact Hne].
    + apply replaceAt_Permutation. exact Hi.
Qed.

Lemma shuffleLoop_Permutation (rand : nat -> nat) (i : nat) :
  forall shuffled, Permutation (shuffleLoop rand i shuffled) shuffled.
Proof.
  induction i as [|i IH]; intros shuffled; simpl; [apply Permutation_refl|].
  eapply perm_trans; [apply IH | apply swap_Permutation].
Qed.

(** X6.  Whatever the random numbers are, shuffling only reorders the deck:
    the shuffled deck holds exactly the cards of the deck it was given,
    each as often as before. *)
Theorem shuffleDeck_is_a_permutation (rand : nat -> nat) (deck : list Card) :
  Permutation (shuffleDeck rand deck) deck /\
  List.length (shuffleDeck rand deck) = List.length deck /\
  (NoDup deck -> NoDup (shuffleDeck rand deck)).
Proof.
  assert (H : Permutation (shuffleDeck rand deck) deck)
    by (unfold shuffleDeck; apply shuffleLoop_Permutation).
  split; [exact H|]. split; [apply Permutation_length, H|].
  apply Permutation_NoDup, Permutation_sym, H.
Qed.

Lemma pop_Some {A} (l r : list A) (x : A) : pop l = Some (x, r) -> l = r ++ [x].
Proof.
  unfold pop. destruct (rev l) as [|y t] eqn:E; intros H; [discriminate|].
  injection H as <- <-. rewrite <- (rev_involutive l), E. reflexivity.
Qed.

Lemma pop_None {A} (l : list A) : pop l = None -> l = [].
Proof.
  unfold pop. destruct (rev l) as [|y t] eqn:E; intros H; [|discriminate].
  rewrite <- (rev_involutive l), E. reflexivity.
Qed.

Lemma pop_app {A} (l : list A) (x : A) : pop (l ++ [x]) = Some (x, l).
Proof. unfold pop. rewrite rev_app_distr. simpl. rewrite rev_involutive. reflexivity. Qed.

Lemma dealRound_Permutation (players : list Player.t) :
  forall deck,
    Permutation (fst (dealRound deck players) ++
                 flat_map Player.hand (snd (dealRound deck players)))
                (deck ++ flat_map Player.hand players).
Proof.
  induction players as [|p players IH]; intros deck; simpl; [apply Permutation_refl|].
  destruct (pop deck) as [[card deck1]|] eqn:Hp.
  - apply pop_Some in Hp. subst deck. specialize (IH deck1).
    destruct (dealRound deck1 players) as [deck2 rest1]. simpl in *.
    destruct p as [pid username chips bet status hand folded allIn connected]. simpl.
    rewrite <- !app_assoc. simpl.
    transitivity (hand ++ deck2 ++ card :: flat_map Player.hand rest1);
      [apply Permutation_app_swap_app|].
    transitivity (hand ++ card :: deck2 ++ flat_map Player.hand rest1);
      [apply Permutation_app_head, Permutation_sym, Permutation_middle|].
    transitivity (hand ++ card :: deck1 ++ flat_map Player.hand players);
      [apply Permutation_app_head, perm_skip, IH|].
    transitivity (card :: hand ++ deck1 ++ flat_map Player.hand players);
      [apply Permutation_sym, Permutation_middle|].
    transitivity (card :: deck1 ++ hand ++ flat_map Player.hand players);
      [apply perm_skip, Permutation_app_swap_app|].
    apply Permutation_middle.
  - specialize (IH deck). destruct (dealRound deck players) as [deck2 rest1]. simpl in *.
    eapply perm_trans; [apply Permutation_app_swap_app|].
    eapply perm_trans; [apply Permutation_app_head, IH|].
    apply Permutation_app_swap_app.
Qed.

Lemma dealHoleCards_Permutation (room : Room.t) :
  Permutation (cardsInPlay (dealHoleCards room)) (cardsInPlay room).
Proof.
  unfold dealHoleCards, cardsInPlay.
  pose proof (dealRound_Permutation (Room.players room) (Room.deck room)) as H1.
  destruct (dealRound (Room.deck room) (Room.players room)) as [deck1 players1].
  simpl fst in H1. simpl snd in H1.
  pose proof (dealRound_Permutation players1 deck1) as H2.
  destruct (dealRound deck1 players1) as [deck2 players2].
  simpl fst in H2. simpl snd in H2.
  assert (H3 : Permutation (deck2 ++ flat_map Player.hand players2)
                 (Room.deck room ++ flat_map Player.hand (Room.players room)))
    by (eapply perm_trans; eassumption).
  destruct room; simpl in *.
  eapply perm_trans; [apply Permutation_app_head, Permutation_app_comm|].
  rewrite app_assoc.
  eapply perm_trans; [apply Permutation_app_tail, H3|].
  rewrite <- app_assoc. apply Permutation_app_head, Permutation_app_comm.
Qed.

(** While the deck lasts, one round gives every seat one more card. *)
Lemma dealRound_hands (players : list Player.t) :
  forall deck,
    (List.length players <= List.length deck)%nat ->
    List.length (fst (dealRound deck players)) =
      (List.length deck - List.length players)%nat /\
    map (fun p => List.length (Player.hand p)) (snd (dealRound deck players)) =
      map (fun p => S (List.length (Player.hand p))) players.
Proof.
  induction players as [|p players IH]; intros deck Hlen; simpl in *.
  - split; [lia | reflexivity].
  - destruct (pop deck) as [[card deck1]|] eqn:Hp.
    + apply pop_Some in Hp. subst deck. rewrite length_app in *. simpl in *.
      destruct (IH deck1) as [H1 H2]; [lia|].
      destruct (dealRound deck1 players) as [deck2 rest1]. simpl in *.
      split; [lia|]. rewrite H2. f_equal.
      destruct p; simpl. rewrite length_app. simpl. lia.
    + apply pop_None in Hp. subst deck. simpl in Hlen. lia.
Qed.

(** In any case a round takes at most one card per seat from the deck. *)
Lemma dealRound_deck (players : list Player.t) :
  forall deck,
    (List.length deck <= List.length (fst (dealRound deck players)) + List.length players)%nat.
Proof.
  induction players as [|p players IH]; intros deck; simpl; [lia|].
  destruct (pop deck) as [[card deck1]|] eqn:Hp.
  - apply pop_Some in Hp. subst deck. rewrite length_app. simpl.
    specialize (IH deck1). destruct (dealRound deck1 players). simpl in *. lia.
  - specialize (IH deck). destruct (dealRound deck players). simpl in *. lia.
Qed.

Lemma sameDeal_refl (room : Room.t) : sameDeal room room.
Proof. repeat split. Qed.

Lemma sameDeal_trans (a b c0 : Room.t) : sameDeal a b -> sameDeal b c0 -> sameDeal a c0.
Proof. intros (H1 & H2 & H3 & H4) (H5 & H6 & H7 & H8). repeat split; congruence. Qed.

Lemma sameDeal_cardsInPlay (a b : Room.t) : sameDeal a b -> cardsInPlay b = cardsInPlay a.
Proof.
  intros (_ & H2 & H3 & H4). unfold cardsInPlay.
  rewrite H2, H3, !flat_map_concat_map, H4. reflexivity.
Qed.

Lemma hands_replaceAt (players : list Player.t) (i : nat) (p p' : Player.t) :
  nth_error players i = Some p -> Player.hand p' = Player.hand p ->
  map Player.hand (replaceAt i p' players) = map Player.hand players.
Proof.
  revert i. induction players as [|q players IH]; intros [|i]; simpl; intros H E;
    try discriminate.
  - injection H as ->. rewrite E. reflexivity.
  - rewrite (IH i H E). reflexivity.
Qed.

Lemma hand_markAllIn (p : Player.t) : Player.hand (markAllIn p) = Player.hand p.
Proof. unfold markAllIn. destruct (_ =? _); destruct p; reflexivity. Qed.

Lemma sameDeal_players (room : Room.t) (players' : list Player.t) :
  map Player.hand players' = map Player.hand (Room.players room) ->
  sameDeal room (Room.set_players players' room).
Proof. intros H. destruct room; repeat split. exact H. Qed.

Lemma dispatchAction_hand (room room1 : Room.t) (player player1 : Player.t)
    (action : string) (amount : Z) (result : outcome unit) :
  dispatchAction room player action amount = (room1, player1, result) ->
  Player.hand player1 = Player.hand player.
Proof.
  unfold dispatchAction, processCall, processBet, processRaise, processAllIn.
  repeat match goal with
         | |- context [if ?b then _ else _] => destruct b
         end;
    cbv zeta; intros E; injection E; intros _ E1 _; rewrite <- E1;
    rewrite ?hand_markAllIn; destruct player; reflexivity.
Qed.

Lemma sameDeal_processPlayerAction (room : Room.t) (pid action : string) (amount : Z) :
  sameDeal room (fst (processPlayerAction room pid action amount)).
Proof.
  unfold processPlayerAction.
  destruct (findPlayer _ _) as [[i player]|] eqn:Hf; [|apply sameDeal_refl].
  destruct (negb _); [apply sameDeal_refl|].
  destruct (Player.folded player); [apply sameDeal_refl|].
  destruct (dispatchAction room player action amount) as [[room1 player1] result] eqn:Hd.
  destruct (dispatchAction_accounts _ _ _ _ _ _ _ Hd) as (Hpl & _ & _ & Hds).
  pose proof (dispatchAction_hand _ _ _ _ _ _ _ Hd) as Hh.
  destruct (findPlayer_Some _ _ _ _ Hf) as (_ & Hn & _).
  unfold dealtState in Hds. injection Hds as Hph Hdk Hcc _ _ _ _.
  assert (H2 : sameDeal room
                 (Room.set_players (replaceAt i player1 (Room.players room1)) room1)).
  { repeat split; destruct room1; simpl in *; try assumption.
    rewrite Hpl. apply (hands_replaceAt _ _ player); assumption. }
  destruct result as [u|msg]; [destruct (includesId _ pid)|]; simpl; exact H2.
Qed.

Lemma sameDeal_moveToNextPlayer (room : Room.t) : sameDeal room (moveToNextPlayer room).
Proof.
  unfold moveToNextPlayer.
  destruct (_ <=? 1)%nat; [|destruct (findIndex _ _)];
    destruct room; repeat split.
Qed.

Lemma sameDeal_postBlinds (room : Room.t) : sameDeal room (fst (postBlinds room)).
Proof.
  unfold postBlinds.
  destruct (findPlayer _ (Room.players room)) as [[i p]|] eqn:Hf; [|apply sameDeal_refl].
  cbv zeta. destruct (findPlayer_Some _ _ _ _ Hf) as (_ & Hn & _).
  set (room2 := Room.set_players _ (Room.set_pot _ room)).
  assert (H2 : sameDeal room room2).
  { subst room2. destruct room; repeat split; simpl in *.
    apply (hands_replaceAt _ _ p); [exact Hn|].
    rewrite hand_markAllIn. destruct p; reflexivity. }
  destruct (findPlayer _ (Room.players room2)) as [[j q]|] eqn:Hg; [|exact H2].
  destruct (findPlayer_Some _ _ _ _ Hg) as (_ & Hm & _).
  apply (sameDeal_trans _ room2); [exact H2|].
  destruct room2; repeat split; simpl in *.
  apply (hands_replaceAt _ _ q); [exact Hm|].
  rewrite hand_markAllIn. destruct q; reflexivity.
Qed.

Lemma sameDeal_assignDealerAndBlinds (room : Room.t) :
  sameDeal room (fst (assignDealerAndBlinds room)).
Proof.
  unfold assignDealerAndBlinds.
  destruct (_ <? 2)%nat; [apply sameDeal_refl|]. cbv zeta.
  destruct (idAt _ _) as [sb|msg]; [|destruct room; repeat split].
  destruct (idAt _ _) as [bb|msg]; [|destruct room; repeat split].
  eapply sameDeal_trans; [|apply sameDeal_postBlinds].
  destruct room; repeat split.
Qed.

Lemma sameDeal_setTurnFrom (room : Room.t) (first : nat) :
  sameDeal room (fst (setTurnFrom room first)).
Proof.
  unfold setTurnFrom.
  destruct (seekActive _ _ _ _) as [k|]; [|apply sameDeal_refl].
  destruct (idAt _ _); [|apply sameDeal_refl].
  destruct room; repeat split.
Qed.

Lemma sameDeal_payWinners (winners : list ShowdownEntry) :
  forall (room : Room.t) (winAmount remainder : Z) (index : nat),
  sameDeal room (fst (payWinners room winAmount remainder index winners)).
Proof.
  induction winners as [|w winners IH]; intros room q r k; simpl;
    [apply sameDeal_refl|].
  destruct (findPlayer _ _) as [[i player]|] eqn:Hf; [|apply sameDeal_refl].
  cbv zeta. destruct (findPlayer_Some _ _ _ _ Hf) as (_ & Hn & _).
  set (room1 := Room.set_players _ room).
  assert (H1 : sameDeal room room1).
  { subst room1. apply sameDeal_players.
    apply (hands_replaceAt _ _ player); [exact Hn | destruct player; reflexivity]. }
  specialize (IH room1 q r (S k)).
  destruct (payWinners room1 q r (S k) winners) as [room2 [paid|msg]]; simpl in *;
    eapply sameDeal_trans; eassumption.
Qed.

Lemma sameDeal_processShowdown (room : Room.t) :
  sameDeal room (fst (processShowdown room)).
Proof.
  unfold processShowdown.
  destruct (_ =? 1)%nat.
  - destruct (findPlayer _ _) as [[i winner]|] eqn:Hf; [|apply sameDeal_refl].
    destruct (findPlayer_Some _ _ _ _ Hf) as (_ & Hn & _). simpl.
    apply sameDeal_players.
    apply (hands_replaceAt _ _ winner); [exact Hn | destruct winner; reflexivity].
  - destruct (evaluateAll _ _) as [entries|msg]; [|apply sameDeal_refl].
    cbv zeta.
    match goal with
    | |- sameDeal room (fst (ebind (payWinners room ?q ?r ?k ?ws) _)) =>
        pose proof (sameDeal_payWinners ws room q r k) as H1;
        destruct (payWinners room q r k ws) as [room1 [paid|msg]]; exact H1
    end.
Qed.

(** The reset at the end of [moveToNextPhase] touches no card. *)
Lemma sameDeal_resetRound (room0 : Room.t) :
  sameDeal room0
    (fst (ebind (setFirstPlayerPostFlop
                   (Room.set_players
                      (map (Player.set_bet 0)
                           (Room.players
                              (Room.set_playersActedThisRound []
                                 (Room.set_lastRaiser None (Room.set_currentBet 0 room0)))))
                      (Room.set_playersActedThisRound []
                         (Room.set_lastRaiser None (Room.set_currentBet 0 room0)))))
                (fun room5 (_ : unit) => (room5, Ok (@None ShowdownResult))))).
Proof.
  match goal with
  | |- sameDeal room0 (fst (ebind (setFirstPlayerPostFlop ?r4) _)) =>
      assert (H4 : sameDeal room0 r4);
      [ destruct room0; repeat split; simpl;
        rewrite map_map; apply map_ext; intros p; destruct p; reflexivity
      | assert (H5 : sameDeal r4 (fst (setFirstPlayerPostFlop r4)));
        [ unfold setFirstPlayerPostFlop;
          destruct (_ =? 0)%nat; [apply sameDeal_refl | apply sameDeal_setTurnFrom]
        | destruct (setFirstPlayerPostFlop r4) as [room5 [u|msg]]; simpl in *;
          eapply sameDeal_trans; eassumption ] ]
  end.
Qed.

Lemma popN_spec (count : nat) :
  forall deck cards deck2,
    popN count deck = (cards, deck2) ->
    Permutation deck (deck2 ++ cards) /\
    ((count <= List.length deck)%nat ->
     List.length cards = count /\ List.length deck2 = (List.length deck - count)%nat).
Proof.
  induction count as [|count IH]; intros deck cards deck2; simpl.
  - intros E. injection E as <- <-. rewrite app_nil_r.
    split; [apply Permutation_refl | intros _; split; [reflexivity | lia]].
  - destruct (pop deck) as [[card deck1]|] eqn:Hp.
    + apply pop_Some in Hp. subst deck.
      destruct (popN count deck1) as [cards1 deck3] eqn:E1.
      intros E. injection E as <- <-.
      destruct (IH _ _ _ E1) as [H1 H2]. split.
      * eapply perm_trans; [apply Permutation_app_tail, H1|].
        rewrite <- app_assoc. apply Permutation_app_head.
        apply Permutation_sym, Permutation_cons_append.
      * rewrite length_app. simpl. intros Hlen.
        destruct H2 as [H2 H3]; [lia|]. split; [lia|lia].
    + apply pop_None in Hp. subst deck. intros E. injection E as <- <-.
      split; [apply Permutation_refl | simpl; lia].
Qed.

(** Burning one card and dealing [count] to the board: the cards that
    remain in play are the old ones without the burnt card. *)
Lemma burnAndDeal_spec (count : nat) (room : Room.t) :
  sameSeating room (burnAndDeal count room) /\
  Room.phase (burnAndDeal count room) = Room.phase room /\
  (exists burnt, Permutation (cardsInPlay room) (burnt ++ cardsInPlay (burnAndDeal count room))) /\
  ((S count <= List.length (Room.deck room))%nat ->
   List.length (Room.communityCards (burnAndDeal count room)) =
     (List.length (Room.communityCards room) + count)%nat /\
   List.length (Room.deck (burnAndDeal count room)) =
     (List.length (Room.deck room) - S count)%nat).
Proof.
  unfold burnAndDeal.
  destruct (pop (Room.deck room)) as [[burnt deck1]|] eqn:Hp.
  - apply pop_Some in Hp.
    destruct (popN count deck1) as [cards deck2] eqn:E.
    destruct (popN_spec _ _ _ _ E) as [H1 H2].
    split; [split; destruct room; reflexivity|].
    split; [destruct room; reflexivity|]. split.
    + exists [burnt]. unfold cardsInPlay. destruct room; simpl in *. subst deck.
      rewrite <- !app_assoc. simpl.
      transitivity (burnt :: deck1 ++ communityCards ++ flat_map Player.hand players);
        [apply Permutation_sym, Permutation_middle|].
      apply perm_skip.
      transitivity ((deck2 ++ cards) ++ communityCards ++ flat_map Player.hand players);
        [apply Permutation_app_tail, H1|].
      rewrite <- app_assoc. apply Permutation_app_head, Permutation_app_swap_app.
    + intros Hlen. destruct room; simpl in *. subst deck.
      rewrite length_app in *. simpl in *.
      destruct H2 as [H2 H3]; [lia|]. rewrite length_app. simpl. lia.
  - apply pop_None in Hp.
    split; [apply sameSeating_refl|]. split; [reflexivity|]. split.
    + exists []. apply Permutation_refl.
    + rewrite Hp. simpl. lia.
Qed.

Lemma NoDup_createDeck : NoDup createDeck.
Proof.
  unfold createDeck. simpl.
  repeat (constructor;
          [simpl; intros H; repeat (destruct H as [H|H]; [discriminate H|]); exact H|]).
  constructor.
Qed.

Lemma sameDeal_setFirstPlayerToAct (room : Room.t) :
  sameDeal room (fst (setFirstPlayerToAct room)).
Proof.
  unfold setFirstPlayerToAct.
  destruct (_ =? 0)%nat; [apply sameDeal_refl | apply sameDeal_setTurnFrom].
Qed.

Lemma dealHoleCards_frame (room : Room.t) :
  Room.phase (dealHoleCards room) = Room.phase room /\
  Room.communityCards (dealHoleCards room) = Room.communityCards room.
Proof.
  unfold dealHoleCards.
  destruct (dealRound (Room.deck room) (Room.players room)) as [deck1 players1].
  destruct (dealRound deck1 players1) as [deck2 players2].
  destruct room; split; reflexivity.
Qed.

Lemma dealHoleCards_hands (room : Room.t) :
  (2 * List.length (Room.players room) <= List.length (Room.deck room))%nat ->
  map (fun p => List.length (Player.hand p)) (Room.players (dealHoleCards room)) =
    map (fun p => S (S (List.length (Player.hand p)))) (Room.players room) /\
  List.length (Room.deck (dealHoleCards room)) =
    (List.length (Room.deck room) - 2 * List.length (Room.players room))%nat.
Proof.
  intros Hlen. unfold dealHoleCards.
  destruct (dealRound_hands (Room.players room) (Room.deck room)) as [H1 H2]; [lia|].
  pose proof (dealRound_length (Room.players room) (Room.deck room)) as H3.
  destruct (dealRound (Room.deck room) (Room.players room)) as [deck1 players1].
  simpl fst in *. simpl snd in *.
  destruct (dealRound_hands players1 deck1) as [H4 H5]; [lia|].
  destruct (dealRound deck1 players1) as [deck2 players2].
  simpl fst in *. simpl snd in *.
  split; destruct room; simpl in *.
  - rewrite H5.
    change (fun p => S (List.length (Player.hand p)))
      with (fun p => S ((fun q => List.length (Player.hand q)) p)).
    rewrite <- (map_map (fun q => List.length (Player.hand q)) S), H2, map_map.
    reflexivity.
  - lia.
Qed.

Lemma map_const_Forall {A B C} (f : A -> B) (c0 : B) (l : list A) :
  forall (m : list C), map f l = map (fun _ => c0) m -> Forall (fun x => f x = c0) l.
Proof.
  induction l as [|x l IH]; intros [|y m] H; simpl in *; try discriminate; constructor.
  - congruence.
  - apply (IH m). congruence.
Qed.

Lemma flat_map_hand_reset (players : list Player.t) :
  flat_map Player.hand (map resetPlayer players) = [].
Proof.
  induction players as [|p players IH]; simpl; [reflexivity|].
  rewrite IH. destruct p; reflexivity.
Qed.

(** What [startNewHand] leaves behind when it runs. *)
Lemma startNewHand_spec (rand : nat -> nat) (room : Room.t) :
  (2 <= List.length (Room.players room))%nat ->
  exists room',
    startNewHand rand room = (room', Ok tt) /\
    Room.phase room' = preflop /\
    Room.communityCards room' = [] /\
    Permutation (cardsInPlay room') createDeck /\
    ((List.length (Room.players room) <= 26)%nat ->
     Forall (fun p => List.length (Player.hand p) = 2%nat) (Room.players room') /\
     List.length (Room.deck room') = (52 - 2 * List.length (Room.players room))%nat).
Proof.
  intros Hlen.
  destruct (startNewHand_Ok rand room Hlen) as (room' & E).
  exists room'. split; [exact E|].
  revert E. unfold startNewHand.
  destruct (_ <? 2)%nat eqn:E2; [apply Nat.ltb_lt in E2; lia|]. cbv zeta.
  set (room9 := Room.set_deck _ _).
  assert (H9 : Room.phase room9 = preflop /\ Room.communityCards room9 = [] /\
               Room.deck room9 = shuffleDeck rand createDeck /\
               Room.players room9 = map resetPlayer (Room.players room)).
  { subst room9. destruct room; repeat split. }
  destruct H9 as (Hph & Hcc & Hdk & Hpl).
  pose proof (sameDeal_assignDealerAndBlinds room9) as Hd10.
  pose proof (sameSeating_assignDealerAndBlinds room9) as Hs10.
  destruct (assignDealerAndBlinds room9) as [room10 [u|msg]]; simpl; [|discriminate].
  simpl in Hd10, Hs10. intros E.
  pose proof (sameDeal_setFirstPlayerToAct (dealHoleCards room10)) as Hd'.
  rewrite E in Hd'. simpl in Hd'.
  destruct Hd' as (P1 & P2 & P3 & P4).
  destruct Hd10 as (Q1 & Q2 & Q3 & Q4).
  destruct (dealHoleCards_frame room10) as [F1 F2].
  assert (Hn : List.length (Room.players room10) = List.length (Room.players room)).
  { rewrite <- (length_map Player.id (Room.players room10)).
    destruct Hs10 as [-> _]. rewrite length_map, Hpl, length_map. reflexivity. }
  assert (Hdeck : List.length (Room.deck room10) = 52%nat).
  { rewrite Q2, Hdk. unfold shuffleDeck.
    rewrite (Permutation_length (shuffleLoop_Permutation rand _ createDeck)). reflexivity. }
  split; [congruence|]. split; [congruence|]. split.
  - rewrite (sameDeal_cardsInPlay (dealHoleCards room10) room')
      by (repeat split; assumption).
    eapply perm_trans; [apply dealHoleCards_Permutation|].
    rewrite (sameDeal_cardsInPlay room9 room10) by (repeat split; assumption).
    unfold cardsInPlay. rewrite Hcc, Hdk, Hpl, flat_map_hand_reset, !app_nil_r.
    apply shuffleLoop_Permutation.
  - intros H26.
    destruct (dealHoleCards_hands room10) as [H1 H2]; [lia|].
    split; [|rewrite P2, H2, Hdeck, Hn; reflexivity].
    assert (H3 : map (fun p => List.length (Player.hand p)) (Room.players room') =
                 map (fun _ => 2%nat) (Room.players room)).
    { change (fun p => List.length (Player.hand p))
        with (fun p => (fun h : list Card => List.length h) (Player.hand p)).
      rewrite <- (map_map Player.hand (fun h : list Card => List.length h)), P4, map_map.
      cbv beta. rewrite H1.
      change (fun p => S (S (List.length (Player.hand p))))
        with (fun p => (fun h : list Card => S (S (List.length h))) (Player.hand p)).
      rewrite <- (map_map Player.hand (fun h : list Card => S (S (List.length h)))).
      rewrite Q4, Hpl, !map_map. apply map_ext. intros p. destruct p; reflexivity. }
    exact (map_const_Forall _ _ _ _ H3).
Qed.

(** X7.  A hand started with at least two seats always starts: the phase
    is preflop, the board is empty, and the deck together with the hole
    cards is the full deck of 52, each card once.  With at most 26 seats
    every seat, whatever its chips, holds two cards and the deck keeps the
    rest. *)
Theorem new_hand_deals_from_full_deck (rand : nat -> nat) (room : Room.t) :
  (2 <= List.length (Room.players room))%nat ->
  exists room',
    startNewHand rand room = (room', Ok tt) /\
    Room.phase room' = preflop /\
    Room.communityCards room' = [] /\
    Permutation (Room.deck room' ++ flat_map Player.hand (Room.players room')) createDeck /\
    NoDup (Room.deck room' ++ flat_map Player.hand (Room.players room')) /\
    ((List.length (Room.players room) <= 26)%nat ->
     Forall (fun p => List.length (Player.hand p) = 2%nat) (Room.players room') /\
     List.length (Room.deck room') = (52 - 2 * List.length (Room.players room))%nat).
Proof.
  intros Hlen.
  destruct (startNewHand_spec rand room Hlen) as (room' & E & Hph & Hcc & Hperm & H26).
  exists room'. unfold cardsInPlay in Hperm. rewrite Hcc in Hperm. simpl in Hperm.
  repeat split; try assumption.
  - apply (Permutation_NoDup (Permutation_sym Hperm)). apply NoDup_createDeck.
  - apply H26. assumption.
  - apply H26. assumption.
Qed.

Lemma new_hand_deals_from_full_deck_witness :
  exists room',
    startNewHand rand0 scenario6 = (room', Ok tt) /\
    Room.phase room' = preflop /\
    Room.communityCards room' = [] /\
    Permutation (Room.deck room' ++ flat_map Player.hand (Room.players room')) createDeck /\
    NoDup (Room.deck room' ++ flat_map Player.hand (Room.players room')) /\
    ((List.length (Room.players scenario6) <= 26)%nat ->
     Forall (fun p => List.length (Player.hand p) = 2%nat) (Room.players room') /\
     List.length (Room.deck room') = (52 - 2 * List.length (Room.players scenario6))%nat).
Proof.
  apply (new_hand_deals_from_full_deck rand0 scenario6). simpl. lia.
Defined.

Lemma flat_map_removeAt (players : list Player.t) :
  forall i, exists gone,
    Permutation (flat_map Player.hand players)
                (gone ++ flat_map Player.hand (removeAt i players)).
Proof.
  induction players as [|p players IH]; intros [|i]; simpl.
  - exists []. apply Permutation_refl.
  - exists []. apply Permutation_refl.
  - exists (Player.hand p). apply Permutation_refl.
  - destruct (IH i) as (gone & H). exists gone.
    eapply perm_trans; [apply Permutation_app_head, H|].
    apply Permutation_app_swap_app.
Qed.

Lemma NoDup_app_tail {A} (l m : list A) : NoDup (l ++ m) -> NoDup m.
Proof.
  induction l as [|x l IH]; simpl; intros H; [exact H|].
  inversion H; subst. apply IH. assumption.
Qed.

Lemma NoDup_cards_applyEvent (room : Room.t) (e : Event) :
  NoDup (cardsInPlay room) -> NoDup (cardsInPlay (applyEvent room e)).
Proof.
  intros HP. destruct e; simpl.
  - unfold addPlayerToRoom.
    destruct (existsb _ _); [exact HP|].
    destruct (_ <=? _)%nat; [exact HP|].
    unfold cardsInPlay in *. destruct room; simpl in *.
    rewrite flat_map_app. simpl. rewrite app_nil_r. exact HP.
  - unfold removePlayerFromRoom.
    destruct (findIndex _ _) as [i|]; [|exact HP].
    unfold cardsInPlay in *. destruct room; simpl in *.
    destruct (flat_map_removeAt players i) as (gone & Hg).
    apply (NoDup_app_tail gone).
    apply (Permutation_NoDup (l := deck ++ communityCards ++ flat_map Player.hand players));
      [|exact HP].
    transitivity (deck ++ communityCards ++ gone ++ flat_map Player.hand (removeAt i players));
      [apply Permutation_app_head, Permutation_app_head, Hg|].
    transitivity (deck ++ gone ++ communityCards ++ flat_map Player.hand (removeAt i players));
      [apply Permutation_app_head, Permutation_app_swap_app|].
    apply Permutation_app_swap_app.
  - destruct (le_lt_dec 2 (List.length (Room.players room))) as [H2|H2].
    + destruct (startNewHand_spec rand room H2) as (room' & E & _ & _ & Hperm & _).
      rewrite E. simpl.
      apply (Permutation_NoDup (Permutation_sym Hperm)). apply NoDup_createDeck.
    + unfold startNewHand.
      destruct (_ <? 2)%nat eqn:E2; [exact HP | apply Nat.ltb_ge in E2; lia].
  - rewrite (sameDeal_cardsInPlay _ _ (sameDeal_processPlayerAction room id action amount)).
    exact HP.
  - rewrite (sameDeal_cardsInPlay _ _ (sameDeal_moveToNextPlayer room)). exact HP.
  - assert (Hdeal : forall n ph, NoDup (cardsInPlay (Room.set_phase ph (burnAndDeal n room)))).
    { intros n ph.
      destruct (burnAndDeal_spec n room) as (_ & _ & (burnt & Hb) & _).
      apply (NoDup_app_tail burnt).
      replace (cardsInPlay (Room.set_phase ph (burnAndDeal n room)))
        with (cardsInPlay (burnAndDeal n room))
        by (unfold cardsInPlay; destruct (burnAndDeal n room); reflexivity).
      apply (Permutation_NoDup Hb HP). }
    assert (Hph : forall ph, NoDup (cardsInPlay (Room.set_phase ph room))).
    { intros ph.
      replace (cardsInPlay (Room.set_phase ph room)) with (cardsInPlay room)
        by (unfold cardsInPlay; destruct room; reflexivity).
      exact HP. }
    unfold moveToNextPhase. cbv zeta.
    destruct (Room.phase room).
    + rewrite (sameDeal_cardsInPlay _ _ (sameDeal_resetRound room)). exact HP.
    + rewrite (sameDeal_cardsInPlay _ _ (sameDeal_resetRound _)).
      unfold dealFlop. destruct (_ <=? _)%nat; [apply Hdeal | apply Hph].
    + rewrite (sameDeal_cardsInPlay _ _ (sameDeal_resetRound _)).
      unfold dealTurn. destruct (_ <=? _)%nat; [apply Hdeal | apply Hph].
    + rewrite (sameDeal_cardsInPlay _ _ (sameDeal_resetRound _)).
      unfold dealRiver. destruct (_ <=? _)%nat; [apply Hdeal | apply Hph].
    + pose proof (sameDeal_processShowdown (Room.set_phase showdown room)) as Hs.
      destruct (processShowdown (Room.set_phase showdown room)) as [room1 [res|msg]];
        simpl in *; rewrite (sameDeal_cardsInPlay _ _ Hs); apply Hph.
    + rewrite (sameDeal_cardsInPlay _ _ (sameDeal_resetRound room)). exact HP.
  - rewrite (sameDeal_cardsInPlay _ _ (sameDeal_processShowdown room)). exact HP.
Qed.

(** X8.  From the creation of a room on, through any sequence of events,
    no card is in two places: the deck, the board and the hole cards of
    all seats never hold the same card twice. *)
Theorem no_card_is_dealt_twice (roomId name creatorId : string) (maxPlayers : nat)
    (minBet maxBet : Z) (events : list Event) :
  let room := run events
                  (createInitialGameState roomId name creatorId maxPlayers minBet maxBet) in
  NoDup (Room.deck room ++ Room.communityCards room ++
         flat_map Player.hand (Room.players room)).
Proof.
  cbv zeta. change (NoDup (cardsInPlay (run events
    (createInitialGameState roomId name creatorId maxPlayers minBet maxBet)))).
  assert (Hrun : forall evs room, NoDup (cardsInPlay room) -> NoDup (cardsInPlay (run evs room))).
  { unfold run. induction evs as [|e evs IH]; intros room HP; simpl; [exact HP|].
    apply IH. apply NoDup_cards_applyEvent. exact HP. }
  apply Hrun. simpl. constructor.
Qed.

Lemma boardInStep_sameDeal (a b : Room.t) : sameDeal a b -> boardInStep a -> boardInStep b.
Proof.
  intros (H1 & H2 & H3 & _) [H4 H5]. unfold boardInStep. rewrite H1, H2, H3.
  split; assumption.
Qed.

Lemma boardInStep_applyEvent (room : Room.t) (e : Event) :
  seated room -> (Room.maxPlayers room <= 22)%nat ->
  boardInStep room -> boardInStep (applyEvent room e).
Proof.
  intros [_ Hseat] Hmax HB. destruct e; simpl.
  - unfold addPlayerToRoom.
    destruct (existsb _ _); [exact HB|].
    destruct (_ <=? _)%nat; [exact HB|].
    unfold boardInStep in *. destruct room; exact HB.
  - unfold removePlayerFromRoom.
    destruct (findIndex _ _) as [i|]; [|exact HB].
    unfold boardInStep in *. destruct room; exact HB.
  - destruct (le_lt_dec 2 (List.length (Room.players room))) as [H2|H2].
    + destruct (startNewHand_spec rand room H2) as (room' & E & Hph & Hcc & _ & H26).
      rewrite E. simpl. destruct H26 as [_ Hdeck]; [lia|].
      unfold boardInStep. rewrite Hph, Hcc, Hdeck. simpl boardSize. simpl deckReserve.
      split; [reflexivity | lia].
    + unfold startNewHand.
      destruct (_ <? 2)%nat eqn:E2; [exact HB | apply Nat.ltb_ge in E2; lia].
  - exact (boardInStep_sameDeal _ _ (sameDeal_processPlayerAction room id action amount) HB).
  - exact (boardInStep_sameDeal _ _ (sameDeal_moveToNextPlayer room) HB).
  - assert (Hdeal : forall n ph,
              (deckReserve (Room.phase room) = S n + deckReserve ph)%nat ->
              (boardSize ph = boardSize (Room.phase room) + n)%nat ->
              boardInStep (Room.set_phase ph (burnAndDeal n room))).
    { intros n ph Hres Hsize. destruct HB as [HB1 HB2].
      destruct (burnAndDeal_spec n room) as (_ & _ & _ & Hlen).
      destruct Hlen as [L1 L2]; [lia|].
      unfold boardInStep.
      replace (Room.phase (Room.set_phase ph (burnAndDeal n room))) with ph
        by (destruct (burnAndDeal n room); reflexivity).
      replace (Room.communityCards (Room.set_phase ph (burnAndDeal n room)))
        with (Room.communityCards (burnAndDeal n room))
        by (destruct (burnAndDeal n room); reflexivity).
      replace (Room.deck (Room.set_phase ph (burnAndDeal n room)))
        with (Room.deck (burnAndDeal n room))
        by (destruct (burnAndDeal n room); reflexivity).
      split; lia. }
    unfold moveToNextPhase. cbv zeta.
    destruct (Room.phase room) eqn:Hph.
    + apply (boardInStep_sameDeal _ _ (sameDeal_resetRound room)). exact HB.
    + apply (boardInStep_sameDeal _ _ (sameDeal_resetRound _)).
      unfold dealFlop. destruct HB as [HB1 HB2]. rewrite Hph in HB2. simpl in HB2.
      destruct (_ <=? _)%nat eqn:E4; [|apply Nat.leb_gt in E4; lia].
      apply Hdeal; reflexivity.
    + apply (boardInStep_sameDeal _ _ (sameDeal_resetRound _)).
      unfold dealTurn. destruct HB as [HB1 HB2]. rewrite Hph in HB2. simpl in HB2.
      destruct (_ <=? _)%nat eqn:E4; [|apply Nat.leb_gt in E4; lia].
      apply Hdeal; reflexivity.
    + apply (boardInStep_sameDeal _ _ (sameDeal_resetRound _)).
      unfold dealRiver. destruct HB as [HB1 HB2]. rewrite Hph in HB2. simpl in HB2.
      destruct (_ <=? _)%nat eqn:E4; [|apply Nat.leb_gt in E4; lia].
      apply Hdeal; reflexivity.
    + pose proof (sameDeal_processShowdown (Room.set_phase showdown room)) as Hs.
      destruct (processShowdown (Room.set_phase showdown room)) as [room1 [res|msg]];
        simpl in *; apply (boardInStep_sameDeal _ _ Hs);
        destruct HB as [HB1 HB2]; rewrite Hph in HB1;
        unfold boardInStep; destruct room; simpl in *; split; (exact HB1 || lia).
    + apply (boardInStep_sameDeal _ _ (sameDeal_resetRound room)). exact HB.
  - exact (boardInStep_sameDeal _ _ (sameDeal_processShowdown room) HB).
Qed.

(** X9.  In a room created for at most 22 players the board always has the
    size of the phase, through any sequence of events: no card before the
    flop, three on the flop, four on the turn, five on the river and at the
    showdown. *)
Theorem board_matches_phase (roomId name creatorId : string) (maxPlayers : nat)
    (minBet maxBet : Z) (events : list Event) :
  (maxPlayers <= 22)%nat ->
  let room := run events
                  (createInitialGameState roomId name creatorId maxPlayers minBet maxBet) in
  List.length (Room.communityCards room) = boardSize (Room.phase room).
Proof.
  intros Hmax. cbv zeta.
  assert (Hrun : forall evs room,
            seated room -> (Room.maxPlayers room <= 22)%nat -> boardInStep room ->
            boardInStep (run evs room)).
  { unfold run. induction evs as [|e evs IH]; intros room Hs Hm HB; simpl; [exact HB|].
    apply IH.
    - apply seated_applyEvent. exact Hs.
    - rewrite maxPlayers_applyEvent. exact Hm.
    - apply boardInStep_applyEvent; assumption. }
  apply Hrun.
  - apply seated_createInitialGameState.
  - exact Hmax.
  - split; simpl; [reflexivity | lia].
Qed.

Lemma board_matches_phase_witness :
  let room := run [AddPlayer "P1" "Alice"; AddPlayer "P2" "Bob"; StartNewHand rand0;
                   NextPhase; NextPhase]
                  (createInitialGameState "room" "table" "P1" 6 10 1000) in
  List.length (Room.communityCards room) = boardSize (Room.phase room).
Proof.
  apply (board_matches_phase "room" "table" "P1" 6 10 1000). lia.
Defined.

(** ** Chips at the start of a hand and at the showdown *)

Lemma postBlinds_conserves (room : Room.t) :
  totalChips (fst (postBlinds room)) + Room.pot (fst (postBlinds room)) =
  totalChips room + Room.pot room.
Proof.
  unfold postBlinds.
  destruct (findPlayer _ (Room.players room)) as [[i p]|] eqn:Hf; [|reflexivity].
  cbv zeta. destruct (findPlayer_Some _ _ _ _ Hf) as (_ & Hn & _).
  set (room2 := Room.set_players _ (Room.set_pot _ room)).
  assert (H2 : totalChips room2 + Room.pot room2 = totalChips room + Room.pot room).
  { subst room2. unfold totalChips. destruct room; simpl in *.
    rewrite (sumZ_replaceAt _ _ p) by exact Hn.
    rewrite chips_markAllIn. destruct p; simpl. lia. }
  destruct (findPlayer _ (Room.players room2)) as [[j q]|] eqn:Hg; [|exact H2].
  destruct (findPlayer_Some _ _ _ _ Hg) as (_ & Hm & _).
  rewrite <- H2. unfold totalChips. destruct room2; simpl in *.
  rewrite (sumZ_replaceAt _ _ q) by exact Hm.
  rewrite chips_markAllIn. destruct q; simpl. lia.
Qed.

Lemma assignDealerAndBlinds_conserves (room : Room.t) :
  totalChips (fst (assignDealerAndBlinds room)) + Room.pot (fst (assignDealerAndBlinds room)) =
  totalChips room + Room.pot room.
Proof.
  unfold assignDealerAndBlinds.
  destruct (_ <? 2)%nat; [reflexivity|]. cbv zeta.
  destruct (idAt _ _) as [sb|msg]; [|destruct room; reflexivity].
  destruct (idAt _ _) as [bb|msg]; [|destruct room; reflexivity].
  rewrite postBlinds_conserves. destruct room; reflexivity.
Qed.

Lemma dealRound_chips (players : list Player.t) :
  forall deck, map Player.chips (snd (dealRound deck players)) = map Player.chips players.
Proof.
  induction players as [|p players IH]; intros deck; simpl; [reflexivity|].
  destruct (pop deck) as [[card deck1]|].
  - specialize (IH deck1). destruct (dealRound deck1 players). simpl in *.
    rewrite IH. destruct p; reflexivity.
  - specialize (IH deck). destruct (dealRound deck players). simpl in *.
    rewrite IH. reflexivity.
Qed.

Lemma dealHoleCards_money (room : Room.t) :
  totalChips (dealHoleCards room) = totalChips room /\
  Room.pot (dealHoleCards room) = Room.pot room.
Proof.
  unfold dealHoleCards, totalChips.
  pose proof (dealRound_chips (Room.players room) (Room.deck room)) as H1.
  destruct (dealRound (Room.deck room) (Room.players room)) as [deck1 players1].
  simpl snd in H1.
  pose proof (dealRound_chips players1 deck1) as H2.
  destruct (dealRound deck1 players1) as [deck2 players2].
  simpl snd in H2. destruct room; simpl in *. split; [congruence | reflexivity].
Qed.

(** Giving the turn writes [currentTurn] and nothing else. *)
Lemma setTurnFrom_frame (room : Room.t) (first : nat) :
  exists t, fst (setTurnFrom room first) = Room.set_currentTurn t room.
Proof.
  unfold setTurnFrom.
  destruct (seekActive _ _ _ _) as [k|];
    [destruct (idAt _ _)|]; simpl; eauto;
    exists (Room.currentTurn room); destruct room; reflexivity.
Qed.

Lemma setFirstPlayerToAct_frame (room : Room.t) :
  exists t, fst (setFirstPlayerToAct room) = Room.set_currentTurn t room.
Proof.
  unfold setFirstPlayerToAct.
  destruct (_ =? 0)%nat; [|apply setTurnFrom_frame].
  exists (Room.currentTurn room). destruct room; reflexivity.
Qed.

(** X10.  Starting a hand with at least two seats moves chips only from
    the blinds' stacks to the new pot: the chips on the table together
    with the new pot are the chips that were on the table before.
    Whatever the old pot held is dropped. *)
Theorem new_hand_drops_old_pot (rand : nat -> nat) (room : Room.t) :
  (2 <= List.length (Room.players room))%nat ->
  exists room',
    startNewHand rand room = (room', Ok tt) /\
    totalChips room' + Room.pot room' = totalChips room.
Proof.
  intros Hlen.
  destruct (startNewHand_Ok rand room Hlen) as (room' & E).
  exists room'. split; [exact E|].
  revert E. unfold startNewHand.
  destruct (_ <? 2)%nat eqn:E2; [apply Nat.ltb_lt in E2; lia|]. cbv zeta.
  set (room9 := Room.set_deck _ _).
  assert (H9 : totalChips room9 = totalChips room /\ Room.pot room9 = 0).
  { subst room9. unfold totalChips. destruct room; simpl.
    rewrite map_map. split; reflexivity. }
  destruct H9 as [H9 H9'].
  pose proof (assignDealerAndBlinds_conserves room9) as H10. rewrite H9' in H10.
  destruct (assignDealerAndBlinds room9) as [room10 [u|msg]]; simpl; [|discriminate].
  simpl fst in H10. intros E.
  destruct (dealHoleCards_money room10) as [M1 M2].
  destruct (setFirstPlayerToAct_frame (dealHoleCards room10)) as (t & Ht).
  rewrite E in Ht. simpl in Ht. rewrite Ht.
  replace (totalChips (Room.set_currentTurn t (dealHoleCards room10)))
    with (totalChips (dealHoleCards room10))
    by (unfold totalChips; destruct (dealHoleCards room10); reflexivity).
  replace (Room.pot (Room.set_currentTurn t (dealHoleCards room10)))
    with (Room.pot (dealHoleCards room10))
    by (destruct (dealHoleCards room10); reflexivity).
  lia.
Qed.

Lemma new_hand_drops_old_pot_witness :
  exists room',
    startNewHand rand0 scenario3_river = (room', Ok tt) /\
    totalChips room' + Room.pot room' = totalChips scenario3_river.
Proof.
  apply (new_hand_drops_old_pot rand0 scenario3_river). vm_compute. lia.
Defined.

Lemma onlyChips_replaceAt (players : list Player.t) (i : nat) (p : Player.t) (x : Z) :
  nth_error players i = Some p ->
  map (Player.set_chips 0) (replaceAt i (Player.set_chips x p) players) =
  map (Player.set_chips 0) players.
Proof.
  revert i. induction players as [|q players IH]; intros [|i]; simpl; intros H;
    try discriminate.
  - injection H as ->. destruct p; reflexivity.
  - rewrite (IH i H). reflexivity.
Qed.

Lemma payWinners_onlyChips (winners : list ShowdownEntry) :
  forall (room : Room.t) (winAmount remainder : Z) (index : nat),
  map (Player.set_chips 0) (Room.players (fst (payWinners room winAmount remainder index winners)))
  = map (Player.set_chips 0) (Room.players room).
Proof.
  induction winners as [|w winners IH]; intros room q r k; simpl; [reflexivity|].
  destruct (findPlayer _ _) as [[i player]|] eqn:Hf; [|reflexivity].
  cbv zeta. destruct (findPlayer_Some _ _ _ _ Hf) as (_ & Hn & _).
  set (room1 := Room.set_players _ room).
  specialize (IH room1 q r (S k)).
  assert (H1 : map (Player.set_chips 0) (Room.players room1) =
               map (Player.set_chips 0) (Room.players room)).
  { subst room1. destruct room; simpl in *. apply onlyChips_replaceAt. exact Hn. }
  destruct (payWinners room1 q r (S k) winners) as [room2 [paid|msg]]; simpl in *;
    congruence.
Qed.

Lemma findPlayer_filter (f : Player.t -> bool) (players : list Player.t) :
  (0 < List.length (filter f players))%nat ->
  exists i p, findPlayer f players = Some (i, p).
Proof.
  intros H.
  assert (Hi : forall k, exists i, findIndexFrom f players k = Some i).
  { induction players as [|q players IH]; simpl in *; intros k; [lia|].
    destruct (f q); [eauto | apply IH; exact H]. }
  destruct (Hi 0%nat) as (i & Hi0).
  destruct (findIndex_findPlayer f players i Hi0) as (p & Hp). eauto.
Qed.

(** With a seat still in, the showdown returns, pays out exactly the pot
    and changes nothing but the chips of seats. *)
Lemma processShowdown_pays (room : Room.t) :
  (1 <= List.length (filter nonFolded (Room.players room)))%nat ->
  0 <= Room.pot room ->
  exists room' result,
    processShowdown room = (room', Ok result) /\
    room' = Room.set_players (Room.players room') room /\
    map (Player.set_chips 0) (Room.players room') =
      map (Player.set_chips 0) (Room.players room) /\
    totalChips room' = totalChips room + Room.pot room.
Proof.
  intros Hsome Hpot. unfold processShowdown.
  change (fun p => negb (Player.folded p)) with nonFolded.
  set (active := filter nonFolded (Room.players room)) in *.
  destruct (List.length active =? 1)%nat eqn:H1.
  - destruct (findPlayer_filter nonFolded (Room.players room)) as (i & winner & Hf);
      [fold active; lia|].
    rewrite Hf. destruct (findPlayer_Some _ _ _ _ Hf) as (_ & Hn & _).
    eexists. eexists. split; [reflexivity|].
    split; [destruct room; reflexivity|].
    split; [destruct room; simpl in *; apply onlyChips_replaceAt; exact Hn|].
    unfold totalChips. destruct room; simpl in *.
    rewrite (sumZ_replaceAt _ _ winner) by exact Hn. destruct winner; simpl. lia.
  - apply Nat.eqb_neq in H1.
    destruct (evaluateAll_Ok (Room.communityCards room) active) as (entries & -> & HF).
    change (fun a b => entryScore b <=? entryScore a) with byScoreDesc.
    remember (sortBy byScoreDesc entries) as results eqn:Hr0.
    assert (Hlen : List.length results = List.length active).
    { rewrite Hr0, length_sortBy. symmetry. exact (Forall2_length HF). }
    assert (Hres : forall e, In e results -> In (playerId e) (map Player.id (Room.players room))).
    { intros e He. rewrite Hr0 in He. apply In_sortBy in He.
      destruct (Forall2_In_r _ _ _ _ HF He) as (p & Hp & Hid & _).
      rewrite Hid. apply in_map. apply filter_In in Hp. apply Hp. }
    destruct results as [|best rest]; [simpl in Hlen; lia|].
    set (results := best :: rest) in *.
    set (winners := filter (fun r => entryScore r =? entryScore best) results).
    assert (Hw0 : In best winners).
    { apply filter_In. split; [left; reflexivity | apply Z.eqb_refl]. }
    assert (Hwn : (0 < List.length winners)%nat).
    { destruct winners; [destruct Hw0 | simpl; lia]. }
    pose proof (payWinners_onlyChips winners room
                  (Room.pot room / Z.of_nat (List.length winners))
                  (Z.rem (Room.pot room) (Z.of_nat (List.length winners))) 0%nat) as Honly.
    destruct (payWinners_spec winners room
                (Room.pot room / Z.of_nat (List.length winners))
                (Z.rem (Room.pot room) (Z.of_nat (List.length winners))) 0%nat)
      as (room' & paid & E & _ & Hsnd & Hframe & _ & Hsum).
    { intros w Hw. apply filter_In in Hw. apply Hres. apply Hw. }
    rewrite E in Honly. simpl in Honly. rewrite E. simpl.
    exists room', (showdown_result results paid).
    split; [reflexivity|]. split; [exact Hframe|]. split; [exact Honly|].
    rewrite Hsum, Hsnd. rewrite shares_whole_pot by assumption. reflexivity.
Qed.

Lemma filter_nonFolded_onlyChips (l l' : list Player.t) :
  map (Player.set_chips 0) l' = map (Player.set_chips 0) l ->
  List.length (filter nonFolded l') = List.length (filter nonFolded l).
Proof.
  revert l'. induction l as [|p l IH]; intros [|p' l'] H; simpl in *; try discriminate;
    [reflexivity|].
  pose proof (f_equal (@tl _) H) as Hl. simpl in Hl.
  pose proof (f_equal (fun x => match x with
                                | a :: _ => Player.folded a
                                | [] => false
                                end) H) as Hp.
  simpl in Hp.
  assert (Hf : nonFolded p' = nonFolded p) by (unfold nonFolded; rewrite Hp; reflexivity).
  rewrite Hf. destruct (nonFolded p); simpl; rewrite (IH l' Hl); reflexivity.
Qed.

(** X11.  With at least one seat still in and a non-negative pot, the
    showdown returns, adds exactly the pot to the chips on the table and
    changes nothing else: seats differ only in their chips and the pot
    itself is left as it was.  A second showdown on the resulting room
    therefore pays the same pot again. *)
Theorem showdown_pays_pot_and_keeps_it (room : Room.t) :
  (1 <= List.length (filter nonFolded (Room.players room)))%nat ->
  0 <= Room.pot room ->
  exists room' result,
    processShowdown room = (room', Ok result) /\
    room' = Room.set_players (Room.players room') room /\
    Room.pot room' = Room.pot room /\
    map (Player.set_chips 0) (Room.players room') =
      map (Player.set_chips 0) (Room.players room) /\
    totalChips room' = totalChips room + Room.pot room /\
    totalChips (fst (processShowdown room')) = totalChips room + 2 * Room.pot room.
Proof.
  intros Hsome Hpot.
  destruct (processShowdown_pays room Hsome Hpot) as (room' & result & E & Hframe & Hseats & Htot).
  assert (Hpot' : Room.pot room' = Room.pot room) by (rewrite Hframe; destruct room; reflexivity).
  exists room', result.
  split; [exact E|]. split; [exact Hframe|]. split; [exact Hpot'|].
  split; [exact Hseats|]. split; [exact Htot|].
  destruct (processShowdown_pays room') as (room2 & result2 & E2 & _ & _ & Htot2).
  - rewrite (filter_nonFolded_onlyChips _ _ Hseats). exact Hsome.
  - rewrite Hpot'. exact Hpot.
  - rewrite E2. simpl fst. rewrite Htot2, Htot, Hpot'. lia.
Qed.

Lemma showdown_pays_pot_and_keeps_it_witness :
  exists room' result,
    processShowdown scenario3_river = (room', Ok result) /\
    room' = Room.set_players (Room.players room') scenario3_river /\
    Room.pot room' = Room.pot scenario3_river /\
    map (Player.set_chips 0) (Room.players room') =
      map (Player.set_chips 0) (Room.players scenario3_river) /\
    totalChips room' = totalChips scenario3_river + Room.pot scenario3_river /\
    totalChips (fst (processShowdown room')) =
      totalChips scenario3_river + 2 * Room.pot scenario3_river.
Proof.
  apply (showdown_pays_pot_and_keeps_it scenario3_river).
  - vm_compute. lia.
  - vm_compute. discriminate.
Defined.

(** ** The turn pointer *)

(** X12.  [moveToNextPlayer] writes [currentTurn] and nothing else, and the
    seat it names is seated, not folded, not all-in and connected; it
    names no seat only when no seat is able to act. *)
Theorem next_player_is_able_to_act (room : Room.t) :
  let room' := moveToNextPlayer room in
  room' = Room.set_currentTurn (Room.currentTurn room') room /\
  match Room.currentTurn room' with
  | Some pid =>
      exists p, In p (Room.players room) /\ Player.id p = pid /\
                Player.folded p = false /\ Player.allIn p = false /\
                Player.connected p = true
  | None => forall p, In p (Room.players room) -> canAct p = false
  end.
Proof.
  cbv zeta. unfold moveToNextPlayer. fold canAct.
  set (active := filter canAct (Room.players room)).
  assert (Hact : forall p, In p active ->
            exists q, In q (Room.players room) /\ Player.id q = Player.id p /\
                      Player.folded q = false /\ Player.allIn q = false /\
                      Player.connected q = true).
  { intros p Hp. apply filter_In in Hp. destruct Hp as [Hin Hc].
    unfold canAct in Hc. apply andb_true_iff in Hc. destruct Hc as [Hc Hconn].
    apply andb_true_iff in Hc. destruct Hc as [Hf Ha].
    apply negb_true_iff in Hf. apply negb_true_iff in Ha.
    exists p. repeat split; assumption. }
  assert (Hnone : active = [] -> forall p, In p (Room.players room) -> canAct p = false).
  { intros E p Hp. destruct (canAct p) eqn:Hc; [|reflexivity].
    assert (Hin : In p active) by (apply filter_In; split; assumption).
    rewrite E in Hin. destruct Hin. }
  destruct (List.length active <=? 1)%nat eqn:Hle.
  - destruct active as [|p [|p2 rest]] eqn:Ea.
    + split; [destruct room; reflexivity|]. simpl. apply Hnone. reflexivity.
    + split; [destruct room; reflexivity|].
      replace (Room.currentTurn (Room.set_currentTurn (Some (Player.id p)) room))
        with (Some (Player.id p)) by (destruct room; reflexivity).
      apply Hact. left. reflexivity.
    + simpl in Hle. discriminate.
  - apply Nat.leb_gt in Hle.
    destruct (findIndex _ active) as [k|].
    + cbv zeta.
      assert (Hk : ((k + 1) mod List.length active < List.length active)%nat)
        by (apply Nat.mod_upper_bound; lia).
      destruct (nth_error active ((k + 1) mod List.length active)) as [q|] eqn:Hq;
        [|apply nth_error_None in Hq; lia].
      split; [destruct room; reflexivity|].
      replace (Room.currentTurn (Room.set_currentTurn (option_map Player.id (Some q)) room))
        with (Some (Player.id q)) by (destruct room; reflexivity).
      apply Hact. apply (nth_error_In _ _ Hq).
    + destruct active as [|q rest] eqn:Ea; [simpl in Hle; lia|].
      split; [destruct room; reflexivity|].
      replace (Room.currentTurn
                 (Room.set_currentTurn (option_map Player.id (hd_error (q :: rest))) room))
        with (Some (Player.id q)) by (destruct room; reflexivity).
      apply Hact. left. reflexivity.
Qed.

Lemma findIndexFrom_NoDup (l : list Player.t) :
  NoDup (map Player.id l) ->
  forall k p j, nth_error l k = Some p ->
    findIndexFrom (fun q => idIs (Some (Player.id p)) (Player.id q)) l j = Some (j + k)%nat.
Proof.
  induction l as [|x l IH]; intros Hnd [|k] p j Hk; simpl in *; try discriminate.
  - injection Hk as ->. rewrite String.eqb_refl. f_equal. lia.
  - inversion Hnd as [|y m Hx Hl]; subst.
    destruct (String.eqb (Player.id p) (Player.id x)) eqn:E.
    + apply String.eqb_eq in E. exfalso. apply Hx. rewrite <- E.
      apply in_map. apply (nth_error_In _ _ Hk).
    + rewrite (IH Hl k p (S j) Hk). f_equal. lia.
Qed.

(** X13.  With distinct player ids, at least two seats able to act and the
    turn on one of them, [moveToNextPlayer] gives the turn to the next seat
    able to act in seat order, wrapping around after the last; that is
    always another player. *)
Theorem turn_passes_to_next_able_seat (room : Room.t) (k : nat) (p q : Player.t) :
  let active := filter canAct (Room.players room) in
  NoDup (map Player.id (Room.players room)) ->
  (2 <= List.length active)%nat ->
  nth_error active k = Some p ->
  Room.currentTurn room = Some (Player.id p) ->
  nth_error active ((k + 1) mod List.length active) = Some q ->
  Room.currentTurn (moveToNextPlayer room) = Some (Player.id q) /\
  Player.id q <> Player.id p.
Proof.
  cbv zeta. intros Hnd Hlen Hk Hturn Hq.
  pose proof (NoDup_map_filter Player.id canAct _ Hnd) as Hnd'.
  unfold moveToNextPlayer. fold canAct.
  set (active := filter canAct (Room.players room)) in *.
  destruct (List.length active <=? 1)%nat eqn:Hle; [apply Nat.leb_le in Hle; lia|].
  unfold findIndex. rewrite Hturn, (findIndexFrom_NoDup active Hnd' k p 0%nat Hk).
  simpl Nat.add. cbv zeta. rewrite Hq. split; [destruct room; reflexivity|].
  intros Heq.
  assert (Hkn : (k < List.length active)%nat)
    by (apply nth_error_Some; rewrite Hk; discriminate).
  assert (Hne : ((k + 1) mod List.length active <> k)%nat).
  { destruct (Nat.eq_dec (k + 1) (List.length active)) as [E|E].
    - rewrite E, Nat.Div0.mod_same. lia.
    - rewrite Nat.mod_small by lia. lia. }
  apply Hne.
  apply (proj1 (NoDup_nth_error (map Player.id active)) Hnd').
  - rewrite length_map. apply Nat.mod_upper_bound. lia.
  - rewrite !nth_error_map, Hq, Hk. simpl. f_equal. exact Heq.
Qed.

Lemma turn_passes_to_next_able_seat_witness :
  Room.currentTurn (moveToNextPlayer scenario6) = Some "P2" /\ "P2" <> "P1".
Proof.
  apply (turn_passes_to_next_able_seat scenario6 0
           (seat "P1" 1000 0 [] false false) (seat "P2" 990 10 [] false false)).
  - simpl. repeat constructor; simpl; intuition discriminate.
  - simpl. lia.
  - reflexivity.
  - reflexivity.
  - reflexivity.
Defined.

Lemma mod_offset_ne (n first e : nat) :
  (first < n)%nat -> (0 < e)%nat -> (e < n)%nat -> ((first + e) mod n <> first)%nat.
Proof.
  intros Hf He Hn.
  destruct (le_lt_dec n (first + e)) as [H|H].
  - replace (first + e)%nat with ((first + e - n) + 1 * n)%nat by lia.
    rewrite Nat.Div0.mod_add, Nat.mod_small by lia. lia.
  - rewrite Nat.mod_small by lia. lia.
Qed.

(** The loop stops at the first seat, going round from [first], that is
    neither folded nor all-in. *)
Lemma seekActive_first (players : list Player.t) (first d1 : nat) (p : Player.t) :
  (first < List.length players)%nat ->
  (d1 < List.length players)%nat ->
  nth_error players ((first + d1) mod List.length players) = Some p ->
  sitsOut p = false ->
  (forall d q, (d < d1)%nat ->
     nth_error players ((first + d) mod List.length players) = Some q -> sitsOut q = true) ->
  forall m d0 fuel,
    (d0 + m = d1)%nat -> (m <= fuel)%nat ->
    seekActive players first fuel ((first + d0) mod List.length players) =
    Ok ((first + d1) mod List.length players)%nat.
Proof.
  intros Hfirst Hd1 Hp Hin Hout. set (n := List.length players) in *.
  assert (Hn : n <> 0%nat) by lia.
  induction m as [|m IH]; intros d0 fuel Hd Hfuel.
  - replace d0 with d1 by lia.
    destruct fuel; simpl; rewrite Hp, Hin; reflexivity.
  - assert (Hcur : ((first + d0) mod n < n)%nat) by (apply Nat.mod_upper_bound; exact Hn).
    destruct (nth_error players ((first + d0) mod n)) as [q|] eqn:Hq;
      [|apply nth_error_None in Hq; fold n in Hq; lia].
    assert (Hsit : sitsOut q = true) by (apply (Hout d0 q); [lia | exact Hq]).
    assert (Hnext : (((first + d0) mod n + 1) mod n = (first + S d0) mod n)%nat).
    { rewrite Nat.Div0.add_mod_idemp_l. f_equal. lia. }
    assert (Hne : ((first + S d0) mod n =? first)%nat = false).
    { apply Nat.eqb_neq. apply mod_offset_ne; lia. }
    destruct fuel as [|fuel]; [lia|].
    simpl. rewrite Hq, Hsit. fold n. rewrite Hnext, Hne.
    apply IH; lia.
Qed.

Lemma setTurnFrom_first (room : Room.t) (first d : nat) (p : Player.t) :
  (first < List.length (Room.players room))%nat ->
  (d < List.length (Room.players room))%nat ->
  nth_error (Room.players room) ((first + d) mod List.length (Room.players room)) = Some p ->
  sitsOut p = false ->
  (forall d' q, (d' < d)%nat ->
     nth_error (Room.players room) ((first + d') mod List.length (Room.players room)) = Some q ->
     sitsOut q = true) ->
  setTurnFrom room first = (Room.set_currentTurn (Some (Player.id p)) room, Ok tt).
Proof.
  intros Hfirst Hd Hp Hin Hout. unfold setTurnFrom.
  pose proof (seekActive_first (Room.players room) first d p Hfirst Hd Hp Hin Hout
                d 0%nat (List.length (Room.players room))) as Hseek.
  rewrite Nat.add_0_r, (Nat.mod_small first) in Hseek by lia.
  rewrite Hseek by lia.
  unfold idAt. rewrite Hp. reflexivity.
Qed.

(** X14.  When a betting round opens, the turn goes to the first seat that
    is neither folded nor all-in, going round the table from the seat
    after the dealer (after the flop) or after the big blind (before it);
    disconnected seats are not skipped. *)
Theorem first_to_act_is_first_seat_still_betting (room : Room.t) (first d : nat)
    (p : Player.t) :
  let n := List.length (Room.players room) in
  (first < n)%nat -> (d < n)%nat ->
  nth_error (Room.players room) ((first + d) mod n) = Some p ->
  Player.folded p = false -> Player.allIn p = false ->
  (forall d' q, (d' < d)%nat ->
     nth_error (Room.players room) ((first + d') mod n) = Some q ->
     Player.folded q = true \/ Player.allIn q = true) ->
  (((Room.dealerIndex room + 1) mod n)%nat = first ->
   setFirstPlayerPostFlop room = (Room.set_currentTurn (Some (Player.id p)) room, Ok tt)) /\
  (forall bbIndex,
     findIndex (fun q => idIs (Room.bigBlind room) (Player.id q)) (Room.players room)
       = Some bbIndex ->
     ((bbIndex + 1) mod n)%nat = first ->
     setFirstPlayerToAct room = (Room.set_currentTurn (Some (Player.id p)) room, Ok tt)).
Proof.
  cbv zeta. intros Hfirst Hd Hp Hf Ha Hout.
  assert (Hsit : sitsOut p = false) by (unfold sitsOut; rewrite Hf, Ha; reflexivity).
  assert (Hout' : forall d' q, (d' < d)%nat ->
            nth_error (Room.players room)
                      ((first + d') mod List.length (Room.players room)) = Some q ->
            sitsOut q = true).
  { intros d' q Hd' Hq. unfold sitsOut. apply orb_true_iff. exact (Hout d' q Hd' Hq). }
  assert (Hsome : (List.length (filter (fun q => negb (Player.folded q) && negb (Player.allIn q))
                                       (Room.players room)) =? 0)%nat = false).
  { apply Nat.eqb_neq. intros E. apply length_zero_iff_nil in E.
    assert (Hin : In p (filter (fun q => negb (Player.folded q) && negb (Player.allIn q))
                               (Room.players room))).
    { apply filter_In. split; [apply (nth_error_In _ _ Hp) | rewrite Hf, Ha; reflexivity]. }
    rewrite E in Hin. destruct Hin. }
  split.
  - intros Hdealer. unfold setFirstPlayerPostFlop. cbv zeta. rewrite Hsome, Hdealer.
    apply (setTurnFrom_first room first d p); assumption.
  - intros bbIndex Hbb Hnext. unfold setFirstPlayerToAct. cbv zeta.
    rewrite Hsome, Hbb, Hnext.
    apply (setTurnFrom_first room first d p); assumption.
Qed.

Lemma first_to_act_is_first_seat_still_betting_witness :
  (((Room.dealerIndex scenario6 + 1) mod 2)%nat = 1%nat ->
   setFirstPlayerPostFlop scenario6 = (Room.set_currentTurn (Some "P2") scenario6, Ok tt)) /\
  (forall bbIndex,
     findIndex (fun q => idIs (Room.bigBlind scenario6) (Player.id q)) (Room.players scenario6)
       = Some bbIndex ->
     ((bbIndex + 1) mod 2)%nat = 1%nat ->
     setFirstPlayerToAct scenario6 = (Room.set_currentTurn (Some "P2") scenario6, Ok tt)).
Proof.
  apply (first_to_act_is_first_seat_still_betting scenario6 1 0
           (seat "P2" 990 10 [] false false)).
  - simpl. lia.
  - simpl. lia.
  - reflexivity.
  - reflexivity.
  - reflexivity.
  - intros d' q Hd'. lia.
Defined.

(** ** Blinds *)

Lemma findPlayer_by_id (players : list Player.t) (i : nat) (p : Player.t) :
  NoDup (map Player.id players) -> nth_error players i = Some p ->
  findPlayer (fun q => idIs (Some (Player.id p)) (Player.id q)) players = Some (i, p).
Proof.
  intros Hnd Hi. unfold findPlayer, findIndex.
  rewrite (findIndexFrom_NoDup players Hnd i p 0%nat Hi). simpl Nat.add.
  rewrite Hi. reflexivity.
Qed.

(** The seats next to the dealer among the seats with chips are two
    different seats. *)
Lemma blind_seats_differ (n d : nat) :
  (2 <= n)%nat ->
  ((if (n =? 2)%nat then d mod n else ((d mod n + 1) mod n)) <>
   (if (n =? 2)%nat then ((d mod n + 1) mod n) else ((d mod n + 2) mod n)))%nat.
Proof.
  intros Hn.
  assert (Hd : (d mod n < n)%nat) by (apply Nat.mod_upper_bound; lia).
  destruct (n =? 2)%nat eqn:E.
  - apply Nat.eqb_eq in E. subst n.
    destruct (Nat.eq_dec (d mod 2) 0) as [H0|H0].
    + rewrite H0. simpl. lia.
    + assert (H1 : (d mod 2 = 1)%nat) by lia. rewrite H1. simpl. lia.
  - apply Nat.eqb_neq in E.
    set (k := (d mod n)%nat) in *.
    destruct (le_lt_dec n (k + 1)) as [H1|H1].
    + replace (k + 1)%nat with n by lia. rewrite Nat.Div0.mod_same.
      replace (k + 2)%nat with (1 + 1 * n)%nat by lia.
      rewrite Nat.Div0.mod_add, Nat.mod_small by lia. lia.
    + rewrite (Nat.mod_small (k + 1)) by lia.
      destruct (le_lt_dec n (k + 2)) as [H2|H2].
      * replace (k + 2)%nat with n by lia. rewrite Nat.Div0.mod_same. lia.
      * rewrite Nat.mod_small by lia. lia.
Qed.

(** X15.  With distinct player ids and at least two seats with chips, the
    two seats after the dealer among the seats with chips (the dealer
    itself and the next one when only two have chips) post the blinds:
    they are different players, the small blind pays half the minimum bet
    (rounded down) and the big blind the minimum bet, each capped at its
    stack; both amounts go to the pot, the current bet is what the big
    blind paid, and the big blind is the last raiser. *)
Theorem blinds_are_posted (room : Room.t) (sbP bbP : Player.t) :
  let active := filter (fun p => Player.chips p >? 0) (Room.players room) in
  let n := List.length active in
  let d := (Room.dealerIndex room mod n)%nat in
  let sbPost := Z.min (Room.minBet room / 2) (Player.chips sbP) in
  let bbPost := Z.min (Room.minBet room) (Player.chips bbP) in
  NoDup (map Player.id (Room.players room)) ->
  (2 <= n)%nat ->
  nth_error active (if (n =? 2)%nat then d else ((d + 1) mod n)%nat) = Some sbP ->
  nth_error active (if (n =? 2)%nat then ((d + 1) mod n)%nat else ((d + 2) mod n)%nat)
    = Some bbP ->
  exists room' i j,
    assignDealerAndBlinds room = (room', Ok tt) /\
    Player.id sbP <> Player.id bbP /\
    Room.dealerIndex room' = d /\
    Room.smallBlind room' = Some (Player.id sbP) /\
    Room.bigBlind room' = Some (Player.id bbP) /\
    Room.pot room' = Room.pot room + sbPost + bbPost /\
    Room.currentBet room' = bbPost /\
    Room.lastRaiser room' = Some (Player.id bbP) /\
    nth_error (Room.players room) i = Some sbP /\
    nth_error (Room.players room) j = Some bbP /\
    Room.players room' =
      replaceAt j (markAllIn (Player.set_bet bbPost
                                (Player.set_chips (Player.chips bbP - bbPost) bbP)))
        (replaceAt i (markAllIn (Player.set_bet sbPost
                                   (Player.set_chips (Player.chips sbP - sbPost) sbP)))
           (Room.players room)).
Proof.
  cbv zeta. intros Hnd Hn Hsb Hbb.
  set (active := filter (fun p => Player.chips p >? 0) (Room.players room)) in *.
  set (n := List.length active) in *.
  pose proof (blind_seats_differ n (Room.dealerIndex room) Hn) as Hdiff.
  pose proof (NoDup_map_filter Player.id (fun p => Player.chips p >? 0) _ Hnd) as Hnda.
  fold active in Hnda.
  assert (Hids : Player.id sbP <> Player.id bbP).
  { intros Heq. apply Hdiff.
    apply (proj1 (NoDup_nth_error (map Player.id active)) Hnda).
    - rewrite length_map. apply nth_error_Some. fold n. rewrite Hsb. discriminate.
    - rewrite !nth_error_map. fold n. rewrite Hsb, Hbb. simpl. f_equal. exact Heq. }
  assert (Hin : forall p k, nth_error active k = Some p ->
            exists i, nth_error (Room.players room) i = Some p).
  { intros p k Hk. apply nth_error_In in Hk. apply filter_In in Hk.
    destruct Hk as [Hk _]. apply In_nth_error in Hk. exact Hk. }
  destruct (Hin _ _ Hsb) as (i & Hi). destruct (Hin _ _ Hbb) as (j & Hj).
  assert (Hij : i <> j) by (intros ->; congruence).
  unfold assignDealerAndBlinds. cbv zeta. fold active. fold n.
  destruct (n <? 2)%nat eqn:E2; [apply Nat.ltb_lt in E2; lia|].
  replace (Room.dealerIndex (Room.set_dealerIndex (Room.dealerIndex room mod n) room))
    with (Room.dealerIndex room mod n)%nat by (destruct room; reflexivity).
  unfold idAt. rewrite Hsb, Hbb.
  set (room3 := Room.set_bigBlind _ (Room.set_smallBlind _ (Room.set_dealerIndex _ room))).
  assert (H3 : Room.players room3 = Room.players room /\
               Room.smallBlind room3 = Some (Player.id sbP) /\
               Room.bigBlind room3 = Some (Player.id bbP) /\
               Room.minBet room3 = Room.minBet room /\ Room.pot room3 = Room.pot room /\
               Room.dealerIndex room3 = (Room.dealerIndex room mod n)%nat).
  { subst room3. destruct room; repeat split. }
  destruct H3 as (Hpl & Hs & Hb & Hmin & Hpot & Hdealer).
  unfold postBlinds. cbv zeta. rewrite Hs, Hpl, (findPlayer_by_id _ i sbP Hnd Hi).
  set (sb' := markAllIn _).
  replace (Room.bigBlind (Room.set_players (replaceAt i sb' (Room.players (Room.set_pot
             (Room.pot room3 + Z.min (Room.minBet room3 / 2) (Player.chips sbP)) room3)))
             (Room.set_pot (Room.pot room3 + Z.min (Room.minBet room3 / 2) (Player.chips sbP))
                room3)))
    with (Some (Player.id bbP)) by (rewrite <- Hb; destruct room3; reflexivity).
  replace (Room.players (Room.set_players (replaceAt i sb' (Room.players (Room.set_pot
             (Room.pot room3 + Z.min (Room.minBet room3 / 2) (Player.chips sbP)) room3)))
             (Room.set_pot (Room.pot room3 + Z.min (Room.minBet room3 / 2) (Player.chips sbP))
                room3)))
    with (replaceAt i sb' (Room.players room))
    by (rewrite <- Hpl; destruct room3; reflexivity).
  assert (Hid' : Player.id sb' = Player.id sbP)
    by (subst sb'; rewrite id_markAllIn; destruct sbP; reflexivity).
  assert (Hnd2 : NoDup (map Player.id (replaceAt i sb' (Room.players room))))
    by (rewrite (ids_replaceAt _ _ sbP sb' Hi Hid'); exact Hnd).
  assert (Hj2 : nth_error (replaceAt i sb' (Room.players room)) j = Some bbP)
    by (rewrite nth_error_replaceAt_ne by exact Hij; exact Hj).
  rewrite (findPlayer_by_id _ j bbP Hnd2 Hj2).
  eexists. exists i, j. split; [reflexivity|].
  split; [exact Hids|].
  rewrite <- Hmin, <- Hpot.
  destruct room3; simpl in *. subst. repeat split; try assumption; reflexivity.
Qed.

Lemma blinds_are_posted_witness :
  exists room' i j,
    assignDealerAndBlinds scenario6 = (room', Ok tt) /\
    "P1" <> "P2" /\
    Room.dealerIndex room' = 0%nat /\
    Room.smallBlind room' = Some "P1" /\
    Room.bigBlind room' = Some "P2" /\
    Room.pot room' = 10 + 5 + 10 /\
    Room.currentBet room' = 10 /\
    Room.lastRaiser room' = Some "P2" /\
    nth_error (Room.players scenario6) i = Some (seat "P1" 1000 0 [] false false) /\
    nth_error (Room.players scenario6) j = Some (seat "P2" 990 10 [] false false) /\
    Room.players room' =
      replaceAt j (markAllIn (Player.set_bet 10
                                (Player.set_chips (990 - 10)
                                   (seat "P2" 990 10 [] false false))))
        (replaceAt i (markAllIn (Player.set_bet 5
                                   (Player.set_chips (1000 - 5)
                                      (seat "P1" 1000 0 [] false false))))
           (Room.players scenario6)).
Proof.
  apply (blinds_are_posted scenario6
           (seat "P1" 1000 0 [] false false) (seat "P2" 990 10 [] false false)).
  - simpl. repeat constructor; simpl; intuition discriminate.
  - simpl. lia.
  - reflexivity.
  - reflexivity.
Defined.

(** ** Calling, and moving to the next street *)



Lemma burnAndDeal_players (count : nat) (room : Room.t) :
  Room.players (burnAndDeal count room) = Room.players room /\
  Room.pot (burnAndDeal count room) = Room.pot room.
Proof.
  unfold burnAndDeal.
  destruct (pop _) as [[burnt deck1]|]; [|split; reflexivity].
  destruct (popN count deck1) as [cards deck2]. destruct room; split; reflexivity.
Qed.

Lemma setFirstPlayerPostFlop_Ok (room : Room.t) :
  exists t, setFirstPlayerPostFlop room = (Room.set_currentTurn t room, Ok tt).
Proof.
  unfold setFirstPlayerPostFlop.
  destruct (_ =? 0)%nat eqn:E.
  - exists (Room.currentTurn room). destruct room; reflexivity.
  - apply Nat.eqb_neq in E.
    assert (Hne : Room.players room <> []).
    { intros Hnil. apply E. rewrite Hnil. reflexivity. }
    destruct (setTurnFrom_Ok room
                ((Room.dealerIndex room + 1) mod List.length (Room.players room))%nat)
      as (pid & Ep & _).
    + apply Nat.mod_upper_bound. intros H0. apply length_zero_iff_nil in H0. contradiction.
    + exists (Some pid). exact Ep.
Qed.

(** X17.  Outside the river, [moveToNextPhase] returns without a showdown
    and opens a fresh betting round: the phase moves one street on (it
    stays in waiting and in showdown), the current bet is 0, nobody is the
    last raiser, nobody has acted, every seat's round bet is 0 and nothing
    else of a seat changes; the pot is carried over unchanged. *)
Theorem next_street_opens_fresh_round (room : Room.t) :
  Room.phase room <> river ->
  exists room',
    moveToNextPhase room = (room', Ok None) /\
    Room.phase room' = nextStreet (Room.phase room) /\
    Room.currentBet room' = 0 /\
    Room.lastRaiser room' = None /\
    Room.playersActedThisRound room' = [] /\
    Room.players room' = map (Player.set_bet 0) (Room.players room) /\
    Room.pot room' = Room.pot room.
Proof.
  intros Hph.
  assert (Hreset : forall room0,
            Room.players room0 = Room.players room -> Room.pot room0 = Room.pot room ->
            exists room',
              ebind (setFirstPlayerPostFlop
                       (Room.set_players
                          (map (Player.set_bet 0)
                               (Room.players
                                  (Room.set_playersActedThisRound []
                                     (Room.set_lastRaiser None (Room.set_currentBet 0 room0)))))
                          (Room.set_playersActedThisRound []
                             (Room.set_lastRaiser None (Room.set_currentBet 0 room0)))))
                    (fun room5 (_ : unit) => (room5, Ok (@None ShowdownResult)))
              = (room', Ok None) /\
              Room.phase room' = Room.phase room0 /\
              Room.currentBet room' = 0 /\
              Room.lastRaiser room' = None /\
              Room.playersActedThisRound room' = [] /\
              Room.players room' = map (Player.set_bet 0) (Room.players room) /\
              Room.pot room' = Room.pot room).
  { intros room0 Hpl Hpot.
    match goal with
    | |- exists room', ebind (setFirstPlayerPostFlop ?r4) _ = _ /\ _ =>
        destruct (setFirstPlayerPostFlop_Ok r4) as (t & Et); rewrite Et
    end.
    eexists. split; [reflexivity|].
    rewrite <- Hpl, <- Hpot. destruct room0; repeat split. }
  assert (Hdeal : forall n ph,
            Room.players (Room.set_phase ph (burnAndDeal n room)) = Room.players room /\
            Room.pot (Room.set_phase ph (burnAndDeal n room)) = Room.pot room).
  { intros n ph. destruct (burnAndDeal_players n room) as [H1 H2].
    rewrite <- H1, <- H2. destruct (burnAndDeal n room); split; reflexivity. }
  assert (Hsame : forall ph,
            Room.players (Room.set_phase ph room) = Room.players room /\
            Room.pot (Room.set_phase ph room) = Room.pot room)
    by (intros ph; destruct room; split; reflexivity).
  unfold moveToNextPhase. cbv zeta.
  destruct (Room.phase room) eqn:E; try congruence; simpl nextStreet.
  - destruct (Hreset room eq_refl eq_refl) as (room' & Er & P & R).
    exists room'. split; [exact Er|]. split; [congruence | exact R].
  - unfold dealFlop.
    destruct (_ <=? _)%nat;
      [destruct (Hdeal 3%nat flop) as [H1 H2] | destruct (Hsame flop) as [H1 H2]];
      destruct (Hreset _ H1 H2) as (room' & Er & P & R);
      exists room'; (split; [exact Er|]); (split; [|exact R]); rewrite P;
      match goal with
      | |- Room.phase (Room.set_phase _ ?r) = _ => destruct r; reflexivity
      end.
  - unfold dealTurn.
    destruct (_ <=? _)%nat;
      [destruct (Hdeal 1%nat turn) as [H1 H2] | destruct (Hsame turn) as [H1 H2]];
      destruct (Hreset _ H1 H2) as (room' & Er & P & R);
      exists room'; (split; [exact Er|]); (split; [|exact R]); rewrite P;
      match goal with
      | |- Room.phase (Room.set_phase _ ?r) = _ => destruct r; reflexivity
      end.
  - unfold dealRiver.
    destruct (_ <=? _)%nat;
      [destruct (Hdeal 1%nat river) as [H1 H2] | destruct (Hsame river) as [H1 H2]];
      destruct (Hreset _ H1 H2) as (room' & Er & P & R);
      exists room'; (split; [exact Er|]); (split; [|exact R]); rewrite P;
      match goal with
      | |- Room.phase (Room.set_phase _ ?r) = _ => destruct r; reflexivity
      end.
  - destruct (Hreset room eq_refl eq_refl) as (room' & Er & P & R).
    exists room'. split; [exact Er|]. split; [congruence | exact R].
Qed.

Lemma next_street_opens_fresh_round_witness :
  exists room',
    moveToNextPhase scenario6 = (room', Ok None) /\
    Room.phase room' = nextStreet (Room.phase scenario6) /\
    Room.currentBet room' = 0 /\
    Room.lastRaiser room' = None /\
    Room.playersActedThisRound room' = [] /\
    Room.players room' = map (Player.set_bet 0) (Room.players scenario6) /\
    Room.pot room' = Room.pot scenario6.
Proof.
  apply (next_street_opens_fresh_round scenario6). simpl. discriminate.
Defined.

(** ** Rounds: when the betting is open *)

Lemma filter_filter_andb {A} (f g : A -> bool) (l : list A) :
  filter g (filter f l) = filter (fun x => f x && g x) l.
Proof.
  induction l as [|x l IH]; simpl; [reflexivity|].
  destruct (f x); simpl; [destruct (g x)|]; rewrite IH; reflexivity.
Qed.

Lemma filter_length_le_weaker {A} (f g : A -> bool) (l : list A) :
  (forall x, f x = true -> g x = true) ->
  (List.length (filter f l) <= List.length (filter g l))%nat.
Proof.
  intros H. induction l as [|x l IH]; simpl; [lia|].
  destruct (f x) eqn:Fx; [rewrite (H x Fx); simpl; lia|].
  destruct (g x); simpl; lia.
Qed.

(** Among two or more seats with distinct ids one is not [pid]. *)
Lemma other_seat (pid : string) (l : list Player.t) :
  NoDup (map Player.id l) -> (2 <= List.length l)%nat ->
  exists q, In q l /\ Player.id q <> pid.
Proof.
  intros Hnd Hlen. destruct l as [|a [|b rest]]; simpl in Hlen; try lia.
  destruct (string_dec (Player.id a) pid) as [Ea|Ea].
  - exists b. split; [right; left; reflexivity|].
    intros Eb. inversion Hnd as [|x m Hx Hm]; subst. apply Hx.
    left. congruence.
  - exists a. split; [left; reflexivity | exact Ea].
Qed.

(** An accepted bet or raise leaves the actor as the only seat that has
    acted. *)
Lemma acted_after_bet_or_raise (room room' : Room.t) (pid action : string) (amount : Z) :
  action = "bet" \/ action = "raise" ->
  processPlayerAction room pid action amount = (room', Ok tt) ->
  Room.playersActedThisRound room' = [pid].
Proof.
  intros Hact. unfold processPlayerAction.
  destruct (findPlayer _ _) as [[i player]|] eqn:Hf; [|discriminate].
  destruct (findPlayer_Some _ _ _ _ Hf) as (_ & _ & Hid). apply hasId_eq in Hid.
  destruct (negb _); [discriminate|].
  destruct (Player.folded player); [discriminate|].
  assert (Hd : forall room1 player1 result,
            dispatchAction room player action amount = (room1, player1, result) ->
            result = Ok tt -> Room.playersActedThisRound room1 = [pid]).
  { intros room1 player1 result.
    destruct Hact as [-> | ->]; unfold dispatchAction; simpl String.eqb; cbv iota.
    - unfold processBet.
      repeat match goal with
             | |- context [if ?b then _ else _] => destruct b
             end; cbv zeta; intros E; injection E; intros E3 _ E1 Hr;
        subst; try discriminate.
      destruct room, player; reflexivity.
    - unfold processRaise. cbv zeta.
      repeat match goal with
             | |- context [if ?b then _ else _] => destruct b
             end; intros E; injection E; intros E3 _ E1 Hr;
        subst; try discriminate.
      destruct room, player; reflexivity. }
  destruct (dispatchAction room player action amount) as [[room1 player1] result] eqn:E.
  specialize (Hd room1 player1 result eq_refl).
  destruct result as [u|msg]; [|discriminate].
  destruct u. specialize (Hd eq_refl).
  replace (Room.playersActedThisRound
             (Room.set_players (replaceAt i player1 (Room.players room1)) room1))
    with (Room.playersActedThisRound room1) by (destruct room1; reflexivity).
  rewrite Hd. simpl. rewrite String.eqb_refl.
  intros E'. injection E' as <-. destruct room1; simpl in *. exact Hd.
Qed.

Lemma isRoundComplete_open (room : Room.t) (q : Player.t) :
  (2 <= List.length (filter stillBetting (Room.players room)))%nat ->
  In q (Room.players room) -> stillBetting q = true ->
  includesId (Room.playersActedThisRound room) (Player.id q) = false ->
  isRoundComplete room = false.
Proof.
  intros Hlen Hq Hbet Hnot. unfold isRoundComplete. cbv zeta.
  rewrite !filter_filter_andb.
  assert (H1 : (List.length (filter stillBetting (Room.players room)) <=
                List.length (filter (fun p => negb (Player.folded p)) (Room.players room)))%nat).
  { apply filter_length_le_weaker. intros x Hx. unfold stillBetting in Hx.
    apply andb_true_iff in Hx. apply Hx. }
  destruct (_ <=? 1)%nat eqn:E1; [apply Nat.leb_le in E1; lia|].
  fold stillBetting.
  destruct (List.length (filter stillBetting (Room.players room)) <=? 1)%nat eqn:E2;
    [apply Nat.leb_le in E2; lia|].
  apply Nat.eqb_neq. intros E. apply length_zero_iff_nil in E.
  assert (Hin : In q (filter
            (fun x => stillBetting x &&
               (negb (includesId (Room.playersActedThisRound room) (Player.id x))
                || (Room.currentBet room >? 0) && (Player.bet x <? Room.currentBet room)))
            (Room.players room))).
  { apply filter_In. split; [exact Hq|]. rewrite Hbet, Hnot. reflexivity. }
  unfold stillBetting in Hin. rewrite E in Hin. destruct Hin.
Qed.

(** X18.  An accepted bet or raise re-opens the betting: with distinct
    player ids, as long as two or more seats are neither folded nor all-in
    afterwards, the round is not complete. *)
Theorem bet_or_raise_reopens_round (room room' : Room.t) (pid action : string) (amount : Z) :
  action = "bet" \/ action = "raise" ->
  NoDup (map Player.id (Room.players room')) ->
  processPlayerAction room pid action amount = (room', Ok tt) ->
  (2 <= List.length (filter stillBetting (Room.players room')))%nat ->
  isRoundComplete room' = false.
Proof.
  intros Hact Hnd E Hlen.
  pose proof (acted_after_bet_or_raise _ _ _ _ _ Hact E) as Hacted.
  destruct (other_seat pid (filter stillBetting (Room.players room'))) as (q & Hq & Hne).
  - apply NoDup_map_filter. exact Hnd.
  - exact Hlen.
  - apply filter_In in Hq. destruct Hq as [Hin Hbet].
    apply (isRoundComplete_open room' q Hlen Hin Hbet).
    rewrite Hacted. simpl. rewrite orb_false_r. apply String.eqb_neq. congruence.
Qed.

Lemma bet_or_raise_reopens_round_witness :
  isRoundComplete (fst (processPlayerAction raiseRoom "P1" "raise" 40)) = false.
Proof.
  apply (bet_or_raise_reopens_round raiseRoom _ "P1" "raise" 40).
  - right. reflexivity.
  - simpl. repeat constructor; simpl; intuition discriminate.
  - reflexivity.
  - simpl. lia.
Defined.

(** X19.  When [checkGameState] reports that the game goes on (not ended,
    round not complete), at least two connected seats are neither folded
    nor all-in, so [moveToNextPlayer] always finds a seat to give the turn
    to. *)
Theorem game_goes_on_with_someone_to_act (room : Room.t) :
  checkGameState room = gameGoesOn ->
  (2 <= List.length (filter canAct (Room.players room)))%nat /\
  isRoundComplete room = false /\
  exists pid, Room.currentTurn (moveToNextPlayer room) = Some pid.
Proof.
  unfold checkGameState. cbv zeta. rewrite filter_filter_andb.
  set (active := filter (fun p => negb (Player.folded p) && Player.connected p)
                        (Room.players room)).
  set (playing := filter _ (Room.players room)).
  destruct (List.length active <=? 1)%nat eqn:E1; [discriminate|].
  destruct (List.length playing <=? 1)%nat eqn:E2.
  - apply Nat.leb_gt in E1. apply Nat.ltb_lt in E1. rewrite E1. discriminate.
  - subst playing. rewrite andb_false_l.
    destruct (isRoundComplete room) eqn:E3; [discriminate|]. intros _.
    apply Nat.leb_gt in E2.
    assert (Hcan : (2 <= List.length (filter canAct (Room.players room)))%nat).
    { erewrite (filter_ext canAct); [exact E2|].
      intros p. unfold canAct. destruct (Player.folded p), (Player.allIn p),
        (Player.connected p); reflexivity. }
    split; [exact Hcan|]. split; [reflexivity|].
    clear E1 E2 E3. clear active. unfold moveToNextPlayer. fold canAct.
    destruct (List.length (filter canAct (Room.players room)) <=? 1)%nat eqn:E4;
      [apply Nat.leb_le in E4; lia|].
    destruct (findIndex _ _) as [k|].
    + cbv zeta.
      assert (Hk : ((k + 1) mod List.length (filter canAct (Room.players room)) <
                    List.length (filter canAct (Room.players room)))%nat)
        by (apply Nat.mod_upper_bound; lia).
      destruct (nth_error _ _) as [q|] eqn:Hq; [|apply nth_error_None in Hq; lia].
      exists (Player.id q). reflexivity.
    + destruct (filter canAct (Room.players room)) as [|q rest]; [simpl in Hcan; lia|].
      exists (Player.id q). reflexivity.
Qed.

Lemma game_goes_on_with_someone_to_act_witness :
  (2 <= List.length (filter canAct (Room.players scenario6)))%nat /\
  isRoundComplete scenario6 = false /\
  exists pid, Room.currentTurn (moveToNextPlayer scenario6) = Some pid.
Proof.
  apply (game_goes_on_with_someone_to_act scenario6). reflexivity.
Defined.

(** ** The broadcast view *)

(** X20.  Outside the showdown the broadcast view shows no hole card of any
    seat, the receiver's own included: each seat's hand is as many hidden
    placeholders as it holds cards, so two rooms that differ only in which
    hole cards the seats hold are broadcast alike.  At the showdown every
    hand is shown, those of folded seats too. *)
Theorem broadcast_hides_all_hole_cards (room : Room.t) :
  (Room.phase room <> showdown ->
   map PlayerView.hand (RoomView.players (sanitizeRoomForBroadcast room)) =
     map (fun p => repeat hidden (List.length (Player.hand p))) (Room.players room) /\
   forall players',
     map (fun p => (Player.set_hand [] p, List.length (Player.hand p))) players' =
     map (fun p => (Player.set_hand [] p, List.length (Player.hand p))) (Room.players room) ->
     sanitizeRoomForBroadcast (Room.set_players players' room) =
     sanitizeRoomForBroadcast room) /\
  (Room.phase room = showdown ->
   map PlayerView.hand (RoomView.players (sanitizeRoomForBroadcast room)) =
     map (fun p => map shown (Player.hand p)) (Room.players room)).
Proof.
  assert (Hrep : forall h : list Card, map (fun _ => hidden) h = repeat hidden (List.length h)).
  { induction h as [|x h IH]; simpl; [reflexivity | rewrite IH; reflexivity]. }
  split.
  - intros Hph.
    assert (Hhide : negb (Phase_eqb (Room.phase room) showdown) = true)
      by (destruct (Room.phase room); try reflexivity; congruence).
    split.
    + unfold sanitizeRoomForBroadcast. cbv zeta. rewrite Hhide. simpl.
      rewrite map_map. apply map_ext. intros p. simpl. apply Hrep.
    + intros players' Hsame.
      unfold sanitizeRoomForBroadcast. cbv zeta.
      replace (Room.phase (Room.set_players players' room)) with (Room.phase room)
        by (destruct room; reflexivity).
      rewrite Hhide.
      assert (Hview : map (viewPlayer true) players' =
                      map (viewPlayer true) (Room.players room)).
      { revert Hsame. generalize (Room.players room) as l. intros l. revert players'.
        induction l as [|p l IH]; intros [|p' l'] H; simpl in *; try discriminate;
          [reflexivity|].
        injection H; intros.
        match goal with
        | Hl : map _ l' = map _ l |- _ => rewrite (IH l' Hl)
        end.
        f_equal. unfold viewPlayer. rewrite !Hrep. congruence. }
      destruct room; simpl in *. rewrite Hview. reflexivity.
  - intros Hph. unfold sanitizeRoomForBroadcast. cbv zeta. rewrite Hph. simpl.
    rewrite map_map. reflexivity.
Qed.

(** ** The evaluator: what each check detects *)

Lemma find_None_iff {A} (f : A -> bool) (l : list A) :
  find f l = None <-> forall x, In x l -> f x = false.
Proof.
  split.
  - intros H x Hx. exact (find_none f l H x Hx).
  - intros H. induction l as [|y l IH]; simpl; [reflexivity|].
    rewrite (H y (or_introl eq_refl)). apply IH. intros x Hx. apply H. right. exact Hx.
Qed.

Lemma In_entriesByRank (e : Rank * Group) (groups : list (Rank * Group)) :
  In e (entriesByRank groups) <-> In e groups.
Proof.
  unfold entriesByRank. rewrite in_app_iff, In_sortBy, !filter_In.
  destruct (isIndexKey (fst e)); simpl; intuition auto; discriminate.
Qed.

Lemma count_positive {A} (f : A -> bool) (l : list A) :
  (1 <= List.length (filter f l))%nat -> exists x, In x l /\ f x = true.
Proof.
  destruct (filter f l) as [|x m] eqn:E; simpl; [lia|]. intros _.
  assert (H : In x (filter f l)) by (rewrite E; left; reflexivity).
  apply filter_In in H. eauto.
Qed.

(** A rank that occurs has its group among the entries. *)
Lemma rank_has_group (cards : list Card) (r : Rank) :
  (1 <= countRank r cards)%nat ->
  exists g, In (r, g) (entriesByRank (groupByRank cards)) /\
            gcards g = filter (fun x => Rank_eqb (rank x) r) cards.
Proof.
  intros H. destruct (count_positive _ _ H) as (x & Hx & Er). apply Rank_eqb_eq in Er.
  destruct (groupBy_grouped Rank_eqb rank Rank_eqb_eq cards) as (G1 & _ & G3).
  specialize (G3 x Hx). apply in_map_iff in G3. destruct G3 as ([k g] & Ek & Hin).
  simpl in Ek. subst k. rewrite Er in Hin.
  exists g. split; [apply In_entriesByRank; exact Hin | apply G1; exact Hin].
Qed.

Lemma suit_has_group (cards : list Card) (s : Suit) :
  (1 <= countSuit s cards)%nat ->
  exists g, In (s, g) (entriesBySuit (groupBySuit cards)) /\
            gcards g = filter (fun x => Suit_eqb (suit x) s) cards.
Proof.
  intros H. destruct (count_positive _ _ H) as (x & Hx & Es). apply Suit_eqb_eq in Es.
  destruct (groupBy_grouped Suit_eqb suit Suit_eqb_eq cards) as (G1 & _ & G3).
  specialize (G3 x Hx). apply in_map_iff in G3. destruct G3 as ([k g] & Ek & Hin).
  simpl in Ek. subst k. rewrite Es in Hin.
  exists g. split; [exact Hin | apply G1; exact Hin].
Qed.

(** Searching the rank entries for a group size finds nothing exactly when
    no rank occurs that many times. *)
Lemma find_rank_size (P : nat -> bool) (cards : list Card) :
  P 0%nat = false ->
  (find (fun e : Rank * Group => P (glength (snd e))) (entriesByRank (groupByRank cards)) = None
   <-> forall r, P (countRank r cards) = false).
Proof.
  intros P0. rewrite find_None_iff. split.
  - intros H r. destruct (countRank r cards) as [|n] eqn:En; [exact P0|].
    destruct (rank_has_group cards r) as (g & Hin & _); [lia|].
    specialize (H _ Hin). cbv beta iota delta [snd] in H.
    rewrite (groupByRank_glength _ _ _ Hin), En in H. exact H.
  - intros H [k g] Hin. cbv beta iota delta [snd].
    rewrite (groupByRank_glength _ _ _ Hin). apply H.
Qed.

(** X21.  The rank checks detect exactly what their names say, counted on
    the cards given: four of a kind is reported exactly when some rank
    occurs exactly four times, three of a kind exactly when some rank
    occurs exactly three times, and a pair exactly when some rank occurs
    at least twice. *)
Theorem rank_checks_count_ranks (cards : list Card) :
  (checkFourOfAKind cards = None <-> forall r, countRank r cards <> 4%nat) /\
  (checkThreeOfAKind cards = None <-> forall r, countRank r cards <> 3%nat) /\
  (checkPair cards = None <-> forall r, (countRank r cards < 2)%nat).
Proof.
  split; [|split].
  - unfold checkFourOfAKind. cbv zeta.
    pose proof (find_rank_size (fun n => (n =? 4)%nat) cards eq_refl) as H.
    cbv beta in H.
    destruct (find _ _) as [[k g]|].
    + split; [discriminate|]. intros Hno. exfalso.
      assert (Hall : forall r, (countRank r cards =? 4)%nat = false)
        by (intros r; apply Nat.eqb_neq; apply Hno).
      apply H in Hall. discriminate.
    + split; [|reflexivity]. intros _ r.
      apply Nat.eqb_neq. apply (proj1 H eq_refl).
  - unfold checkThreeOfAKind. cbv zeta.
    pose proof (find_rank_size (fun n => (n =? 3)%nat) cards eq_refl) as H.
    cbv beta in H.
    destruct (find _ _) as [[k g]|].
    + split; [discriminate|]. intros Hno. exfalso.
      assert (Hall : forall r, (countRank r cards =? 3)%nat = false)
        by (intros r; apply Nat.eqb_neq; apply Hno).
      apply H in Hall. discriminate.
    + split; [|reflexivity]. intros _ r.
      apply Nat.eqb_neq. apply (proj1 H eq_refl).
  - unfold checkPair. cbv zeta.
    pose proof (find_rank_size (fun n => (2 <=? n)%nat) cards eq_refl) as H.
    cbv beta in H.
    destruct (find _ _) as [[k g]|].
    + split; [discriminate|]. intros Hno. exfalso.
      assert (Hall : forall r, (2 <=? countRank r cards)%nat = false)
        by (intros r; apply Nat.leb_gt; apply Hno).
      apply H in Hall. discriminate.
    + split; [|reflexivity]. intros _ r.
      apply Nat.leb_gt. apply (proj1 H eq_refl).
Qed.

Lemma checkFlush_None_iff (cards : list Card) : checkFlush cards = None <-> noFlush cards.
Proof.
  unfold checkFlush, flushCards. split.
  - destruct (find _ _) as [[k g]|] eqn:Hf; [discriminate|]. intros _ s.
    destruct (le_lt_dec 5 (countSuit s cards)) as [H5|H5]; [|exact H5]. exfalso.
    destruct (suit_has_group cards s) as (g & Hin & _); [lia|].
    pose proof (find_none _ _ Hf _ Hin) as Hn. cbv beta iota delta [snd] in Hn.
    rewrite (groupBySuit_glength _ _ _ Hin) in Hn. apply Nat.leb_gt in Hn. lia.
  - intros Hnf. fold (flushCards cards). rewrite (flushCards_None _ Hnf). reflexivity.
Qed.

(** X22.  A flush is reported exactly when some suit holds five cards or
    more, and the cards of the result are then the first five cards of one
    such suit, in the order given (the five highest when the cards come
    sorted, as [evaluateHand] passes them). *)
Theorem flush_is_five_of_a_suit (cards : list Card) :
  (checkFlush cards = None <-> noFlush cards) /\
  forall r, checkFlush cards = Some r ->
    exists s, (5 <= countSuit s cards)%nat /\
      HandResult.cards r =
        map Some (slice0 5 (filter (fun x => Suit_eqb (suit x) s) cards)).
Proof.
  split; [apply checkFlush_None_iff|].
  unfold checkFlush, flushCards.
  intros r. destruct (find _ _) as [[k g]|] eqn:Hf; [|discriminate].
  intros E. injection E as <-. cbn [HandResult.cards].
  apply find_some in Hf. destruct Hf as [Hin Hlen].
  cbv beta iota delta [snd fst] in Hlen. apply Nat.leb_le in Hlen.
  rewrite (groupBySuit_glength _ _ _ Hin) in Hlen.
  exists k. split; [exact Hlen|].
  destruct (groupBy_grouped Suit_eqb suit Suit_eqb_eq cards) as (G1 & _ & _).
  rewrite <- (G1 _ _ Hin). reflexivity.
Qed.

(** *** Straights *)

Lemma NoDup_dedupe (l : list Z) : NoDup (dedupe l).
Proof.
  induction l as [|x l IH]; simpl; constructor.
  - rewrite filter_In, negb_true_iff, Z.eqb_neq. intros [_ H]. congruence.
  - apply NoDup_filter. exact IH.
Qed.

(** The unique values come out of the sort strictly descending. *)
Lemma desc_insertSorted (x : Z) (l : list Z) :
  StronglySorted (fun a b => b < a) l -> ~ In x l ->
  StronglySorted (fun a b => b < a) (insertSorted (fun a b => b <=? a) x l).
Proof.
  intros Hs. induction Hs as [|y l Hl IH Hy]; intros Hx; simpl.
  - constructor; constructor.
  - destruct (y <=? x) eqn:E.
    + apply Z.leb_le in E.
      assert (Hlt : y < x) by (assert (x <> y) by (intros ->; apply Hx; left; reflexivity); lia).
      constructor; [constructor; assumption|].
      constructor; [exact Hlt|].
      eapply Forall_impl; [|exact Hy]. simpl. intros z Hz. lia.
    + apply Z.leb_gt in E. constructor.
      * apply IH. intros H. apply Hx. right. exact H.
      * apply Forall_forall. intros z Hz. apply In_insertSorted in Hz.
        destruct Hz as [->|Hz]; [exact E|].
        rewrite Forall_forall in Hy. apply Hy. exact Hz.
Qed.

Lemma desc_sortBy (l : list Z) :
  NoDup l -> StronglySorted (fun a b => b < a) (sortBy (fun a b => b <=? a) l).
Proof.
  induction 1 as [|x l Hx Hnd IH]; simpl; [constructor|].
  apply desc_insertSorted; [exact IH|].
  rewrite In_sortBy. exact Hx.
Qed.

(** In a strictly descending list that holds [v - 1], the element after
    [v] is [v - 1]. *)
Lemma desc_next (v : Z) (u : list Z) :
  StronglySorted (fun a b => b < a) (v :: u) -> In (v - 1) u ->
  exists u', u = (v - 1) :: u'.
Proof.
  intros Hs Hin. inversion Hs as [|? ? Hu Hv]; subst.
  destruct u as [|w u']; [destruct Hin|].
  exists u'. f_equal.
  inversion Hv as [|? ? Hw _]; subst.
  destruct Hin as [E|Hin]; [exact E|].
  inversion Hu as [|? ? _ Hall]; subst.
  rewrite Forall_forall in Hall. specialize (Hall _ Hin). lia.
Qed.

Lemma regularStraight_finds (u : list Z) (top : Z) :
  StronglySorted (fun a b => b < a) u -> hasRun u top ->
  exists top', regularStraight u = Some [top'; top' - 1; top' - 2; top' - 3; top' - 4] /\
               top <= top'.
Proof.
  intros Hs. induction Hs as [|v u Hu IH Hv]; intros (H0 & H1 & H2 & H3 & H4).
  - destruct H0.
  - assert (Hs : StronglySorted (fun a b => b < a) (v :: u)) by (constructor; assumption).
    rewrite Forall_forall in Hv.
    assert (Hle : forall x, In x (v :: u) -> x <= v).
    { intros x [<-|Hx]; [lia | specialize (Hv x Hx); lia]. }
    destruct (Z.eq_dec v top) as [->|Hne].
    + assert (T1 : In (top - 1) u) by (destruct H1 as [E|H]; [lia | exact H]).
      destruct (desc_next _ _ Hs T1) as (u1 & ->).
      assert (T2 : In (top - 1 - 1) u1).
      { replace (top - 1 - 1) with (top - 2) by lia.
        destruct H2 as [E|[E|H]]; [lia | lia | exact H]. }
      destruct (desc_next _ _ Hu T2) as (u2 & ->).
      inversion Hu as [|? ? Hu2 _]; subst.
      assert (T3 : In (top - 1 - 1 - 1) u2).
      { replace (top - 1 - 1 - 1) with (top - 3) by lia.
        destruct H3 as [E|[E|[E|H]]]; [lia | lia | lia | exact H]. }
      destruct (desc_next _ _ Hu2 T3) as (u3 & ->).
      inversion Hu2 as [|? ? Hu3 _]; subst.
      assert (T4 : In (top - 1 - 1 - 1 - 1) u3).
      { replace (top - 1 - 1 - 1 - 1) with (top - 4) by lia.
        destruct H4 as [E|[E|[E|[E|H]]]]; [lia | lia | lia | lia | exact H]. }
      destruct (desc_next _ _ Hu3 T4) as (u4 & ->).
      exists top. split; [|lia].
      rewrite regularStraight_eq.
      change (slice0 5 (top :: top - 1 :: top - 1 - 1 :: top - 1 - 1 - 1
                        :: top - 1 - 1 - 1 - 1 :: u4))
        with [top; top - 1; top - 1 - 1; top - 1 - 1 - 1; top - 1 - 1 - 1 - 1].
      destruct (5 <=? List.length _)%nat eqn:E5;
        [|apply Nat.leb_gt in E5; simpl in E5; lia].
      assert (Hc : isConsecutive [top; top - 1; top - 1 - 1; top - 1 - 1 - 1;
                                  top - 1 - 1 - 1 - 1] = true).
      { simpl. unfold isConsecutive_step. rewrite !Z.eqb_refl. reflexivity. }
      rewrite Hc.
      replace (top - 1 - 1 - 1 - 1) with (top - 4) by lia.
      replace (top - 1 - 1 - 1) with (top - 3) by lia.
      replace (top - 1 - 1) with (top - 2) by lia.
      reflexivity.
    + assert (Hlt : top < v) by (specialize (Hle top H0); lia).
      assert (Hrun : hasRun u top).
      { repeat split.
        - destruct H0 as [E|H]; [lia | exact H].
        - destruct H1 as [E|H]; [lia | exact H].
        - destruct H2 as [E|H]; [lia | exact H].
        - destruct H3 as [E|H]; [lia | exact H].
        - destruct H4 as [E|H]; [lia | exact H]. }
      destruct (IH Hrun) as (top' & E & Hge).
      assert (Hlen : (5 <= List.length u)%nat).
      { rewrite regularStraight_eq in E. destruct u as [|w u']; [discriminate|].
        destruct (5 <=? List.length (w :: u'))%nat eqn:E5; [|discriminate].
        apply Nat.leb_le in E5. exact E5. }
      rewrite regularStraight_eq.
      replace (5 <=? List.length (v :: u))%nat with true
        by (symmetry; apply Nat.leb_le; simpl; lia).
      destruct (isConsecutive (slice0 5 (v :: u))) eqn:Hc.
      * destruct u as [|v1 [|v2 [|v3 [|v4 u']]]]; simpl in Hlen; try lia.
        change (slice0 5 (v :: v1 :: v2 :: v3 :: v4 :: u')) with [v; v1; v2; v3; v4] in *.
        apply isConsecutive_five in Hc. destruct Hc as (-> & -> & -> & ->).
        exists v. split; [reflexivity | lia].
      * exists top'. split; [exact E | exact Hge].
Qed.

Lemma uniqueValues_facts (cards : list Card) :
  let u := sortBy (fun a b => b <=? a) (dedupe (map value cards)) in
  StronglySorted (fun a b => b < a) u /\
  (forall top, hasRun u top <-> hasRun (map value cards) top) /\
  (includes u 14 && includes u 5 && includes u 4 && includes u 3 && includes u 2 = true
   <-> hasWheel (map value cards)).
Proof.
  cbv zeta. set (u := sortBy (fun a b => b <=? a) (dedupe (map value cards))).
  assert (Hin : forall v, In v u <-> In v (map value cards))
    by (intros v; apply In_uniqueValues).
  split; [apply desc_sortBy, NoDup_dedupe|]. split.
  - intros top. unfold hasRun. rewrite !Hin. reflexivity.
  - unfold hasWheel. rewrite !andb_true_iff, !includes_In, !Hin. tauto.
Qed.

Lemma checkStraight_None_iff (cards : list Card) :
  checkStraight cards = None <->
  (forall top, ~ hasRun (map value cards) top) /\ ~ hasWheel (map value cards).
Proof.
  unfold checkStraight.
  destruct (uniqueValues_facts cards) as (Hu & Hrun & Hwheel).
  set (u := sortBy (fun a b => b <=? a) (dedupe (map value cards))) in *.
  destruct (regularStraight u) as [sequence|] eqn:Hreg.
  - split; [discriminate|]. intros [Hno _]. exfalso.
    destruct (regularStraight_Some _ _ Hreg) as (top & -> & Hseq).
    apply (Hno top). apply Hrun. repeat split; apply Hseq; simpl; tauto.
  - assert (Hno : forall top, ~ hasRun (map value cards) top).
    { intros top Hr. apply Hrun in Hr.
      destruct (regularStraight_finds u top Hu Hr) as (t & Et & _).
      rewrite Hreg in Et. discriminate. }
    destruct (includes u 14 && includes u 5 && includes u 4 && includes u 3 &&
              includes u 2) eqn:Hw.
    + split; [discriminate|]. intros [_ Hnw]. exfalso. apply Hnw. apply Hwheel. reflexivity.
    + split; [|reflexivity]. intros _. split; [exact Hno|].
      intros HW. apply Hwheel in HW. congruence.
Qed.

(** X23.  [checkStraight] reports a straight exactly when five consecutive
    values, or ace-five-four-three-two, occur among the cards.  When five
    consecutive values occur, its score is 4000 plus the top of the highest
    such run; otherwise the wheel scores 4005. *)
Theorem straight_is_the_highest_run (cards : list Card) :
  let values := map value cards in
  (checkStraight cards = None <->
   (forall top, ~ hasRun values top) /\ ~ hasWheel values) /\
  forall r, checkStraight cards = Some r ->
    (exists top, hasRun values top /\ HandResult.score r = 4000 + top /\
                 forall top', hasRun values top' -> top' <= top) \/
    ((forall top, ~ hasRun values top) /\ hasWheel values /\ HandResult.score r = 4005).
Proof.
  cbv zeta. split; [apply checkStraight_None_iff|].
  unfold checkStraight.
  destruct (uniqueValues_facts cards) as (Hu & Hrun & Hwheel).
  set (u := sortBy (fun a b => b <=? a) (dedupe (map value cards))) in *.
  destruct (regularStraight u) as [sequence|] eqn:Hreg.
  - destruct (regularStraight_Some _ _ Hreg) as (top & -> & Hseq).
    intros r E. injection E as <-. left. exists top.
    split; [apply Hrun; repeat split; apply Hseq; simpl; tauto|].
    split; [reflexivity|].
    intros top' Hrun'. apply Hrun in Hrun'.
    destruct (regularStraight_finds u top' Hu Hrun') as (t & Et & Hge).
    rewrite Hreg in Et. injection Et as ->. exact Hge.
  - assert (Hno : forall top, ~ hasRun (map value cards) top).
    { intros top Hr. apply Hrun in Hr.
      destruct (regularStraight_finds u top Hu Hr) as (t & Et & _).
      rewrite Hreg in Et. discriminate. }
    destruct (includes u 14 && includes u 5 && includes u 4 && includes u 3 &&
              includes u 2) eqn:Hw; [|discriminate].
    intros r E. injection E as <-. right.
    split; [exact Hno|]. split; [apply Hwheel; reflexivity | reflexivity].
Qed.

(** *** Full house and two pair *)

Lemma partition_Permutation {A} (f : A -> bool) (l : list A) :
  Permutation (filter f l ++ filter (fun x => negb (f x)) l) l.
Proof.
  induction l as [|x l IH]; simpl; [apply Permutation_refl|].
  destruct (f x); simpl.
  - apply perm_skip, IH.
  - eapply perm_trans; [apply Permutation_sym, Permutation_middle | apply perm_skip, IH].
Qed.

Lemma entriesByRank_Permutation (groups : list (Rank * Group)) :
  Permutation (entriesByRank groups) groups.
Proof.
  unfold entriesByRank.
  eapply perm_trans; [apply Permutation_app_tail, sortBy_Permutation|].
  apply (partition_Permutation (fun e : Rank * Group => isIndexKey (fst e))).
Qed.

(** No rank has two entries. *)
Lemma entriesByRank_NoDup (cards : list Card) :
  NoDup (map fst (entriesByRank (groupByRank cards))).
Proof.
  destruct (groupBy_grouped Rank_eqb rank Rank_eqb_eq cards) as (_ & G2 & _).
  apply (Permutation_NoDup (l := map fst (groupByRank cards))); [|exact G2].
  apply Permutation_map, Permutation_sym, entriesByRank_Permutation.
Qed.

Lemma two_elements {A} (a b : A) (l : list A) :
  In a l -> In b l -> a <> b -> (2 <= List.length l)%nat.
Proof.
  intros Ha Hb Hne. destruct l as [|x [|y l]]; simpl in *; try lia.
  destruct Ha as [<-|[]], Hb as [<-|[]]. congruence.
Qed.

(** X24.  A full house is reported exactly when one rank occurs exactly
    three times and another rank at least twice; two pair exactly when two
    different ranks occur at least twice each. *)
Theorem full_house_and_two_pair_count_ranks (cards : list Card) :
  (checkFullHouse cards = None <->
   ~ exists r3 r2, r3 <> r2 /\ countRank r3 cards = 3%nat /\ (2 <= countRank r2 cards)%nat) /\
  (checkTwoPair cards = None <->
   ~ exists r1 r2, r1 <> r2 /\ (2 <= countRank r1 cards)%nat /\ (2 <= countRank r2 cards)%nat).
Proof.
  split.
  - unfold checkFullHouse. cbv zeta.
    pose proof (find_rank_size (fun n => (n =? 3)%nat) cards eq_refl) as H3.
    cbv beta in H3.
    destruct (find (fun e : Rank * Group => (glength (snd e) =? 3)%nat)
                   (entriesByRank (groupByRank cards))) as [[k3 g3]|] eqn:E3.
    + apply find_some in E3. destruct E3 as [Hin3 Hlen3].
      cbv beta iota delta [snd] in Hlen3. apply Nat.eqb_eq in Hlen3.
      rewrite (groupByRank_glength _ _ _ Hin3) in Hlen3.
      destruct (find _ _) as [[k2 g2]|] eqn:E2.
      * split; [discriminate|]. intros Hno. exfalso. apply Hno.
        apply find_some in E2. destruct E2 as [Hin2 Hp].
        cbv beta iota delta [snd fst] in Hp. apply andb_true_iff in Hp.
        destruct Hp as [Hlen2 Hne]. apply Nat.leb_le in Hlen2.
        rewrite (groupByRank_glength _ _ _ Hin2) in Hlen2.
        exists k3, k2. split; [|split; assumption].
        intros ->. apply negb_true_iff in Hne.
        assert (Rank_eqb k2 k2 = true) by (apply Rank_eqb_eq; reflexivity). congruence.
      * split; [|reflexivity]. intros _ (r3 & r2 & Hne & Hc3 & Hc2).
        assert (Hother : exists r, r <> k3 /\ (2 <= countRank r cards)%nat).
        { destruct (Rank_eqb r2 k3) eqn:Er.
          - apply Rank_eqb_eq in Er. subst r2. exists r3. split; [exact Hne | lia].
          - exists r2. split; [|exact Hc2].
            intros ->. assert (Rank_eqb k3 k3 = true) by (apply Rank_eqb_eq; reflexivity).
            congruence. }
        destruct Hother as (r & Hr & Hc).
        destruct (rank_has_group cards r) as (g & Hin & _); [lia|].
        pose proof (find_none _ _ E2 _ Hin) as Hn.
        cbv beta iota delta [snd fst] in Hn.
        rewrite (groupByRank_glength _ _ _ Hin) in Hn.
        apply andb_false_iff in Hn. destruct Hn as [Hn|Hn].
        -- apply Nat.leb_gt in Hn. lia.
        -- apply negb_false_iff in Hn. apply Rank_eqb_eq in Hn. contradiction.
    + split; [|destruct (find _ _) as [[k2 g2]|]; reflexivity].
      intros _ (r3 & r2 & _ & Hc3 & _).
      pose proof (proj1 H3 eq_refl r3) as Hn. apply Nat.eqb_neq in Hn. contradiction.
  - unfold checkTwoPair. cbv zeta.
    set (pairs := filter (fun e : Rank * Group => (2 <=? glength (snd e))%nat)
                         (entriesByRank (groupByRank cards))).
    assert (Hpairs : forall k g, In (k, g) pairs ->
              In (k, g) (entriesByRank (groupByRank cards)) /\ (2 <= countRank k cards)%nat).
    { intros k g Hin. apply filter_In in Hin. destruct Hin as [Hin Hlen].
      cbv beta iota delta [snd] in Hlen. apply Nat.leb_le in Hlen.
      rewrite (groupByRank_glength _ _ _ Hin) in Hlen. split; assumption. }
    destruct (List.length pairs <? 2)%nat eqn:El.
    + apply Nat.ltb_lt in El. split; [|reflexivity].
      intros _ (r1 & r2 & Hne & Hc1 & Hc2).
      destruct (rank_has_group cards r1) as (g1 & Hin1 & _); [lia|].
      destruct (rank_has_group cards r2) as (g2 & Hin2 & _); [lia|].
      assert (H2 : (2 <= List.length pairs)%nat).
      { apply (two_elements (r1, g1) (r2, g2)).
        - apply filter_In. split; [exact Hin1|]. cbv beta iota delta [snd].
          rewrite (groupByRank_glength _ _ _ Hin1). apply Nat.leb_le. exact Hc1.
        - apply filter_In. split; [exact Hin2|]. cbv beta iota delta [snd].
          rewrite (groupByRank_glength _ _ _ Hin2). apply Nat.leb_le. exact Hc2.
        - congruence. }
      lia.
    + apply Nat.ltb_ge in El.
      assert (Hfound : exists r1 r2, r1 <> r2 /\ (2 <= countRank r1 cards)%nat /\
                                     (2 <= countRank r2 cards)%nat).
      { pose proof (NoDup_map_filter fst
                      (fun e : Rank * Group => (2 <=? glength (snd e))%nat) _
                      (entriesByRank_NoDup cards)) as Hnd.
        fold pairs in Hnd.
        destruct pairs as [|[k1 g1] [|[k2 g2] rest]]; simpl in El; try lia.
        exists k1, k2.
        split; [|split; [apply (Hpairs k1 g1); left; reflexivity
                        | apply (Hpairs k2 g2); right; left; reflexivity]].
        simpl in Hnd. inversion Hnd as [|x m Hx _]; subst.
        intros ->. apply Hx. left. reflexivity. }
      assert (Hsorted : (2 <= List.length
                (sortBy (fun a b : Rank * Group =>
                           (value (gfirst (snd b)) <=? value (gfirst (snd a)))%Z) pairs))%nat)
        by (rewrite length_sortBy; exact El).
      destruct (sortBy _ pairs) as [|[k1 g1] [|[k2 g2] rest]]; simpl in Hsorted; try lia.
      split; [discriminate|]. intros Hno. exfalso. exact (Hno Hfound).
Qed.

(** *** The weakest category *)

Lemma sorted_counts (cards : list Card) :
  (forall r, countRank r (sortBy byValueDesc cards) = countRank r cards) /\
  (noFlush (sortBy byValueDesc cards) <-> noFlush cards) /\
  (forall top, hasRun (map value (sortBy byValueDesc cards)) top <->
               hasRun (map value cards) top) /\
  (hasWheel (map value (sortBy byValueDesc cards)) <-> hasWheel (map value cards)).
Proof.
  split; [intros r; unfold countRank; apply filter_length_sortBy|].
  split.
  { unfold noFlush, countSuit. split; intros H s; specialize (H s);
      rewrite filter_length_sortBy in *; exact H. }
  split.
  - intros top. unfold hasRun. rewrite !In_values_sorted. reflexivity.
  - unfold hasWheel. rewrite !In_values_sorted. reflexivity.
Qed.

(** X25.  With five cards or more, [evaluateHand] calls a hand High Card
    exactly when there is nothing better in it: no rank occurs twice, no
    suit holds five cards, and neither five consecutive values nor
    ace-five-four-three-two occur. *)
Theorem high_card_means_nothing_better (playerHand communityCards : list Card) :
  let cards := playerHand ++ communityCards in
  (5 <= List.length cards)%nat ->
  (nameOf (evaluateHand playerHand communityCards) = Some "High Card" <->
   (forall r, (countRank r cards < 2)%nat) /\ noFlush cards /\
   (forall top, ~ hasRun (map value cards) top) /\ ~ hasWheel (map value cards)).
Proof.
  cbv zeta. intros Hlen. unfold evaluateHand. cbv zeta.
  destruct (_ <? 5)%nat eqn:Hlt; [apply Nat.ltb_lt in Hlt; lia|].
  change (fun a b => value b <=? value a) with byValueDesc.
  destruct (sorted_counts (playerHand ++ communityCards)) as (Hcount & Hnf & Hrun & Hwheel).
  set (s := sortBy byValueDesc (playerHand ++ communityCards)) in *.
  pose proof (find_rank_size (fun n => (2 <=? n)%nat) s eq_refl) as Hpair.
  pose proof (find_rank_size (fun n => (n =? 3)%nat) s eq_refl) as Hthree.
  pose proof (find_rank_size (fun n => (n =? 4)%nat) s eq_refl) as Hfour.
  cbv beta in Hpair, Hthree, Hfour.
  split.
  - intros Hname.
    destruct (checkRoyalFlush_Ok s) as (o1 & E1 & N1).
    destruct (checkStraightFlush_Ok s) as (o2 & E2 & N2).
    rewrite E1, E2 in Hname.
    destruct o1 as [r1|];
      [simpl in Hname; rewrite (N1 r1 eq_refl) in Hname; discriminate|].
    destruct o2 as [r2|];
      [simpl in Hname; rewrite (proj1 (N2 r2 eq_refl)) in Hname; discriminate|].
    destruct (checkFourOfAKind s) as [r3|] eqn:E3;
      [simpl in Hname; rewrite (checkFourOfAKind_name _ _ E3) in Hname; discriminate|].
    destruct (checkFullHouse s) as [r4|] eqn:E4;
      [simpl in Hname; rewrite (checkFullHouse_name _ _ E4) in Hname; discriminate|].
    destruct (checkFlush s) as [r5|] eqn:E5;
      [simpl in Hname; rewrite (checkFlush_name _ _ E5) in Hname; discriminate|].
    destruct (checkStraight s) as [r6|] eqn:E6;
      [simpl in Hname; rewrite (proj1 (checkStraight_first _ _ E6)) in Hname; discriminate|].
    destruct (checkThreeOfAKind s) as [r7|] eqn:E7;
      [simpl in Hname; rewrite (checkThreeOfAKind_name _ _ E7) in Hname; discriminate|].
    destruct (checkTwoPair s) as [r8|] eqn:E8;
      [simpl in Hname; rewrite (checkTwoPair_name _ _ E8) in Hname; discriminate|].
    destruct (checkPair s) as [r9|] eqn:E9;
      [simpl in Hname; rewrite (checkPair_name _ _ E9) in Hname; discriminate|].
    clear Hname.
    split.
    { intros r. rewrite <- Hcount. apply Nat.leb_gt. apply (proj1 Hpair).
      unfold checkPair in E9. cbv zeta in E9.
      destruct (find _ _) as [[k g]|]; [discriminate | reflexivity]. }
    split; [apply Hnf; apply checkFlush_None_iff; exact E5|].
    apply checkStraight_None_iff in E6. destruct E6 as [R W].
    split; [intros top Hr; apply (R top); apply Hrun; exact Hr|].
    intros HW. apply W. apply Hwheel. exact HW.
  - intros (Hranks & Hflush & Hnorun & Hnowheel).
    assert (Hlow : forall r, (countRank r s < 2)%nat) by (intros r; rewrite Hcount; apply Hranks).
    assert (F : flushCards s = None) by (apply flushCards_None; apply Hnf; exact Hflush).
    assert (P2 : find (fun e : Rank * Group => (2 <=? glength (snd e))%nat)
                      (entriesByRank (groupByRank s)) = None).
    { apply Hpair. intros r. apply Nat.leb_gt. apply Hlow. }
    assert (P3 : find (fun e : Rank * Group => (glength (snd e) =? 3)%nat)
                      (entriesByRank (groupByRank s)) = None).
    { apply Hthree. intros r. apply Nat.eqb_neq. specialize (Hlow r). lia. }
    assert (P4 : find (fun e : Rank * Group => (glength (snd e) =? 4)%nat)
                      (entriesByRank (groupByRank s)) = None).
    { apply Hfour. intros r. apply Nat.eqb_neq. specialize (Hlow r). lia. }
    assert (E1 : checkStraightFlush s = Ok None)
      by (unfold checkStraightFlush; rewrite F; reflexivity).
    assert (E0 : checkRoyalFlush s = Ok None)
      by (unfold checkRoyalFlush; rewrite E1; reflexivity).
    assert (E3 : checkFourOfAKind s = None)
      by (unfold checkFourOfAKind; cbv zeta; rewrite P4; reflexivity).
    assert (E4 : checkFullHouse s = None)
      by (unfold checkFullHouse; cbv zeta; rewrite P3; reflexivity).
    assert (E5 : checkFlush s = None) by (unfold checkFlush; rewrite F; reflexivity).
    assert (E6 : checkStraight s = None).
    { apply checkStraight_None_iff. split.
      - intros top Hr. apply (Hnorun top). apply Hrun. exact Hr.
      - intros HW. apply Hnowheel. apply Hwheel. exact HW. }
    assert (E7 : checkThreeOfAKind s = None)
      by (unfold checkThreeOfAKind; cbv zeta; rewrite P3; reflexivity).
    assert (E8 : checkTwoPair s = None).
    { unfold checkTwoPair. cbv zeta.
      assert (Hnil : filter (fun e : Rank * Group => (2 <=? glength (snd e))%nat)
                            (entriesByRank (groupByRank s)) = []).
      { rewrite find_None_iff in P2.
        destruct (filter _ _) as [|e l] eqn:Ef; [reflexivity|]. exfalso.
        assert (He : In e (e :: l)) by (left; reflexivity).
        rewrite <- Ef in He. apply filter_In in He. destruct He as [He1 He2].
        rewrite (P2 e He1) in He2. discriminate. }
      rewrite Hnil. reflexivity. }
    assert (E9 : checkPair s = None)
      by (unfold checkPair; cbv zeta; rewrite P2; reflexivity).
    rewrite E0, E1, E3, E4, E5, E6, E7, E8, E9. reflexivity.
Qed.

Lemma high_card_means_nothing_better_witness :
  nameOf (evaluateHand [c RA spades; c RK diamonds]
                       [c RQ clubs; c RJ hearts; c R9 spades; c R7 diamonds; c R3 clubs])
    = Some "High Card" <->
  (forall r, (countRank r ([c RA spades; c RK diamonds] ++
                           [c RQ clubs; c RJ hearts; c R9 spades; c R7 diamonds; c R3 clubs])
              < 2)%nat) /\
  noFlush ([c RA spades; c RK diamonds] ++
           [c RQ clubs; c RJ hearts; c R9 spades; c R7 diamonds; c R3 clubs]) /\
  (forall top, ~ hasRun (map value ([c RA spades; c RK diamonds] ++
           [c RQ clubs; c RJ hearts; c R9 spades; c R7 diamonds; c R3 clubs])) top) /\
  ~ hasWheel (map value ([c RA spades; c RK diamonds] ++
           [c RQ clubs; c RJ hearts; c R9 spades; c R7 diamonds; c R3 clubs])).
Proof.
  apply (high_card_means_nothing_better [c RA spades; c RK diamonds]
           [c RQ clubs; c RJ hearts; c R9 spades; c R7 diamonds; c R3 clubs]).
  simpl. lia.
Defined.

(** * Roulette: how the wheel is covered *)

Lemma In_wheel (n : Z) : In n wheel <-> 0 <= n <= 36.
Proof.
  unfold wheel. rewrite in_map_iff. split.
  - intros (k & <- & Hk). apply in_seq in Hk. lia.
  - intros H. exists (Z.to_nat n). split; [lia|]. apply in_seq. lia.
Qed.

Lemma forallb_wheel (check : Z -> bool) (n : Z) :
  forallb check wheel = true -> 0 <= n <= 36 -> check n = true.
Proof.
  intros H Hn. rewrite forallb_forall in H. apply H. apply In_wheel. exact Hn.
Qed.

(** Whether an outside bet wins depends on its type only. *)
Lemma outside_win (bet : Bet.t) (n : Z) :
  In (Bet.type bet) outsideBets ->
  BetResult.win (calculateBetResult bet n) = wins (Bet.type bet) n /\
  BetResult.winAmount (calculateBetResult bet n) =
    if wins (Bet.type bet) n then Bet.amount bet else 0.
Proof.
  destruct bet as [t v a]. unfold outsideBets, wins. simpl Bet.type. simpl Bet.amount.
  intros [<-|[<-|[<-|[<-|[<-|[<-|[]]]]]]];
    unfold calculateBetResult, winAndMultiplier; simpl String.eqb; cbv iota zeta;
    simpl Bet.amount;
    match goal with
    | |- context [BetResult.mk ?w _] => destruct w
    end; simpl; split; try reflexivity; lia.
Qed.

(** X26.  On every number of the wheel the outside bets split cleanly: on
    0 all six of them lose, and on each of 1 to 36 exactly one of red and
    black wins, exactly one of even and odd, and exactly one of 1-18 and
    19-36. *)
Theorem outside_bets_split_the_wheel (n : Z) :
  0 <= n <= 36 ->
  (n = 0 -> forall t, In t outsideBets -> wins t n = false) /\
  (1 <= n ->
   xorb (wins "red" n) (wins "black" n) = true /\
   xorb (wins "even" n) (wins "odd" n) = true /\
   xorb (wins "1-18" n) (wins "19-36" n) = true).
Proof.
  intros Hn. split.
  - intros -> t Ht. unfold outsideBets in Ht.
    destruct Ht as [<-|[<-|[<-|[<-|[<-|[<-|[]]]]]]]; vm_compute; reflexivity.
  - intros H1.
    assert (Hall : forallb
      (fun k => (k =? 0) ||
                (xorb (wins "red" k) (wins "black" k) &&
                 xorb (wins "even" k) (wins "odd" k) &&
                 xorb (wins "1-18" k) (wins "19-36" k))) wheel = true)
      by (vm_compute; reflexivity).
    pose proof (forallb_wheel _ n Hall Hn) as H.
    cbv beta in H.
    destruct (n =? 0) eqn:E0; [apply Z.eqb_eq in E0; lia|].
    rewrite orb_false_l, !andb_true_iff in H. tauto.
Qed.

Lemma outside_bets_split_the_wheel_witness :
  (17 = 0 -> forall t, In t outsideBets -> wins t 17 = false) /\
  (1 <= 17 ->
   xorb (wins "red" 17) (wins "black" 17) = true /\
   xorb (wins "even" 17) (wins "odd" 17) = true /\
   xorb (wins "1-18" 17) (wins "19-36" 17) = true).
Proof.
  apply (outside_bets_split_the_wheel 17). lia.
Defined.

Lemma sum_of_wins (w : Z -> bool) (x : Z) (l : list Z) :
  sumZ (map (fun n => if w n then x else 0) l) = x * Z.of_nat (List.length (filter w l)).
Proof.
  unfold sumZ. induction l as [|n l IH]; simpl; [lia|].
  rewrite IH. destruct (w n); simpl List.length; lia.
Qed.

Lemma filter_eqb_NoDup (k : Z) (l : list Z) :
  NoDup l -> In k l -> filter (fun n => k =? n) l = [k].
Proof.
  induction 1 as [|x l Hx Hnd IH]; intros Hin; [destruct Hin|]. simpl.
  destruct (k =? x) eqn:E.
  - apply Z.eqb_eq in E. subst x. f_equal.
    clear IH Hin Hnd. induction l as [|y l IH]; simpl; [reflexivity|].
    destruct (k =? y) eqn:Ey.
    + apply Z.eqb_eq in Ey. subst y. exfalso. apply Hx. left. reflexivity.
    + apply IH. intros H. apply Hx. right. exact H.
  - apply IH. destruct Hin as [->|Hin]; [rewrite Z.eqb_refl in E; discriminate | exact Hin].
Qed.

Lemma NoDup_wheel : NoDup wheel.
Proof.
  unfold wheel. apply Finite.Injective_map_NoDup; [|apply seq_NoDup].
  intros a b H. lia.
Qed.

(** X27.  Over the 37 numbers of the wheel, every outside bet wins on
    exactly 18 numbers and pays its amount each time, 18 amounts in all; a
    bet on a number of the wheel wins on that number alone and pays 35
    amounts; a bet of any other type never wins and pays nothing. *)
Theorem each_bet_wins_on_its_share (bet : Bet.t) :
  let winning := filter (fun n => BetResult.win (calculateBetResult bet n)) wheel in
  let paid := sumZ (map (fun n => BetResult.winAmount (calculateBetResult bet n)) wheel) in
  (In (Bet.type bet) outsideBets ->
   List.length winning = 18%nat /\ paid = 18 * Bet.amount bet) /\
  (Bet.type bet = "number" ->
   forall k, Bet.value bet = Some k -> 0 <= k <= 36 ->
   winning = [k] /\ paid = 35 * Bet.amount bet) /\
  (~ In (Bet.type bet) ("number" :: outsideBets) -> winning = [] /\ paid = 0).
Proof.
  cbv zeta. split; [|split].
  - intros Hout.
    assert (Hw : filter (fun n => BetResult.win (calculateBetResult bet n)) wheel =
                 filter (wins (Bet.type bet)) wheel).
    { apply filter_ext. intros n. apply (outside_win bet n Hout). }
    assert (Hp : map (fun n => BetResult.winAmount (calculateBetResult bet n)) wheel =
                 map (fun n => if wins (Bet.type bet) n then Bet.amount bet else 0) wheel).
    { apply map_ext. intros n. apply (outside_win bet n Hout). }
    rewrite Hw, Hp, sum_of_wins.
    assert (H18 : List.length (filter (wins (Bet.type bet)) wheel) = 18%nat).
    { unfold outsideBets in Hout.
      destruct Hout as [<-|[<-|[<-|[<-|[<-|[<-|[]]]]]]]; vm_compute; reflexivity. }
    rewrite H18. split; [reflexivity | lia].
  - intros Ht k Hv Hk.
    assert (Hcalc : forall n, calculateBetResult bet n =
                              BetResult.mk (k =? n) (if k =? n then Bet.amount bet * 35 else 0)).
    { intros n. unfold calculateBetResult, winAndMultiplier. rewrite Ht, Hv.
      cbn [String.eqb Ascii.eqb Bool.eqb]. cbv iota zeta.
      destruct (k =? n); reflexivity. }
    pose proof (filter_eqb_NoDup k wheel NoDup_wheel (proj2 (In_wheel k) Hk)) as Hk1.
    split.
    + transitivity (filter (fun n => k =? n) wheel); [|exact Hk1].
      apply filter_ext. intros n. rewrite Hcalc. reflexivity.
    + rewrite (map_ext _ (fun n => if k =? n then Bet.amount bet * 35 else 0))
        by (intros n; rewrite Hcalc; reflexivity).
      rewrite (sum_of_wins (fun n => k =? n) (Bet.amount bet * 35) wheel), Hk1.
      cbn [List.length]. lia.
  - intros Hnot.
    assert (Hlose : forall n, calculateBetResult bet n = BetResult.mk false 0).
    { intros n. unfold calculateBetResult, winAndMultiplier.
      unfold outsideBets in Hnot.
      repeat match goal with
             | |- context [String.eqb (Bet.type bet) ?s] =>
                 destruct (String.eqb_spec (Bet.type bet) s) as [E|_];
                 [exfalso; apply Hnot; rewrite E; cbn [In]; tauto|]
             end.
      reflexivity. }
    split.
    + rewrite (filter_ext _ (fun _ => false))
        by (intros n; rewrite Hlose; reflexivity).
      generalize wheel. intros l. induction l as [|x l IH]; [reflexivity | exact IH].
    + rewrite (map_ext _ (fun _ => 0)) by (intros n; rewrite Hlose; reflexivity).
      unfold sumZ. generalize wheel. intros l.
      induction l as [|x l IH]; [reflexivity | exact IH].
Qed.
